(** * Kernel-trace analysis (scripts/analyze_kernel_trace.py)

    A shallow embedding of the trace-windowing script: the csv.DictReader
    rows it iterates over, the occurrence counter, the half-window selector,
    the metric deriver (on binary64 floats), variant discovery and the
    aggregate writer, with the properties of the design document stated and
    proved (or refuted) against these definitions.

    Conventions.
    - Python [str] is [string] (ASCII), Python [int] is [Z], Python [float]
      is the primitive binary64 type [float].
    - A value that may be Python's [None] is an [option string].
    - A file holds the records [csv.reader] yields for it (and the records
      handed to [csv.writer] for a file the script wrote).
    - The file system is a finite map from the path strings the script
      builds with [os.path.join] to nodes. *)

From Stdlib Require Import ZArith Ascii String DecimalString DecimalPos Floats.
From stdpp Require Import base option list sorting strings gmap.

Local Open Scope Z_scope.

(* ===================================================================== *)
(** * Python strings *)
(* ===================================================================== *)

Module PyStr.

(** [a in b] for two Python strings: [a] occurs in [b] as a contiguous
    substring.  The empty string occurs in every string. *)
Fixpoint contains (needle hay : string) : bool :=
  String.prefix needle hay ||
  match hay with
  | EmptyString => false
  | String _ rest => contains needle rest
  end.

(** [s.endswith(suffix)]. *)
Fixpoint endswith (s suffix : string) : bool :=
  String.eqb s suffix ||
  match s with
  | EmptyString => false
  | String _ rest => endswith rest suffix
  end.

(** [s.startswith(p)]. *)
Definition startswith (s p : string) : bool := String.prefix p s.

(** The last character of a string, if any. *)
Fixpoint last_char (s : string) : option ascii :=
  match s with
  | EmptyString => None
  | String c EmptyString => Some c
  | String _ rest => last_char rest
  end.

(** Does the character occur in the string? *)
Fixpoint has_char (c : ascii) (s : string) : bool :=
  match s with
  | EmptyString => false
  | String d rest => Ascii.eqb c d || has_char c rest
  end.

End PyStr.

(* ===================================================================== *)
(** * Exceptions and the error monad *)
(* ===================================================================== *)

(** The exceptions the modelled code can raise. *)
Inductive exn :=
  | FileNotFoundError (path : string)
  | IsADirectoryError (path : string)
  | NotADirectoryError (path : string)
  | KeyError (kernel_col csv_path : string) (headers : option (list string))
  | OverflowError
  | ZeroDivisionError.

(** A computation that returns a value or raises. *)
Definition result (A : Type) : Type := exn + A.

Definition raise {A} (e : exn) : result A := inl e.

#[global] Instance result_ret : MRet result := fun A a => inr a.
#[global] Instance result_bind : MBind result := fun A B k m =>
  match m with
  | inl e => inl e
  | inr a => k a
  end.

(* ===================================================================== *)
(** * Files and csv.DictReader *)
(* ===================================================================== *)

(** One record as [csv.reader] yields it: the list of its fields.  A blank
    line is the empty record. *)
Abbreviation record := (list string).

(** A node of the file system: a regular file with its records, or a
    directory with the names [os.listdir] returns for it, in that order. *)
Inductive node :=
  | FileN (records : list record)
  | DirN (children : list string).

(** [open(path, "r")] followed by [csv.reader]: the records of the file. *)
Definition open_read (fs : gmap string node) (path : string)
  : result (list record) :=
  match fs !! path with
  | Some (FileN recs) => mret recs
  | Some (DirN _) => raise (IsADirectoryError path)
  | None => raise (FileNotFoundError path)
  end.

(** A row as [csv.DictReader] yields it: a dict from field name to the
    field's text, or to [None] (the reader's [restval]) where the record is
    shorter than the header.  The surplus fields of a record longer than the
    header are stored by the reader under the key [None]; no string key ever
    reads them, so the model leaves them out. *)
Abbreviation Row := (gmap string (option string)).

(** [d = dict(zip(self.fieldnames, row))], then
    [for key in self.fieldnames[lr:]: d[key] = self.restval]. *)
Definition dict_row (fieldnames : list string) (rec : record) : Row :=
  let d := foldl (fun d kv => <[kv.1 := Some kv.2]> d) ∅ (zip fieldnames rec) in
  foldl (fun d key => <[key := None]> d) d (drop (length rec) fieldnames).

(** [reader.fieldnames]: the first record of the file, [None] for an empty
    file. *)
Definition DictReader_fieldnames (recs : list record) : option (list string) :=
  head recs.

(** The rows a [csv.DictReader] iterates over: every record after the first
    that is not blank ([while row == []: row = next(self.reader)]), as a dict
    over the header. *)
Definition DictReader_rows (recs : list record) : list Row :=
  match recs with
  | [] => []
  | fieldnames :: rest =>
      dict_row fieldnames <$> filter (fun r => r ≠ []) rest
  end.

(** [row.get(key)]: [None] when the key is absent or bound to [None]. *)
Definition row_get (row : Row) (key : string) : option string :=
  match row !! key with
  | Some v => v
  | None => None
  end.

(** [row.get(key, default)]: the default only when the key is absent. *)
Definition row_get_default (row : Row) (key default : string) : option string :=
  match row !! key with
  | Some v => v
  | None => Some default
  end.

(** [v or ""] for a [v] that is a string or [None]. *)
Definition or_empty (v : option string) : string :=
  match v with
  | Some s => s
  | None => EmptyString
  end.

(* ===================================================================== *)
(** * Occurrence counter *)
(* ===================================================================== *)

(** [match_substring in (row.get(kernel_col) or "")]. *)
Definition is_occurrence (kernel_col match_substring : string) (row : Row) : bool :=
  PyStr.contains match_substring (or_empty (row_get row kernel_col)).

(** The loop of [count_occurrences]:
    [for row in reader: if ...: count += 1]. *)
Definition count_loop (kernel_col match_substring : string)
    (count : Z) (rows : list Row) : Z :=
  foldl (fun count row =>
           if is_occurrence kernel_col match_substring row
           then count + 1 else count) count rows.

(** [not reader.fieldnames or kernel_col not in reader.fieldnames]. *)
Definition header_lacks (kernel_col : string) (names : option (list string)) : bool :=
  match names with
  | None => true
  | Some [] => true
  | Some l => negb (bool_decide (kernel_col ∈ l))
  end.

Definition count_occurrences (fs : gmap string node)
    (csv_path kernel_col match_substring : string) : result Z :=
  recs ← open_read fs csv_path;
  if header_lacks kernel_col (DictReader_fieldnames recs)
  then raise (KeyError kernel_col csv_path (DictReader_fieldnames recs))
  else mret (count_loop kernel_col match_substring 0 (DictReader_rows recs)).

(* ===================================================================== *)
(** * Half-window selector *)
(* ===================================================================== *)

(** The two local variables of the generator. *)
Record half_state := HalfState { occ_index : Z; started : bool }.

(** One iteration of the generator's loop: the updated variables and the
    row it yields, if it yields. *)
Definition half_step (start_occurrence_0based : Z)
    (kernel_col match_substring : string)
    (st : half_state) (row : Row) : half_state * option Row :=
  let st1 :=
    if is_occurrence kernel_col match_substring row then
      {| occ_index := occ_index st + 1;
         started := if occ_index st =? start_occurrence_0based
                    then true else started st |}
    else st in
  (st1, if started st1 then Some row else None).

(** The generator run to exhaustion over the reader's rows: the final
    variables and the rows yielded, in the order they were yielded. *)
Fixpoint half_loop (start_occurrence_0based : Z)
    (kernel_col match_substring : string)
    (st : half_state) (rows : list Row) : half_state * list Row :=
  match rows with
  | [] => (st, [])
  | row :: rest =>
      let '(st1, y) := half_step start_occurrence_0based kernel_col match_substring st row in
      let '(st2, ys) := half_loop start_occurrence_0based kernel_col match_substring st1 rest in
      (st2, match y with Some r => r :: ys | None => ys end)
  end.

Definition half_init : half_state := {| occ_index := 0; started := false |}.

(** [process_rows_from_half], with the generator's final variables kept
    next to the rows it yields. *)
Definition process_rows_from_half_run (fs : gmap string node)
    (csv_path : string) (start_occurrence_0based : Z)
    (kernel_col match_substring : string) : result (half_state * list Row) :=
  recs ← open_read fs csv_path;
  mret (half_loop start_occurrence_0based kernel_col match_substring
         half_init (DictReader_rows recs)).

Definition process_rows_from_half (fs : gmap string node)
    (csv_path : string) (start_occurrence_0based : Z)
    (kernel_col match_substring : string) : result (list Row) :=
  r ← process_rows_from_half_run fs csv_path start_occurrence_0based
        kernel_col match_substring;
  mret r.2.

(* ===================================================================== *)
(** * Python floats *)
(* ===================================================================== *)

Module PyFloat.

(** ** Characters *)

Definition code (c : ascii) : Z := Z.of_nat (nat_of_ascii c).

(** [str.isspace] on the ASCII range: tab, line feed, vertical tab, form
    feed, carriage return, the four separators 0x1c-0x1f and the space. *)
Definition is_space (c : ascii) : bool :=
  ((9 <=? code c) && (code c <=? 13)) ||
  ((28 <=? code c) && (code c <=? 32)).

Definition is_digit (c : ascii) : bool :=
  (48 <=? code c) && (code c <=? 57).

Definition digit_val (c : ascii) : Z := code c - 48.

(** ASCII lower-casing of one character. *)
Definition lower (c : ascii) : ascii :=
  if (65 <=? code c) && (code c <=? 90)
  then ascii_of_nat (nat_of_ascii c + 32) else c.

Fixpoint lower_str (s : string) : string :=
  match s with
  | EmptyString => EmptyString
  | String c r => String (lower c) (lower_str r)
  end.

(** ** Lexing *)

Fixpoint lstrip (s : string) : string :=
  match s with
  | String c r => if is_space c then lstrip r else s
  | EmptyString => EmptyString
  end.

Fixpoint rstrip (s : string) : string :=
  match s with
  | EmptyString => EmptyString
  | String c r =>
      match rstrip r with
      | EmptyString => if is_space c then EmptyString else String c EmptyString
      | r' => String c r'
      end
  end.

(** The longest prefix of decimal digits, and what follows it. *)
Fixpoint span_digits (s : string) : string * string :=
  match s with
  | String c r =>
      if is_digit c
      then let '(d, rest) := span_digits r in (String c d, rest)
      else (EmptyString, s)
  | EmptyString => (EmptyString, EmptyString)
  end.

(** The number a string of decimal digits denotes, most significant digit
    first; [acc] is the value of the digits read so far. *)
Fixpoint digits_value (acc : Z) (s : string) : Z :=
  match s with
  | EmptyString => acc
  | String c r => digits_value (10 * acc + digit_val c) r
  end.

(** Underscores of a numeric literal: allowed only between two digits.
    Returns the text without them, or [None] for a misplaced one.  [prev]
    is the previous character. *)
Fixpoint drop_underscores (prev : option ascii) (s : string) : option string :=
  match s with
  | EmptyString =>
      match prev with
      | Some "_"%char => None
      | _ => Some EmptyString
      end
  | String c r =>
      if Ascii.eqb c "_" then
        match prev with
        | Some p => if is_digit p then drop_underscores (Some c) r else None
        | None => None
        end
      else
        match prev with
        | Some "_"%char =>
            if is_digit c then String c <$> drop_underscores (Some c) r else None
        | _ => String c <$> drop_underscores (Some c) r
        end
  end.

(** An optional sign: [true] for a minus. *)
Definition split_sign (s : string) : bool * string :=
  match s with
  | String "-" r => (true, r)
  | String "+" r => (false, r)
  | _ => (false, s)
  end.

(** ** Correctly rounded values *)

(** The binary64 value nearest to [n * 10^e10] (ties to even), for [n >= 0]. *)
Definition decimal_to_SF (n e10 : Z) : spec_float :=
  match n with
  | Zpos p =>
      if 0 <=? e10
      then binary_normalize prec emax (n * 10 ^ e10) 0 false
      else SFdiv prec emax (S754_finite false p 0)
                           (S754_finite false (Z.to_pos (10 ^ (- e10))) 0)
  | _ => S754_zero false
  end.

(** [float(n)] for a Python [int]: the nearest binary64 value, ties to
    even; [OverflowError] when that is not finite. *)
Definition of_int (n : Z) : result float :=
  match binary_normalize prec emax n 0 false with
  | S754_infinity _ => raise OverflowError
  | s => mret (SF2Prim s)
  end.

(** ** [float(str)] *)

(** The unsigned part of a float literal: [inf], [infinity], [nan] in any
    letter case, or digits with an optional point and exponent. *)
Definition parse_unsigned (s : string) : option spec_float :=
  let l := lower_str s in
  if String.eqb l "inf" || String.eqb l "infinity" then Some (S754_infinity false)
  else if String.eqb l "nan" then Some S754_nan
  else
    let '(ip, r1) := span_digits s in
    let '(fp, r2) :=
      match r1 with
      | String "." r => span_digits r
      | _ => (EmptyString, r1)
      end in
    match ip, fp with
    | EmptyString, EmptyString => None
    | _, _ =>
        let n := digits_value 0 (ip +:+ fp) in
        let k := Z.of_nat (String.length fp) in
        match r2 with
        | EmptyString => Some (decimal_to_SF n (- k))
        | String c r =>
            if Ascii.eqb (lower c) "e" then
              let '(neg, r3) := split_sign r in
              match span_digits r3 with
              | (String d ds, EmptyString) =>
                  let e := digits_value 0 (String d ds) in
                  Some (decimal_to_SF n ((if neg then - e else e) - k))
              | _ => None
              end
            else None
        end
    end.

(** [float(s)] for a string: [None] stands for [ValueError]. *)
Definition of_str (s : string) : option float :=
  body ← drop_underscores None (rstrip (lstrip s));
  let '(neg, r) := split_sign body in
  v ← parse_unsigned r;
  Some (SF2Prim (if neg then SFopp v else v)).

(** ** Operators *)

(** [a / b]: [ZeroDivisionError] for a zero divisor. *)
Definition truediv (a b : float) : result float :=
  if PrimFloat.eqb b 0 then raise ZeroDivisionError
  else mret (PrimFloat.div a b).

(** [max(a, b)]: the first argument unless the second is greater. *)
Definition max (a b : float) : float := if PrimFloat.ltb a b then b else a.

(** [min(a, b)]: the first argument unless the second is smaller. *)
Definition min (a b : float) : float := if PrimFloat.ltb b a then b else a.

End PyFloat.

(* ===================================================================== *)
(** * Metric deriver *)
(* ===================================================================== *)

(** [float(v)] with every exception caught: a string that is no float
    literal raises [ValueError], [None] raises [TypeError]; both give the
    default. *)
Definition safe_float (v : option string) (default : float) : float :=
  match v with
  | Some s =>
      match PyFloat.of_str s with
      | Some x => x
      | None => default
      end
  | None => default
  end.

(** The utilisation branch of [compute_metrics]. *)
Definition cu_utilization_of (total_workgroups : float) (num_cus : Z) : result float :=
  if num_cus <=? 0 then mret 0%float
  else
    cus ← PyFloat.of_int num_cus;
    ratio ← PyFloat.truediv total_workgroups cus;
    mret (PrimFloat.mul (PyFloat.min ratio 1) 100).

(** Returns [(time_us, total_workgroups, cu_utilization_pct)]. *)
Definition compute_metrics (row : Row) (num_cus : Z) : result (float * float * float) :=
  let start_ts := safe_float (row_get_default row "Start_Timestamp" "0") 0 in
  let end_ts := safe_float (row_get_default row "End_Timestamp" "0") 0 in
  time_us ← PyFloat.truediv (PrimFloat.sub end_ts start_ts) 1000;
  let wsx := PyFloat.max (safe_float (row_get_default row "Workgroup_Size_X" "0") 0) 1 in
  let wsy := PyFloat.max (safe_float (row_get_default row "Workgroup_Size_Y" "0") 0) 1 in
  let wsz := PyFloat.max (safe_float (row_get_default row "Workgroup_Size_Z" "0") 0) 1 in
  let gsx := safe_float (row_get_default row "Grid_Size_X" "0") 0 in
  let gsy := safe_float (row_get_default row "Grid_Size_Y" "0") 0 in
  let gsz := safe_float (row_get_default row "Grid_Size_Z" "0") 0 in
  qx ← PyFloat.truediv gsx wsx;
  qy ← PyFloat.truediv gsy wsy;
  qz ← PyFloat.truediv gsz wsz;
  let total_workgroups := PrimFloat.mul (PrimFloat.mul qx qy) qz in
  cu_utilization ← cu_utilization_of total_workgroups num_cus;
  mret (time_us, total_workgroups, cu_utilization).

(* ===================================================================== *)
(** * Formatting *)
(* ===================================================================== *)

Module PyFormat.

(** [str(n)] for a Python [int]. *)
Definition str_of_int (n : Z) : string := NilZero.string_of_int (Z.to_int n).

Fixpoint zeros (n : nat) : string :=
  match n with
  | O => EmptyString
  | S k => String "0" (zeros k)
  end.

(** The decimal text of [q / 10^d] for an integer [q >= 0], with exactly
    [d] digits after the point (and no point when [d] is zero). *)
Definition fixed_digits (d : nat) (q : Z) : string :=
  let s := str_of_int q in
  let s := zeros (S d - String.length s) +:+ s in
  let n := (String.length s - d)%nat in
  match d with
  | O => s
  | _ => String.substring 0 n s +:+ "." +:+ String.substring n d s
  end.

(** The integer nearest to [num / den], ties to even ([den > 0]). *)
Definition round_half_even (num den : Z) : Z :=
  let q := num / den in
  match (2 * (num mod den)) ?= den with
  | Lt => q
  | Gt => q + 1
  | Eq => if Z.even q then q else q + 1
  end.

Definition sign_str (s : bool) : string := if s then "-" else EmptyString.

(** [format(x, ".<d>f")]: the exact binary value rounded to [d] decimals,
    ties to even. *)
Definition fixed (d : nat) (x : float) : string :=
  match Prim2SF x with
  | S754_nan => "nan"
  | S754_infinity s => sign_str s +:+ "inf"
  | S754_zero s => sign_str s +:+ fixed_digits d 0
  | S754_finite s m e =>
      let scale := 10 ^ Z.of_nat d in
      let q := if 0 <=? e then Z.pos m * 2 ^ e * scale
               else round_half_even (Z.pos m * scale) (2 ^ (- e)) in
      sign_str s +:+ fixed_digits d q
  end.

(** The text [csv.writer] writes for a field that is a string or [None]. *)
Definition field (v : option string) : string := or_empty v.

End PyFormat.

(* ===================================================================== *)
(** * Paths (posixpath) *)
(* ===================================================================== *)

Module PyPath.

(** [os.path.join(a, b)]. *)
Definition join (a b : string) : string :=
  if PyStr.startswith b "/" then b
  else if String.eqb a EmptyString || PyStr.endswith a "/" then a +:+ b
  else a +:+ "/" +:+ b.

(** [(p[:i], p[i:])] for [i = p.rfind("/") + 1]. *)
Fixpoint split_last_slash (p : string) : string * string :=
  match p with
  | EmptyString => (EmptyString, EmptyString)
  | String c r =>
      match split_last_slash r with
      | (EmptyString, t) =>
          if Ascii.eqb c "/" then (String c EmptyString, t)
          else (EmptyString, String c t)
      | (h, t) => (String c h, t)
      end
  end.

(** [head.rstrip("/")]. *)
Fixpoint rstrip_slash (s : string) : string :=
  match s with
  | EmptyString => EmptyString
  | String c r =>
      match rstrip_slash r with
      | EmptyString => if Ascii.eqb c "/" then EmptyString else String c EmptyString
      | r' => String c r'
      end
  end.

(** [os.path.basename(p)]. *)
Definition basename (p : string) : string := (split_last_slash p).2.

(** [os.path.dirname(p)]: the head, without its trailing slashes unless
    it consists of slashes only. *)
Definition dirname (p : string) : string :=
  let head := (split_last_slash p).1 in
  match rstrip_slash head with
  | EmptyString => head
  | stripped => stripped
  end.

End PyPath.

(* ===================================================================== *)
(** * Sorting strings *)
(* ===================================================================== *)

(** The order of [sorted] on strings: lexicographic on character codes. *)
Definition str_le (a b : string) : Prop := String.leb a b.

#[global] Instance str_le_dec : RelDecision str_le := fun a b => Is_true_dec _.

(** [sorted(l)] for a list of strings. *)
Definition sorted (l : list string) : list string := merge_sort str_le l.

(* ===================================================================== *)
(** * Trace discovery *)
(* ===================================================================== *)

(** [s] without the prefix [p], if it starts with it. *)
Fixpoint strip_prefix (p s : string) : option string :=
  match p, s with
  | EmptyString, _ => Some s
  | String a p', String b s' => if Ascii.eqb a b then strip_prefix p' s' else None
  | String _ _, EmptyString => None
  end.

(** [VARIANT_DIR_RE.match(name)] for the pattern
    [^p(?P<p>\d+)_ub(?P<ub>\d+)_b(?P<b>\d+)$]: the three groups of a match.
    Each [\d+] takes the longest run of digits (a shorter run would be
    followed by a digit, never by the literal that comes next); [$] matches
    at the end of the string and also just before a line feed that ends the
    string. *)
Definition VARIANT_DIR_RE_match (name : string) : option (string * string * string) :=
  r0 ← strip_prefix "p" name;
  let '(p, r1) := PyFloat.span_digits r0 in
  if String.eqb p EmptyString then None else
  r2 ← strip_prefix "_ub" r1;
  let '(ub, r3) := PyFloat.span_digits r2 in
  if String.eqb ub EmptyString then None else
  r4 ← strip_prefix "_b" r3;
  let '(b, r5) := PyFloat.span_digits r4 in
  if String.eqb b EmptyString then None else
  if String.eqb r5 EmptyString || String.eqb r5 (String "010" EmptyString)
  then Some (p, ub, b) else None.

(** [int(s)] for a string of decimal digits. *)
Definition int_of_digits (s : string) : Z := PyFloat.digits_value 0 s.

(** [os.listdir(path)]. *)
Definition listdir (fs : gmap string node) (path : string) : result (list string) :=
  match fs !! path with
  | Some (DirN children) => mret children
  | Some (FileN _) => raise (NotADirectoryError path)
  | None => raise (FileNotFoundError path)
  end.

(** [os.path.isdir(path)]. *)
Definition isdir (fs : gmap string node) (path : string) : bool :=
  match fs !! path with
  | Some (DirN _) => true
  | _ => false
  end.

(** What the script prints to [sys.stderr], one constructor per [print]. *)
Inductive diag :=
  | ERROR_root_not_found (root : string)
  | ERROR_failed_to_list (root : string) (e : exn)
  | WARNING_no_kernel_trace (vdir : string)
  | ERROR_failed_counting (csv_path : string) (e : exn)
  | WARNING_no_occurrences (match_substring csv_path : string)
  | ERROR_processing (csv_path : string) (e : exn)
  | ERROR_cannot_write (out_path : string) (e : exn).

(** The body of the loop of [iter_variant_dirs] for one entry: what it
    yields, if it yields. *)
Definition variant_of_entry (fs : gmap string node) (root name : string)
  : option (string * Z * Z * Z) :=
  let full := PyPath.join root name in
  if negb (isdir fs full) then None
  else
    '(p, ub, b) ← VARIANT_DIR_RE_match name;
    Some (full, int_of_digits p, int_of_digits ub, int_of_digits b).

(** [iter_variant_dirs(root)] run to exhaustion on one file system: the
    diagnostics printed and the tuples yielded. *)
Definition iter_variant_dirs (fs : gmap string node) (root : string)
  : list diag * list (string * Z * Z * Z) :=
  match listdir fs root with
  | inl (FileNotFoundError _) => ([ERROR_root_not_found root], [])
  | inl e => ([ERROR_failed_to_list root e], [])
  | inr entries => ([], omap (variant_of_entry fs root) (sorted entries))
  end.

(** The names a directory lists, none when the path is no directory. *)
Definition scandir (fs : gmap string node) (path : string) : list string :=
  match fs !! path with
  | Some (DirN children) => children
  | _ => []
  end.

(** [fnmatch] of a name against [*]: any name that does not start with a
    dot. *)
Definition glob_star (name : string) : bool :=
  negb (PyStr.startswith name ".").

(** [fnmatch] of a name against [*_kernel_trace.csv]. *)
Definition glob_kernel_trace (name : string) : bool :=
  negb (PyStr.startswith name ".") && PyStr.endswith name "_kernel_trace.csv".

(** [glob.glob(os.path.join(variant_dir, "*", "*_kernel_trace.csv"))], in
    the order of the directory listings.  The characters of [variant_dir]
    are taken literally. *)
Definition glob_kernel_traces (fs : gmap string node) (variant_dir : string) : list string :=
  sub ← filter (fun n => glob_star n) (scandir fs variant_dir);
  let d := PyPath.join variant_dir sub in
  PyPath.join d <$> filter (fun n => glob_kernel_trace n) (scandir fs d).

Definition find_csvs (fs : gmap string node) (variant_dir : string) : list string :=
  sorted (glob_kernel_traces fs variant_dir).

(** [groups.setdefault(subdir, []).append(path)] on a dict kept in insertion
    order. *)
Fixpoint setdefault_append (groups : list (string * list string))
    (subdir path : string) : list (string * list string) :=
  match groups with
  | [] => [(subdir, [path])]
  | (k, v) :: rest =>
      if String.eqb k subdir then (k, v ++ [path]) :: rest
      else (k, v) :: setdefault_append rest subdir path
  end.

Definition group_csvs_by_subdir (csv_paths : list string) : list (string * list string) :=
  foldl (fun groups path => setdefault_append groups (PyPath.dirname path) path)
        [] csv_paths.

(* ===================================================================== *)
(** * Aggregate writer *)
(* ===================================================================== *)

(** The command line: [--root], [--cus], [--match-substring]. *)
Record config := Config {
  root : string;
  num_cus : Z;
  match_substring : string
}.

(** The state the script acts on: the file system, what it has printed to
    [sys.stderr], and the output files it has written so far (path and
    records, in the order they were closed). *)
Record world := World {
  w_fs : gmap string node;
  w_stderr : list diag;
  w_written : list (string * list record)
}.

(** [open(path, "w")]: the file is created in its directory, or truncated. *)
Definition open_write (fs : gmap string node) (path : string)
  : result (gmap string node) :=
  match fs !! path with
  | Some (DirN _) => raise (IsADirectoryError path)
  | _ =>
      let parent := PyPath.dirname path in
      let name := PyPath.basename path in
      match fs !! parent with
      | Some (DirN children) =>
          let children' :=
            if bool_decide (name ∈ children) then children else children ++ [name] in
          mret (<[path := FileN []]> (<[parent := DirN children']> fs))
      | Some (FileN _) => raise (NotADirectoryError path)
      | None => raise (FileNotFoundError path)
      end
  end.

(** The header row of every output file. *)
Definition header : record :=
  [ "variant_dir"; "p"; "ub"; "b"; "csv_path";
    "Dispatch_Id"; "Kernel_Id"; "Kernel_Name";
    "Start_Timestamp"; "End_Timestamp"; "time_us";
    "Workgroup_Size_X"; "Workgroup_Size_Y"; "Workgroup_Size_Z";
    "Grid_Size_X"; "Grid_Size_Y"; "Grid_Size_Z";
    "Total_Workgroups"; "CU_Utilization_pct" ].

(** The record written for one row of the window. *)
Definition output_row (vdir : string) (p ub b : Z) (csv_path : string)
    (row : Row) (m : float * float * float) : record :=
  let '(time_us, total_wg, cu_util_pct) := m in
  [ vdir; PyFormat.str_of_int p; PyFormat.str_of_int ub; PyFormat.str_of_int b;
    csv_path;
    PyFormat.field (row_get_default row "Dispatch_Id" EmptyString);
    PyFormat.field (row_get_default row "Kernel_Id" EmptyString);
    PyFormat.field (row_get_default row "Kernel_Name" EmptyString);
    PyFormat.field (row_get_default row "Start_Timestamp" EmptyString);
    PyFormat.field (row_get_default row "End_Timestamp" EmptyString);
    PyFormat.fixed 3 time_us;
    PyFormat.field (row_get_default row "Workgroup_Size_X" EmptyString);
    PyFormat.field (row_get_default row "Workgroup_Size_Y" EmptyString);
    PyFormat.field (row_get_default row "Workgroup_Size_Z" EmptyString);
    PyFormat.field (row_get_default row "Grid_Size_X" EmptyString);
    PyFormat.field (row_get_default row "Grid_Size_Y" EmptyString);
    PyFormat.field (row_get_default row "Grid_Size_Z" EmptyString);
    PyFormat.fixed 6 total_wg;
    PyFormat.fixed 2 cu_util_pct ].

(** [for row in rows_iter: ... out_writer.writerow(...)]: the records
    written, and the exception that ended the loop, if one did.  The records
    written before an exception stay written. *)
Fixpoint write_rows (cfg : config) (vdir : string) (p ub b : Z)
    (csv_path : string) (rows : list Row) : list record * option exn :=
  match rows with
  | [] => ([], None)
  | row :: rest =>
      match compute_metrics row (num_cus cfg) with
      | inl e => ([], Some e)
      | inr m =>
          let '(recs, e) := write_rows cfg vdir p ub b csv_path rest in
          (output_row vdir p ub b csv_path row m :: recs, e)
      end
  end.

(** The body of [for csv_path in files]: the records appended to the output
    file and the diagnostics printed. *)
Definition main_file (cfg : config) (fs : gmap string node)
    (vdir : string) (p ub b : Z) (csv_path : string)
  : list record * list diag :=
  match count_occurrences fs csv_path "Kernel_Name" (match_substring cfg) with
  | inl e => ([], [ERROR_failed_counting csv_path e])
  | inr total_occ =>
      if total_occ =? 0
      then ([], [WARNING_no_occurrences (match_substring cfg) csv_path])
      else
        let start_occ_0 := total_occ / 2 in
        match process_rows_from_half fs csv_path start_occ_0
                "Kernel_Name" (match_substring cfg) with
        | inl e => ([], [ERROR_processing csv_path e])
        | inr rows =>
            match write_rows cfg vdir p ub b csv_path rows with
            | (recs, None) => (recs, [])
            | (recs, Some e) => (recs, [ERROR_processing csv_path e])
            end
        end
  end.

(** The records of one output file: the header, then what every file of the
    group contributes, in the order of the group. *)
Definition group_records (cfg : config) (fs : gmap string node)
    (vdir : string) (p ub b : Z) (files : list string)
  : list record * list diag :=
  foldl (fun acc csv_path =>
           let '(recs, diags) := main_file cfg fs vdir p ub b csv_path in
           (acc.1 ++ recs, acc.2 ++ diags))
        ([header], []) files.

(** The body of [for subdir, files in groups.items()]. *)
Definition main_group (cfg : config) (vdir : string) (p ub b : Z)
    (variant_name : string) (w : world) (g : string * list string) : world :=
  let '(subdir, files) := g in
  let out_path := PyPath.join subdir (variant_name +:+ ".csv") in
  match open_write (w_fs w) out_path with
  | inl e =>
      {| w_fs := w_fs w;
         w_stderr := w_stderr w ++ [ERROR_cannot_write out_path e];
         w_written := w_written w |}
  | inr fs1 =>
      let '(recs, diags) := group_records cfg fs1 vdir p ub b files in
      {| w_fs := <[out_path := FileN recs]> fs1;
         w_stderr := w_stderr w ++ diags;
         w_written := w_written w ++ [(out_path, recs)] |}
  end.

(** The body of [for vdir, p, ub, b in iter_variant_dirs(root)]. *)
Definition main_variant (cfg : config) (w : world) (v : string * Z * Z * Z) : world :=
  let '(vdir, p, ub, b) := v in
  match find_csvs (w_fs w) vdir with
  | [] =>
      {| w_fs := w_fs w;
         w_stderr := w_stderr w ++ [WARNING_no_kernel_trace vdir];
         w_written := w_written w |}
  | csv_paths =>
      let groups := group_csvs_by_subdir csv_paths in
      let variant_name := PyPath.basename vdir in
      foldl (main_group cfg vdir p ub b variant_name) w groups
  end.

(** [main]: the generator [iter_variant_dirs] lists the root once, then
    tests and yields one entry at a time, between the turns of the loop
    body, so each [isdir] sees the file system the earlier turns left. *)
Definition main (cfg : config) (w : world) : world :=
  match listdir (w_fs w) (root cfg) with
  | inl (FileNotFoundError _) =>
      {| w_fs := w_fs w;
         w_stderr := w_stderr w ++ [ERROR_root_not_found (root cfg)];
         w_written := w_written w |}
  | inl e =>
      {| w_fs := w_fs w;
         w_stderr := w_stderr w ++ [ERROR_failed_to_list (root cfg) e];
         w_written := w_written w |}
  | inr entries =>
      foldl (fun w name =>
               match variant_of_entry (w_fs w) (root cfg) name with
               | Some v => main_variant cfg w v
               | None => w
               end)
            w (sorted entries)
  end.

(** A run of the script from a file system: nothing printed or written
    yet. *)
Definition run (cfg : config) (fs : gmap string node) : world :=
  main cfg {| w_fs := fs; w_stderr := []; w_written := [] |}.

(* ===================================================================== *)
(** * The design document's wording, for comparison *)
(* ===================================================================== *)

(** The inspected field is named by the file's header. *)
Definition field_in_header (kernel_col : string) (recs : list record) : bool :=
  match DictReader_fieldnames recs with
  | Some names => bool_decide (kernel_col ∈ names)
  | None => false
  end.

(** The match of the Occurrence Counter as the design document words it:
    the field value contains the marker, and an empty or missing value is
    no match. *)
Definition spec_field_matches (kernel_col marker : string) (row : Row) : bool :=
  match row_get row kernel_col with
  | Some v => negb (String.eqb v EmptyString) && PyStr.contains marker v
  | None => false
  end.

(** The Occurrence Counter as the design document words it: the number of
    matching rows, and a schema error (the code's [KeyError]) when the field
    is absent from the header. *)
Definition spec_count_occurrences (csv_path : string) (recs : list record)
    (kernel_col marker : string) : result Z :=
  if field_in_header kernel_col recs
  then mret (Z.of_nat (length (filter (fun r => spec_field_matches kernel_col marker r = true)
                                      (DictReader_rows recs))))
  else raise (KeyError kernel_col csv_path (DictReader_fieldnames recs)).

(** A binary64 value that is a zero, positive or plus infinity: the values
    [x] with [0 <= x]. *)
Definition SF_nonneg (x : spec_float) : Prop :=
  match x with
  | S754_zero _ => True
  | S754_infinity s => s = false
  | S754_finite s _ _ => s = false
  | S754_nan => False
  end.

(** A binary64 value that is positive and finite. *)
Definition SF_pos_finite (x : spec_float) : Prop :=
  match x with
  | S754_finite s _ _ => s = false
  | _ => False
  end.

(** The divisor the design document describes for a workgroup-size
    dimension [w]: [w] where it is at least 1, and 1 where it is below. *)
Definition floored_at_1 (w d : float) : Prop :=
  PrimFloat.leb 1 d = true /\
  (PrimFloat.leb 1 w = true -> d = w) /\
  (PrimFloat.ltb w 1 = true -> d = 1%float).

(** The number [compute_metrics] reads from a field of a row. *)
Definition field_value (row : Row) (key : string) : float :=
  safe_float (row_get_default row key "0") 0.

(** The execution time as the module docstring words it:
    [(End_Timestamp - Start_Timestamp) / 1000]. *)
Definition spec_time_us (row : Row) : float :=
  PrimFloat.div
    (PrimFloat.sub (field_value row "End_Timestamp") (field_value row "Start_Timestamp"))
    1000.

(** The workgroup count as the module docstring words it, each workgroup
    size raised to 1 where it is below:
    [(Grid_Size_X / Workgroup_Size_X) * (Grid_Size_Y / Workgroup_Size_Y) *
     (Grid_Size_Z / Workgroup_Size_Z)]. *)
Definition spec_total_workgroups (row : Row) : float :=
  PrimFloat.mul
    (PrimFloat.mul
       (PrimFloat.div (field_value row "Grid_Size_X")
          (PyFloat.max (field_value row "Workgroup_Size_X") 1))
       (PrimFloat.div (field_value row "Grid_Size_Y")
          (PyFloat.max (field_value row "Workgroup_Size_Y") 1)))
    (PrimFloat.div (field_value row "Grid_Size_Z")
       (PyFloat.max (field_value row "Workgroup_Size_Z") 1)).

(** The utilisation as the module docstring words it:
    [min(Total_Workgroups / Number_of_CUs, 1.0) * 100]. *)
Definition spec_cu_utilization (total_workgroups cus : float) : float :=
  PrimFloat.mul (PyFloat.min (PrimFloat.div total_workgroups cus) 1) 100.

(** A string of decimal digits only. *)
Fixpoint all_digits (s : string) : bool :=
  match s with
  | EmptyString => true
  | String c r => PyFloat.is_digit c && all_digits r
  end.

(** A string starts with a digit. *)
Definition starts_with_digit (s : string) : bool :=
  match s with
  | String c _ => PyFloat.is_digit c
  | EmptyString => false
  end.

(** One or more decimal digits. *)
Definition digits1 (s : string) : Prop :=
  s <> EmptyString /\ all_digits s = true.

(** The directory name of the naming contract, [p<P>_ub<UB>_b<B>]. *)
Definition variant_name_of (p ub b : string) : string :=
  "p" +:+ p +:+ "_ub" +:+ ub +:+ "_b" +:+ b.

(** The single line feed. *)
Definition LF : string := String "010" EmptyString.

(* ===================================================================== *)
(** * Concrete traces and file systems *)
(* ===================================================================== *)

Module Examples.

Definition trace_header : record :=
  [ "Dispatch_Id"; "Kernel_Id"; "Kernel_Name"; "Start_Timestamp";
    "End_Timestamp"; "Workgroup_Size_X"; "Workgroup_Size_Y";
    "Workgroup_Size_Z"; "Grid_Size_X"; "Grid_Size_Y"; "Grid_Size_Z" ].

(** A dispatch of the named kernel: 4 microseconds, workgroup sizes 0,
    grid 256 x 1 x 1. *)
Definition dispatch (id kernel : string) : record :=
  [ id; "7"; kernel; "1000"; "5000"; "0"; "0"; "0"; "256"; "1"; "1" ].

(** Ten rows with the marker in rows 2, 5 and 9, and a blank line. *)
Definition trace : list record :=
  [ trace_header;
    dispatch "1" "copy"; dispatch "2" "rms_norm_f32_a"; dispatch "3" "mul_mat";
    []; dispatch "4" "rope"; dispatch "5" "k_rms_norm_f32"; dispatch "6" "mul_mat";
    dispatch "7" "soft_max"; dispatch "8" "rope"; dispatch "9" "rms_norm_f32";
    dispatch "10" "copy" ].

(** A trace without the marker. *)
Definition trace_no_marker : list record :=
  [ trace_header; dispatch "1" "copy"; dispatch "2" "mul_mat" ].

(** A trace whose header lacks the kernel-name column. *)
Definition trace_no_column : list record :=
  [ ["Dispatch_Id"; "Kernel_Id"]; ["1"; "7"] ].

(** A trace with a row whose kernel name is empty. *)
Definition trace_empty_name : list record :=
  [ ["Kernel_Name"; "Dispatch_Id"]; [EmptyString; "1"] ].

Definition fs : gmap string node :=
  list_to_map
    [ ("/prof", DirN ["p2048_ub512_b512"; "notes.txt"; "p4096_ub512_b512"]);
      ("/prof/notes.txt", FileN []);
      ("/prof/p2048_ub512_b512", DirN ["bel-phx4"]);
      ("/prof/p4096_ub512_b512", DirN []);
      ("/prof/p2048_ub512_b512/bel-phx4",
         DirN ["16880_kernel_trace.csv"; "16881_kernel_trace.csv";
               "16882_kernel_trace.csv"; "16883_kernel_trace.csv"]);
      ("/prof/p2048_ub512_b512/bel-phx4/16880_kernel_trace.csv", FileN trace);
      ("/prof/p2048_ub512_b512/bel-phx4/16881_kernel_trace.csv", FileN trace_no_marker);
      ("/prof/p2048_ub512_b512/bel-phx4/16882_kernel_trace.csv", FileN trace_no_column);
      ("/prof/p2048_ub512_b512/bel-phx4/16883_kernel_trace.csv", FileN trace_empty_name) ].

Definition trace_path : string :=
  "/prof/p2048_ub512_b512/bel-phx4/16880_kernel_trace.csv".
Definition trace_no_marker_path : string :=
  "/prof/p2048_ub512_b512/bel-phx4/16881_kernel_trace.csv".
Definition trace_no_column_path : string :=
  "/prof/p2048_ub512_b512/bel-phx4/16882_kernel_trace.csv".
Definition trace_empty_name_path : string :=
  "/prof/p2048_ub512_b512/bel-phx4/16883_kernel_trace.csv".

Definition cfg : config :=
  {| root := "/prof"; num_cus := 100; match_substring := "rms_norm_f32" |}.

Definition world0 : world :=
  {| w_fs := fs; w_stderr := []; w_written := [] |}.

(** The row of the fifth dispatch of [trace]. *)
Definition row5 : Row := dict_row trace_header (dispatch "5" "k_rms_norm_f32").

(** The group of the variant [p2048_ub512_b512] under [bel-phx4]. *)
Definition group : string * list string :=
  ("/prof/p2048_ub512_b512/bel-phx4",
   [trace_path; trace_no_marker_path; trace_no_column_path; trace_empty_name_path]).

Definition out_path : string :=
  "/prof/p2048_ub512_b512/bel-phx4/p2048_ub512_b512.csv".

(** A directory name that is a variant name followed by a line feed. *)
Definition newline_name : string :=
  "p1_ub2_b3" +:+ String "010" EmptyString.

Definition fs_newline : gmap string node :=
  list_to_map
    [ ("/prof", DirN [newline_name; "p1_ub2_b3"]);
      ("/prof/p1_ub2_b3", DirN []);
      ("/prof/" +:+ newline_name, DirN []) ].

End Examples.

(* ===================================================================== *)
(** * Vocabulary of the statements on the aggregate writer *)
(* ===================================================================== *)

(** The record the writer loop writes for one row of the window: the
    metrics of the row are computed, and the record is built from them. *)
Definition written_for (cfg : config) (vdir : string) (p ub b : Z)
    (csv_path : string) (rec : record) (row : Row) : Prop :=
  exists m, compute_metrics row (num_cus cfg) = inr m /\
            rec = output_row vdir p ub b csv_path row m.


(* ===================================================================== *)
(** * Vocabulary of the statements on grouping *)
(* ===================================================================== *)

(** The distinct elements of a list, each at the place of its first
    occurrence: the order in which a dict receives its keys. *)
Fixpoint first_occurrences (l : list string) : list string :=
  match l with
  | [] => []
  | x :: rest => x :: filter (fun y => y <> x) (first_occurrences rest)
  end.

(** The paths of a list that lie in one directory, in the order of the
    list. *)
Definition paths_in (subdir : string) (csv_paths : list string) : list string :=
  filter (fun path => PyPath.dirname path = subdir) csv_paths.


(** [glob.has_magic]: the path holds one of the characters a glob pattern
    gives a meaning to.  The model of [glob.glob] above takes the variant
    directory literally, which is what [glob] does for a path without
    them. *)
Definition glob_magic (path : string) : bool :=
  PyStr.has_char "*" path || PyStr.has_char "?" path || PyStr.has_char "[" path.

(* ===================================================================== *)
(** * The profiling driver ([scripts/run_prof_variants.py]) *)
(* ===================================================================== *)

Module RunProfVariants.

Definition P_VALUES : list Z := [2048; 4096; 8192].
Definition UB_B_VALUES : list Z := [2048; 4096; 8192].

Definition BASE_DIR : string := "./prof_dir".
Definition BIN : string := "./build/bin/llama-bench".
Definition MODEL : string := "./models/Llama-3.1-8B-Instruct-BF16.gguf".

(** [os.path.join(BASE_DIR, f"{RUN_TS}/p{p}_ub{ub}_b{b}")].  [RUN_TS] is
    the text of the time stamp taken when the module is loaded. *)
Definition out_dir (RUN_TS : string) (p ub b : Z) : string :=
  PyPath.join BASE_DIR
    (RUN_TS +:+ "/p" +:+ PyFormat.str_of_int p +:+
     "_ub" +:+ PyFormat.str_of_int ub +:+ "_b" +:+ PyFormat.str_of_int b).

(** The command line of one run. *)
Definition cmd (RUN_TS : string) (p ub b : Z) : string :=
  "rocprofv3 --output-format csv --sys-trace -d " +:+ out_dir RUN_TS p ub b +:+
  " -- " +:+ BIN +:+ " -m " +:+ MODEL +:+ " -r 1 -n 0 -p " +:+
  PyFormat.str_of_int p +:+ " -ub " +:+ PyFormat.str_of_int ub +:+
  " -b " +:+ PyFormat.str_of_int b +:+
  " | tee " +:+ out_dir RUN_TS p ub b +:+ "/log.txt".

(** [run_combo(p, ub, b)]: the directory it makes and the command it hands
    to the shell.  What the command does, and what is printed, is outside
    the model. *)
Definition run_combo (RUN_TS : string) (p ub b : Z) : string * string :=
  (out_dir RUN_TS p ub b, cmd RUN_TS p ub b).

(** The condition of the [continue] in the loop of [main]:
    [b > p or ub > p or ub > b or ub != p or b != ub]. *)
Definition skipped (p ub b : Z) : bool :=
  (p <? b) || (p <? ub) || (b <? ub) || negb (ub =? p) || negb (b =? ub).

(** [itertools.product(P_VALUES, UB_B_VALUES, UB_B_VALUES)]. *)
Definition product : list (Z * Z * Z) :=
  p ← P_VALUES; ub ← UB_B_VALUES; b ← UB_B_VALUES; [(p, ub, b)].

(** [main]: the runs it makes, in order.  The three flags are the results
    of the checks it starts with: the binary exists, the model exists,
    [rocprofv3] is on the path. *)
Definition main (bin_exists model_exists rocprofv3_found : bool)
    (RUN_TS : string) : list (string * string) :=
  if negb bin_exists then []
  else if negb model_exists then []
  else if negb rocprofv3_found then []
  else
    (fun c : Z * Z * Z => run_combo RUN_TS c.1.1 c.1.2 c.2)
      <$> filter (fun c : Z * Z * Z => skipped c.1.1 c.1.2 c.2 = false) product.

End RunProfVariants.

(* ===================================================================== *)
(** * Properties of the counter and of the half-window selector *)
(* ===================================================================== *)

Section HalfWindow.

Variables (kernel_col marker : string).

Abbreviation occ := (is_occurrence kernel_col marker).
Abbreviation count := (count_loop kernel_col marker).

Lemma count_loop_nil k : count k [] = k.
Proof. reflexivity. Qed.

Lemma count_loop_cons k row rows :
  count k (row :: rows) = count (if occ row then k + 1 else k) rows.
Proof. reflexivity. Qed.

Lemma count_loop_acc k rows : count k rows = k + count 0 rows.
Proof.
  revert k. induction rows as [|row rows IH]; intros k.
  - rewrite !count_loop_nil. lia.
  - rewrite !count_loop_cons. rewrite (IH (if occ row then k + 1 else k)).
    rewrite (IH (if occ row then 0 + 1 else 0)).
    destruct (occ row); lia.
Qed.

Lemma count_loop_app k l1 l2 : count k (l1 ++ l2) = count (count k l1) l2.
Proof. unfold count_loop. apply foldl_app. Qed.

Lemma count_loop_nonneg rows : 0 <= count 0 rows.
Proof.
  induction rows as [|row rows IH].
  - rewrite count_loop_nil. lia.
  - rewrite count_loop_cons, count_loop_acc. destruct (occ row); lia.
Qed.

(** The counter counts the rows that are occurrences. *)
Lemma count_loop_filter rows :
  count 0 rows = Z.of_nat (length (filter (fun r => occ r = true) rows)).
Proof.
  induction rows as [|row rows IH].
  - reflexivity.
  - rewrite count_loop_cons, count_loop_acc, IH.
    rewrite filter_cons. destruct (occ row) eqn:E.
    + rewrite decide_True by reflexivity. cbn [length]. lia.
    + rewrite decide_False by discriminate. lia.
Qed.

Variable (S : Z).

Abbreviation loop := (half_loop S kernel_col marker).

(** Once started, the generator yields every remaining row. *)
Lemma half_loop_started k rows :
  loop {| occ_index := k; started := true |} rows
  = ({| occ_index := count k rows; started := true |}, rows).
Proof.
  revert k. induction rows as [|row rows IH]; intros k.
  - reflexivity.
  - cbn [half_loop half_step]. rewrite count_loop_cons.
    destruct (occ row); cbn [started occ_index].
    + destruct (k =? S); cbn [started]; rewrite IH; reflexivity.
    + rewrite IH. reflexivity.
Qed.

(** The generator's occurrence index ends at the number of occurrences it
    has seen, whatever the start index. *)
Lemma half_loop_occ_index st rows :
  occ_index (loop st rows).1 = count (occ_index st) rows.
Proof.
  revert st. induction rows as [|row rows IH]; intros st.
  - reflexivity.
  - cbn [half_loop half_step]. rewrite count_loop_cons.
    match goal with |- context [loop ?st1 rows] =>
      specialize (IH st1); destruct (loop st1 rows) as [st2 ys] end.
    cbn [fst] in *. rewrite IH. destruct (occ row); reflexivity.
Qed.

(** Before the start occurrence nothing is yielded; from it on, every row. *)
Lemma half_loop_window k pre r post :
  k <= S -> count k pre = S -> occ r = true ->
  (loop {| occ_index := k; started := false |} (pre ++ r :: post)).2 = r :: post.
Proof.
  revert k. induction pre as [|row pre IH]; intros k Hk Hc Hr.
  - rewrite count_loop_nil in Hc. subst k. cbn [app half_loop half_step].
    rewrite Hr. cbn [occ_index started]. rewrite Z.eqb_refl. cbn [started].
    rewrite half_loop_started. reflexivity.
  - rewrite count_loop_cons in Hc. cbn [app half_loop half_step].
    destruct (occ row) eqn:E; cbn [occ_index started].
    + assert (k <> S).
      { intros ->. rewrite count_loop_acc in Hc.
        pose proof (count_loop_nonneg pre). lia. }
      rewrite (proj2 (Z.eqb_neq k S)) by assumption. cbn [started].
      assert (k + 1 <= S) by lia.
      specialize (IH (k + 1) ltac:(assumption) Hc Hr).
      destruct (loop _ (pre ++ r :: post)) as [st2 ys]. exact IH.
    + specialize (IH k Hk Hc Hr).
      destruct (loop _ (pre ++ r :: post)) as [st2 ys]. exact IH.
Qed.

(** A start index that no occurrence reaches yields nothing. *)
Lemma half_loop_none k rows :
  S < k \/ count k rows <= S ->
  (loop {| occ_index := k; started := false |} rows).2 = [].
Proof.
  revert k. induction rows as [|row rows IH]; intros k Hk.
  - reflexivity.
  - rewrite count_loop_cons in Hk. cbn [half_loop half_step].
    destruct (occ row) eqn:E; cbn [occ_index started].
    + assert (k <> S).
      { intros ->. destruct Hk as [Hk|Hk]; [lia|].
        rewrite count_loop_acc in Hk.
        pose proof (count_loop_nonneg rows). lia. }
      rewrite (proj2 (Z.eqb_neq k S)) by assumption. cbn [started].
      assert (S < k + 1 \/ count (k + 1) rows <= S) as H1.
      { destruct Hk; [left; lia | right; assumption]. }
      specialize (IH (k + 1) H1).
      destruct (loop _ rows) as [st2 ys]. exact IH.
    + specialize (IH k Hk).
      destruct (loop _ rows) as [st2 ys]. exact IH.
Qed.

(** What the generator yields is a suffix of the rows it read. *)
Lemma half_loop_suffix st rows : (loop st rows).2 `suffix_of` rows.
Proof.
  revert st. induction rows as [|row rows IH]; intros st.
  - exists []. reflexivity.
  - destruct (started st) eqn:Hs.
    + destruct st as [k s]. cbn in Hs. subst s.
      rewrite half_loop_started. exists []. reflexivity.
    + cbn [half_loop].
      destruct (half_step S kernel_col marker st row) as [st1 y] eqn:Hstep.
      specialize (IH st1).
      destruct (loop st1 rows) as [st2 ys] eqn:Hl. cbn [snd] in *.
      unfold half_step in Hstep. injection Hstep as Hst1 Hy.
      rewrite Hst1 in Hy. destruct y as [r|].
      * destruct (started st1) eqn:Hs1; [|discriminate].
        injection Hy as ->.
        destruct st1 as [k1 s1]. cbn in Hs1. subst s1.
        rewrite half_loop_started in Hl. injection Hl as _ <-.
        exists []. reflexivity.
      * destruct IH as [k0 ->]. exists (row :: k0). reflexivity.
Qed.

(** An occurrence index below the count is reached by some row. *)
Lemma count_loop_split k rows :
  k <= S < count k rows ->
  exists pre r post,
    rows = pre ++ r :: post /\ occ r = true /\ count k pre = S.
Proof.
  revert k. induction rows as [|row rows IH]; intros k Hk.
  - rewrite count_loop_nil in Hk. lia.
  - rewrite count_loop_cons in Hk. destruct (occ row) eqn:E.
    + destruct (decide (k = S)) as [->|Hne].
      * exists [], row, rows. repeat split; assumption.
      * destruct (IH (k + 1) ltac:(lia)) as (pre & r & post & -> & Hr & Hc).
        exists (row :: pre), r, post. repeat split; try assumption.
        rewrite count_loop_cons, E. exact Hc.
    + destruct (IH k Hk) as (pre & r & post & -> & Hr & Hc).
      exists (row :: pre), r, post. repeat split; try assumption.
      rewrite count_loop_cons, E. exact Hc.
Qed.

End HalfWindow.

(* ===================================================================== *)
(** * The half-window selector on a file *)
(* ===================================================================== *)

(** C5: for every trace file, marker and zero-based start index S, the
    selector yields exactly the rows of the file from the row where the S-th
    occurrence of the marker is observed, that row included, to the end of
    the file, in the order of the file. *)
Theorem process_rows_from_half_window
    (fs : gmap string node) (csv_path : string) (recs : list record)
    (S : Z) (kernel_col marker : string) (pre : list Row) (r : Row) (post : list Row) :
  open_read fs csv_path = inr recs ->
  DictReader_rows recs = pre ++ r :: post ->
  is_occurrence kernel_col marker r = true ->
  count_loop kernel_col marker 0 pre = S ->
  process_rows_from_half fs csv_path S kernel_col marker = inr (r :: post).
Proof.
  intros Hopen Hrows Hr Hc.
  unfold process_rows_from_half, process_rows_from_half_run.
  rewrite Hopen. cbn. rewrite Hrows. f_equal.
  apply half_loop_window; try assumption.
  rewrite <- Hc. apply count_loop_nonneg.
Qed.

Lemma process_rows_from_half_window_witness :
  process_rows_from_half Examples.fs Examples.trace_path 1
    "Kernel_Name" "rms_norm_f32"
  = inr (drop 4 (DictReader_rows Examples.trace)).
Proof.
  apply (process_rows_from_half_window Examples.fs Examples.trace_path
           Examples.trace 1 "Kernel_Name" "rms_norm_f32"
           (take 4 (DictReader_rows Examples.trace))).
  - reflexivity.
  - reflexivity.
  - vm_compute. reflexivity.
  - vm_compute. reflexivity.
Defined.

(** C10: with a start index at or past the number of occurrences the
    selector yields no row and raises nothing; so does a file without any
    occurrence, whatever the non-negative start index. *)
Theorem process_rows_from_half_past_end
    (fs : gmap string node) (csv_path : string) (recs : list record)
    (S : Z) (kernel_col marker : string) :
  open_read fs csv_path = inr recs ->
  count_loop kernel_col marker 0 (DictReader_rows recs) <= S ->
  process_rows_from_half fs csv_path S kernel_col marker = inr [].
Proof.
  intros Hopen Hc.
  unfold process_rows_from_half, process_rows_from_half_run.
  rewrite Hopen. cbn. f_equal.
  apply half_loop_none. right. exact Hc.
Qed.

Lemma process_rows_from_half_past_end_witness :
  process_rows_from_half Examples.fs Examples.trace_no_marker_path 0
    "Kernel_Name" "rms_norm_f32" = inr [].
Proof.
  apply (process_rows_from_half_past_end Examples.fs
           Examples.trace_no_marker_path Examples.trace_no_marker).
  - reflexivity.
  - vm_compute. discriminate.
Defined.

(** C7: where the counter succeeds on a file, the selector's own pass over
    the file ends with the same number of occurrences seen, whatever the
    start index, and the rows it yields are rows of the file as read,
    unchanged and in order (a suffix of the reader's rows). *)
Theorem count_and_window_agree
    (fs : gmap string node) (csv_path : string) (S N : Z)
    (kernel_col marker : string) :
  count_occurrences fs csv_path kernel_col marker = inr N ->
  exists recs st ys,
    open_read fs csv_path = inr recs /\
    process_rows_from_half_run fs csv_path S kernel_col marker = inr (st, ys) /\
    occ_index st = N /\
    ys `suffix_of` DictReader_rows recs.
Proof.
  unfold count_occurrences, process_rows_from_half_run.
  destruct (open_read fs csv_path) as [e|recs]; cbn; [discriminate|].
  destruct (header_lacks _ _); [discriminate|].
  intros [= <-].
  destruct (half_loop S kernel_col marker half_init (DictReader_rows recs))
    as [st ys] eqn:Hl.
  exists recs, st, ys. repeat split.
  - pose proof (half_loop_occ_index kernel_col marker S half_init
                  (DictReader_rows recs)) as H.
    rewrite Hl in H. exact H.
  - pose proof (half_loop_suffix kernel_col marker S half_init
                  (DictReader_rows recs)) as H.
    rewrite Hl in H. exact H.
Qed.

Lemma count_and_window_agree_witness :
  exists recs st ys,
    open_read Examples.fs Examples.trace_path = inr recs /\
    process_rows_from_half_run Examples.fs Examples.trace_path 1
      "Kernel_Name" "rms_norm_f32" = inr (st, ys) /\
    occ_index st = 3 /\
    ys `suffix_of` DictReader_rows recs.
Proof.
  apply (count_and_window_agree Examples.fs Examples.trace_path 1 3).
  vm_compute. reflexivity.
Defined.

(* ===================================================================== *)
(** * The counter on a file *)
(* ===================================================================== *)

Lemma count_occurrences_inr fs csv_path kernel_col marker N :
  count_occurrences fs csv_path kernel_col marker = inr N ->
  exists recs,
    open_read fs csv_path = inr recs /\
    header_lacks kernel_col (DictReader_fieldnames recs) = false /\
    N = count_loop kernel_col marker 0 (DictReader_rows recs).
Proof.
  unfold count_occurrences.
  destruct (open_read fs csv_path) as [e|recs]; cbn; [discriminate|].
  destruct (header_lacks _ _) eqn:H; [discriminate|].
  intros [= <-]. exists recs. split; [reflexivity|]. split; [exact H|reflexivity].
Qed.

Lemma header_lacks_field_in_header kernel_col recs :
  header_lacks kernel_col (DictReader_fieldnames recs)
  = negb (field_in_header kernel_col recs).
Proof.
  unfold field_in_header.
  destruct (DictReader_fieldnames recs) as [[|n names]|]; reflexivity.
Qed.

Lemma window_of_count fs csv_path recs S kernel_col marker :
  open_read fs csv_path = inr recs ->
  0 <= S < count_loop kernel_col marker 0 (DictReader_rows recs) ->
  exists pre r post,
    DictReader_rows recs = pre ++ r :: post /\
    is_occurrence kernel_col marker r = true /\
    count_loop kernel_col marker 0 pre = S /\
    process_rows_from_half fs csv_path S kernel_col marker = inr (r :: post).
Proof.
  intros Hopen HS.
  destruct (count_loop_split kernel_col marker S 0 _ HS)
    as (pre & r & post & Hrows & Hr & Hc).
  exists pre, r, post. repeat split; try assumption.
  unfold process_rows_from_half, process_rows_from_half_run.
  rewrite Hopen. cbn. rewrite Hrows. f_equal.
  apply half_loop_window; [lia | assumption | assumption].
Qed.

(** C1: for a file with N occurrences of the marker, the aggregate step
    takes its window from the row of the occurrence with zero-based index
    N // 2; with N = 0 it writes no record for the file and prints the
    warning that names the file. *)
Theorem main_file_window_start
    (cfg : config) (fs : gmap string node) (vdir : string) (p ub b : Z)
    (csv_path : string) (N : Z) :
  count_occurrences fs csv_path "Kernel_Name" (match_substring cfg) = inr N ->
  0 <= N /\
  (N = 0 ->
     main_file cfg fs vdir p ub b csv_path
     = ([], [WARNING_no_occurrences (match_substring cfg) csv_path])) /\
  (N <> 0 ->
     exists recs pre r post,
       open_read fs csv_path = inr recs /\
       DictReader_rows recs = pre ++ r :: post /\
       is_occurrence "Kernel_Name" (match_substring cfg) r = true /\
       count_loop "Kernel_Name" (match_substring cfg) 0 pre = N / 2 /\
       main_file cfg fs vdir p ub b csv_path
       = match write_rows cfg vdir p ub b csv_path (r :: post) with
         | (out, None) => (out, [])
         | (out, Some e) => (out, [ERROR_processing csv_path e])
         end).
Proof.
  intros Hcount.
  destruct (count_occurrences_inr _ _ _ _ _ Hcount) as (recs & Hopen & _ & HN).
  assert (0 <= N) as Hnn by (subst N; apply count_loop_nonneg).
  split; [exact Hnn|]. split.
  - intros ->. unfold main_file. rewrite Hcount. reflexivity.
  - intros Hne. unfold main_file. rewrite Hcount.
    rewrite (proj2 (Z.eqb_neq N 0)) by assumption.
    assert (0 <= N / 2 <
            count_loop "Kernel_Name" (match_substring cfg) 0 (DictReader_rows recs))
      as Hhalf.
    { rewrite <- HN. split; [apply Z.div_pos; lia | apply Z.div_lt; lia]. }
    destruct (window_of_count fs csv_path recs (N / 2) "Kernel_Name"
                (match_substring cfg) Hopen Hhalf)
      as (pre & r & post & Hrows & Hr & Hc & Hwin).
    exists recs, pre, r, post. repeat split; try assumption.
    rewrite Hwin. reflexivity.
Qed.

Lemma main_file_window_start_witness :
  0 <= 3 /\
  (3 = 0 ->
     main_file Examples.cfg Examples.fs "/prof/p2048_ub512_b512" 2048 512 512
       Examples.trace_path
     = ([], [WARNING_no_occurrences "rms_norm_f32" Examples.trace_path])) /\
  (3 <> 0 ->
     exists recs pre r post,
       open_read Examples.fs Examples.trace_path = inr recs /\
       DictReader_rows recs = pre ++ r :: post /\
       is_occurrence "Kernel_Name" "rms_norm_f32" r = true /\
       count_loop "Kernel_Name" "rms_norm_f32" 0 pre = 3 / 2 /\
       main_file Examples.cfg Examples.fs "/prof/p2048_ub512_b512" 2048 512 512
         Examples.trace_path
       = match write_rows Examples.cfg "/prof/p2048_ub512_b512" 2048 512 512
                 Examples.trace_path (r :: post) with
         | (out, None) => (out, [])
         | (out, Some e) => (out, [ERROR_processing Examples.trace_path e])
         end).
Proof.
  apply (main_file_window_start Examples.cfg Examples.fs
           "/prof/p2048_ub512_b512" 2048 512 512 Examples.trace_path 3).
  vm_compute. reflexivity.
Defined.

(* ===================================================================== *)
(** * Substring matching *)
(* ===================================================================== *)

Lemma prefix_iff p s :
  String.prefix p s = true <-> exists post, s = p +:+ post.
Proof.
  revert s. induction p as [|a p IH]; intros s.
  - split; [intros _; exists s; reflexivity|].
    intros _. destruct s; reflexivity.
  - destruct s as [|b s]; cbn.
    + split; [discriminate | intros [post H]; discriminate].
    + destruct (Ascii.ascii_dec a b) as [->|Hne].
      * rewrite IH. split; intros [post H]; exists post.
        -- rewrite H. reflexivity.
        -- injection H as H. exact H.
      * split; [discriminate|]. intros [post H]. injection H as H1 H2.
        congruence.
Qed.

(** [a in b] holds exactly when [b] is some text, then [a] character for
    character, then some text. *)
Lemma contains_iff needle hay :
  PyStr.contains needle hay = true
  <-> exists pre post, hay = pre +:+ needle +:+ post.
Proof.
  induction hay as [|c hay IH]; cbn [PyStr.contains].
  - rewrite orb_false_r, prefix_iff. split.
    + intros [post H]. exists EmptyString, post. exact H.
    + intros [pre [post H]]. destruct pre; [|discriminate].
      exists post. exact H.
  - rewrite orb_true_iff, prefix_iff, IH. split.
    + intros [[post H]|[pre [post H]]].
      * exists EmptyString, post. exact H.
      * exists (String c pre), post. cbn. rewrite H. reflexivity.
    + intros [pre [post H]]. destruct pre as [|a pre].
      * left. exists post. exact H.
      * right. injection H as _ H. exists pre, post. exact H.
Qed.

Lemma contains_empty_hay needle :
  needle <> EmptyString -> PyStr.contains needle EmptyString = false.
Proof. destruct needle; [congruence | reflexivity]. Qed.

(** For a marker that is not empty, the code's match is the match of the
    design document. *)
Lemma is_occurrence_spec kernel_col marker row :
  marker <> EmptyString ->
  is_occurrence kernel_col marker row = spec_field_matches kernel_col marker row.
Proof.
  intros Hm. unfold is_occurrence, spec_field_matches.
  destruct (row_get row kernel_col) as [v|]; cbn [or_empty].
  - destruct (String.eqb_spec v EmptyString) as [->|Hne]; cbn [negb andb].
    + apply contains_empty_hay. exact Hm.
    + reflexivity.
  - apply contains_empty_hay. exact Hm.
Qed.

Lemma filter_ext_bool {A} (f g : A -> bool) (l : list A) :
  (forall x, f x = g x) ->
  filter (fun x => f x = true) l = filter (fun x => g x = true) l.
Proof.
  intros H. induction l as [|x l IH]; [reflexivity|].
  rewrite !filter_cons, IH.
  destruct (decide (f x = true)) as [Hf|Hf], (decide (g x = true)) as [Hg|Hg];
    try reflexivity; rewrite H in Hf; contradiction.
Qed.

(** C6 (as amended): for a marker that is not empty, the counter returns the
    number of rows whose field value contains the marker, where an empty or
    missing value is no match, and it raises its schema error exactly when
    the field is absent from the header. *)
Theorem count_occurrences_counts
    (fs : gmap string node) (csv_path : string) (recs : list record)
    (kernel_col marker : string) :
  open_read fs csv_path = inr recs ->
  marker <> EmptyString ->
  ((exists e, count_occurrences fs csv_path kernel_col marker = inl e)
   <-> field_in_header kernel_col recs = false) /\
  count_occurrences fs csv_path kernel_col marker
  = spec_count_occurrences csv_path recs kernel_col marker.
Proof.
  intros Hopen Hm. unfold count_occurrences, spec_count_occurrences.
  rewrite Hopen. cbn. rewrite header_lacks_field_in_header.
  destruct (field_in_header kernel_col recs); cbn [negb].
  - split.
    + split; [intros [e H]; discriminate | discriminate].
    + unfold mret, result_ret. f_equal. rewrite count_loop_filter. do 2 f_equal.
      apply filter_ext_bool. intros r. apply is_occurrence_spec. exact Hm.
  - split; [|reflexivity].
    split; [reflexivity|]. intros _. eexists. reflexivity.
Qed.

Lemma count_occurrences_counts_witness :
  ((exists e, count_occurrences Examples.fs Examples.trace_path
                "Kernel_Name" "rms_norm_f32" = inl e)
   <-> field_in_header "Kernel_Name" Examples.trace = false) /\
  count_occurrences Examples.fs Examples.trace_path "Kernel_Name" "rms_norm_f32"
  = spec_count_occurrences Examples.trace_path Examples.trace
      "Kernel_Name" "rms_norm_f32".
Proof.
  apply (count_occurrences_counts Examples.fs Examples.trace_path Examples.trace).
  - reflexivity.
  - discriminate.
Defined.

(** C6 as stated fails for the empty marker: the empty string is found in
    every field value, the empty one and the missing one included, so a row
    with an empty kernel name is counted. *)
Lemma count_occurrences_empty_marker_counterexample :
  count_occurrences Examples.fs Examples.trace_empty_name_path
    "Kernel_Name" EmptyString = inr 1 /\
  spec_count_occurrences Examples.trace_empty_name_path
    Examples.trace_empty_name "Kernel_Name" EmptyString = inr 0 /\
  count_occurrences Examples.fs Examples.trace_empty_name_path
    "Kernel_Name" EmptyString
  <> spec_count_occurrences Examples.trace_empty_name_path
       Examples.trace_empty_name "Kernel_Name" EmptyString.
Proof.
  split; [vm_compute; reflexivity|].
  split; [vm_compute; reflexivity|].
  vm_compute. discriminate.
Qed.

(* ===================================================================== *)
(** * The header of an output file *)
(* ===================================================================== *)

(** [open(path, "w")] succeeds exactly when the path is no directory and
    its parent is one. *)
Lemma open_write_inr fs path :
  (exists fs1, open_write fs path = inr fs1)
  <-> isdir fs path = false /\ isdir fs (PyPath.dirname path) = true.
Proof.
  unfold open_write, isdir.
  destruct (fs !! path) as [[recs|ch]|];
    destruct (fs !! PyPath.dirname path) as [[recs'|ch']|]; cbn;
    split; try (intros [fs1 H]; discriminate H);
    try (intros [H1 H2]; discriminate);
    try (intros _; split; reflexivity);
    intros _; eexists; reflexivity.
Qed.

Lemma group_records_acc cfg fs vdir p ub b files acc :
  exists more,
    (foldl (fun acc csv_path =>
              let '(recs, diags) := main_file cfg fs vdir p ub b csv_path in
              (acc.1 ++ recs, acc.2 ++ diags)) acc files).1
    = acc.1 ++ more.
Proof.
  revert acc. induction files as [|f files IH]; intros acc.
  - exists []. cbn. rewrite app_nil_r. reflexivity.
  - cbn [foldl]. destruct (main_file cfg fs vdir p ub b f) as [recs diags].
    destruct (IH (acc.1 ++ recs, acc.2 ++ diags)) as [more H].
    exists (recs ++ more). rewrite H. cbn [fst]. rewrite app_assoc. reflexivity.
Qed.

Lemma group_records_header cfg fs vdir p ub b files :
  exists rest, (group_records cfg fs vdir p ub b files).1 = header :: rest.
Proof.
  unfold group_records.
  destruct (group_records_acc cfg fs vdir p ub b files ([header], [])) as [more H].
  exists more. rewrite H. reflexivity.
Qed.

(** What a group writes when its output file can be opened. *)
Lemma main_group_written cfg vdir p ub b variant_name w subdir files :
  isdir (w_fs w) (PyPath.join subdir (variant_name +:+ ".csv")) = false ->
  isdir (w_fs w) (PyPath.dirname (PyPath.join subdir (variant_name +:+ ".csv"))) = true ->
  exists rest,
    w_written (main_group cfg vdir p ub b variant_name w (subdir, files))
    = w_written w ++ [(PyPath.join subdir (variant_name +:+ ".csv"), header :: rest)] /\
    w_fs (main_group cfg vdir p ub b variant_name w (subdir, files))
      !! PyPath.join subdir (variant_name +:+ ".csv")
    = Some (FileN (header :: rest)).
Proof.
  intros H1 H2.
  destruct (proj2 (open_write_inr (w_fs w) _) (conj H1 H2)) as [fs1 Hopen].
  destruct (group_records_header cfg fs1 vdir p ub b files) as [rest Hrest].
  exists rest. unfold main_group. rewrite Hopen.
  destruct (group_records cfg fs1 vdir p ub b files) as [recs diags].
  cbn [fst] in Hrest. subst recs. cbn [w_written w_fs].
  split; [reflexivity | apply lookup_insert_eq].
Qed.

(** C2 (as amended): for every group whose output file can be opened (its
    path is no directory, its parent is one), the first record written to
    the output file is the header row, with exactly 19 columns in the fixed
    order: variant directory, p, ub, b, source file path, dispatch id,
    kernel id, kernel name, start timestamp, end timestamp, time_us, the
    three workgroup sizes, the three grid sizes, total workgroups,
    utilisation percentage. *)
Theorem main_group_header
    (cfg : config) (vdir : string) (p ub b : Z) (variant_name : string)
    (w : world) (subdir : string) (files : list string) :
  isdir (w_fs w) (PyPath.join subdir (variant_name +:+ ".csv")) = false ->
  isdir (w_fs w) (PyPath.dirname (PyPath.join subdir (variant_name +:+ ".csv"))) = true ->
  exists rest,
    w_written (main_group cfg vdir p ub b variant_name w (subdir, files))
    = w_written w ++ [(PyPath.join subdir (variant_name +:+ ".csv"), header :: rest)] /\
    w_fs (main_group cfg vdir p ub b variant_name w (subdir, files))
      !! PyPath.join subdir (variant_name +:+ ".csv")
    = Some (FileN (header :: rest)) /\
    length header = 19%nat /\
    header = [ "variant_dir"; "p"; "ub"; "b"; "csv_path";
               "Dispatch_Id"; "Kernel_Id"; "Kernel_Name";
               "Start_Timestamp"; "End_Timestamp"; "time_us";
               "Workgroup_Size_X"; "Workgroup_Size_Y"; "Workgroup_Size_Z";
               "Grid_Size_X"; "Grid_Size_Y"; "Grid_Size_Z";
               "Total_Workgroups"; "CU_Utilization_pct" ].
Proof.
  intros H1 H2.
  destruct (main_group_written cfg vdir p ub b variant_name w subdir files H1 H2)
    as (rest & Hw & Hfs).
  exists rest. split; [exact Hw|]. split; [exact Hfs|]. split; reflexivity.
Qed.

Lemma main_group_header_witness :
  exists rest,
    w_written (main_group Examples.cfg "/prof/p2048_ub512_b512" 2048 512 512
                 "p2048_ub512_b512" Examples.world0
                 ("/prof/p2048_ub512_b512/bel-phx4", Examples.group.2))
    = w_written Examples.world0
      ++ [(PyPath.join "/prof/p2048_ub512_b512/bel-phx4"
             ("p2048_ub512_b512" +:+ ".csv"), header :: rest)] /\
    w_fs (main_group Examples.cfg "/prof/p2048_ub512_b512" 2048 512 512
            "p2048_ub512_b512" Examples.world0
            ("/prof/p2048_ub512_b512/bel-phx4", Examples.group.2))
      !! PyPath.join "/prof/p2048_ub512_b512/bel-phx4"
           ("p2048_ub512_b512" +:+ ".csv")
    = Some (FileN (header :: rest)) /\
    length header = 19%nat /\
    header = [ "variant_dir"; "p"; "ub"; "b"; "csv_path";
               "Dispatch_Id"; "Kernel_Id"; "Kernel_Name";
               "Start_Timestamp"; "End_Timestamp"; "time_us";
               "Workgroup_Size_X"; "Workgroup_Size_Y"; "Workgroup_Size_Z";
               "Grid_Size_X"; "Grid_Size_Y"; "Grid_Size_Z";
               "Total_Workgroups"; "CU_Utilization_pct" ].
Proof.
  apply (main_group_header Examples.cfg "/prof/p2048_ub512_b512" 2048 512 512
           "p2048_ub512_b512" Examples.world0
           "/prof/p2048_ub512_b512/bel-phx4" Examples.group.2).
  - vm_compute. reflexivity.
  - vm_compute. reflexivity.
Defined.

(** C2 as stated fails: the header the writer writes has 19 columns, not
    18. *)
Lemma main_group_header_18_counterexample :
  ~ (exists h rest,
       w_written (main_group Examples.cfg "/prof/p2048_ub512_b512" 2048 512 512
                    "p2048_ub512_b512" Examples.world0
                    ("/prof/p2048_ub512_b512/bel-phx4", Examples.group.2))
       = [(PyPath.join "/prof/p2048_ub512_b512/bel-phx4"
             ("p2048_ub512_b512" +:+ ".csv"), h :: rest)] /\
       length h = 18%nat).
Proof.
  intros (h & rest & H & Hlen).
  destruct (main_group_written Examples.cfg "/prof/p2048_ub512_b512" 2048 512 512
              "p2048_ub512_b512" Examples.world0
              "/prof/p2048_ub512_b512/bel-phx4" Examples.group.2)
    as (rest' & Hw & _).
  - vm_compute. reflexivity.
  - vm_compute. reflexivity.
  - rewrite Hw in H. change (w_written Examples.world0) with (@nil (string * list record)) in H.
    rewrite app_nil_l in H.
    assert (h = header) as -> by congruence.
    discriminate Hlen.
Qed.

(* ===================================================================== *)
(** * The variant-directory pattern *)
(* ===================================================================== *)

Lemma append_nil_l s : EmptyString +:+ s = s.
Proof. reflexivity. Qed.

Lemma append_cons c s t : String c s +:+ t = String c (s +:+ t).
Proof. reflexivity. Qed.

Lemma span_digits_cons c s :
  PyFloat.span_digits (String c s)
  = if PyFloat.is_digit c
    then let '(d, rest) := PyFloat.span_digits s in (String c d, rest)
    else (EmptyString, String c s).
Proof. reflexivity. Qed.

Lemma all_digits_cons c s :
  all_digits (String c s) = PyFloat.is_digit c && all_digits s.
Proof. reflexivity. Qed.

Lemma strip_prefix_iff p s r :
  strip_prefix p s = Some r <-> s = p +:+ r.
Proof.
  revert s. induction p as [|a p IH]; intros s.
  - rewrite append_nil_l. cbn [strip_prefix].
    split; [intros [= ->]; reflexivity | intros ->; reflexivity].
  - rewrite append_cons. destruct s as [|c s]; cbn [strip_prefix].
    + split; discriminate.
    + destruct (Ascii.eqb_spec a c) as [->|Hne].
      * rewrite IH. split; [intros ->; reflexivity | intros [= ->]; reflexivity].
      * split; [discriminate | intros [= -> _]; contradiction].
Qed.

Lemma span_digits_spec s d r :
  PyFloat.span_digits s = (d, r) ->
  s = d +:+ r /\ all_digits d = true /\ starts_with_digit r = false.
Proof.
  revert d r. induction s as [|c s IH]; intros d r.
  - intros [= <- <-]. split; [reflexivity|]. split; reflexivity.
  - rewrite span_digits_cons. destruct (PyFloat.is_digit c) eqn:Hc.
    + destruct (PyFloat.span_digits s) as [d' r'].
      intros [= <- <-]. destruct (IH d' r' eq_refl) as (-> & Hd & Hr).
      split; [reflexivity|]. split; [|exact Hr].
      rewrite all_digits_cons, Hc, Hd. reflexivity.
    + intros [= <- <-]. split; [reflexivity|]. split; [reflexivity|]. exact Hc.
Qed.

Lemma span_digits_app d r :
  all_digits d = true -> starts_with_digit r = false ->
  PyFloat.span_digits (d +:+ r) = (d, r).
Proof.
  intros Hd Hr. induction d as [|c d IH].
  - rewrite append_nil_l. destruct r as [|c r]; [reflexivity|].
    rewrite span_digits_cons.
    change (PyFloat.is_digit c = false) in Hr. rewrite Hr. reflexivity.
  - rewrite all_digits_cons in Hd. apply andb_true_iff in Hd as [Hc Hd].
    rewrite append_cons, span_digits_cons, Hc, (IH Hd). reflexivity.
Qed.

Lemma append_nil_r s : s +:+ EmptyString = s.
Proof. induction s as [|c s IH]; [reflexivity|]. rewrite append_cons, IH. reflexivity. Qed.

Lemma append_assoc s t u : (s +:+ t) +:+ u = s +:+ (t +:+ u).
Proof.
  induction s as [|c s IH]; [reflexivity|]. rewrite !append_cons, IH. reflexivity.
Qed.

(** The pattern on a name of the naming contract followed by some text that
    does not start with a digit. *)
Lemma VARIANT_DIR_RE_match_eval p ub b tail :
  digits1 p -> digits1 ub -> digits1 b -> starts_with_digit tail = false ->
  VARIANT_DIR_RE_match (variant_name_of p ub (b +:+ tail))
  = if String.eqb tail EmptyString || String.eqb tail LF
    then Some (p, ub, b) else None.
Proof.
  intros [Hpne Hp] [Hubne Hub] [Hbne Hb] Ht.
  unfold VARIANT_DIR_RE_match, variant_name_of.
  rewrite (proj2 (strip_prefix_iff "p" _ _) eq_refl). cbn [mbind option_bind].
  rewrite (span_digits_app p) by (exact Hp || reflexivity).
  rewrite (proj2 (String.eqb_neq p EmptyString) Hpne).
  rewrite (proj2 (strip_prefix_iff "_ub" _ _) eq_refl). cbn [mbind option_bind].
  rewrite (span_digits_app ub) by (exact Hub || reflexivity).
  rewrite (proj2 (String.eqb_neq ub EmptyString) Hubne).
  rewrite (proj2 (strip_prefix_iff "_b" _ _) eq_refl). cbn [mbind option_bind].
  rewrite (span_digits_app b) by (exact Hb || exact Ht).
  rewrite (proj2 (String.eqb_neq b EmptyString) Hbne).
  reflexivity.
Qed.

(** The names the pattern accepts: the names of the naming contract, and
    those names followed by one line feed. *)
Lemma VARIANT_DIR_RE_match_iff name p ub b :
  VARIANT_DIR_RE_match name = Some (p, ub, b)
  <-> digits1 p /\ digits1 ub /\ digits1 b /\
      (name = variant_name_of p ub b \/ name = variant_name_of p ub b +:+ LF).
Proof.
  split.
  - unfold VARIANT_DIR_RE_match.
    destruct (strip_prefix "p" name) as [r0|] eqn:H0; [|discriminate].
    apply strip_prefix_iff in H0. cbn [mbind option_bind].
    destruct (PyFloat.span_digits r0) as [p' r1] eqn:S1.
    apply span_digits_spec in S1 as (Hr0 & Hp & _).
    destruct (String.eqb_spec p' EmptyString) as [|Hpne]; [discriminate|].
    destruct (strip_prefix "_ub" r1) as [r2|] eqn:H2; [|discriminate].
    apply strip_prefix_iff in H2. cbn [mbind option_bind].
    destruct (PyFloat.span_digits r2) as [ub' r3] eqn:S2.
    apply span_digits_spec in S2 as (Hr2 & Hub & _).
    destruct (String.eqb_spec ub' EmptyString) as [|Hubne]; [discriminate|].
    destruct (strip_prefix "_b" r3) as [r4|] eqn:H4; [|discriminate].
    apply strip_prefix_iff in H4. cbn [mbind option_bind].
    destruct (PyFloat.span_digits r4) as [b' r5] eqn:S3.
    apply span_digits_spec in S3 as (Hr4 & Hb & _).
    destruct (String.eqb_spec b' EmptyString) as [|Hbne]; [discriminate|].
    assert (name = variant_name_of p' ub' (b' +:+ r5)) as Hname.
    { unfold variant_name_of. rewrite H0, Hr0, H2, Hr2, H4, Hr4. reflexivity. }
    destruct (String.eqb_spec r5 EmptyString) as [->|Hr5]; cbn [orb].
    + intros [= <- <- <-]. rewrite append_nil_r in Hname.
      split; [split; assumption|]. split; [split; assumption|].
      split; [split; assumption|]. left. exact Hname.
    + destruct (String.eqb_spec r5 (String "010" EmptyString)) as [->|]; [|discriminate].
      intros [= <- <- <-].
      split; [split; assumption|]. split; [split; assumption|].
      split; [split; assumption|]. right. rewrite Hname.
      unfold variant_name_of, LF. rewrite !append_assoc. reflexivity.
  - intros (Hp & Hub & Hb & Hname).
    destruct Hname as [->| ->].
    + rewrite <- (append_nil_r b) at 1.
      rewrite (VARIANT_DIR_RE_match_eval p ub b EmptyString Hp Hub Hb eq_refl).
      reflexivity.
    + replace (variant_name_of p ub b +:+ LF) with (variant_name_of p ub (b +:+ LF))
        by (unfold variant_name_of; rewrite !append_assoc; reflexivity).
      rewrite (VARIANT_DIR_RE_match_eval p ub b LF Hp Hub Hb eq_refl).
      reflexivity.
Qed.

(* ===================================================================== *)
(** * String facts used for paths and names *)
(* ===================================================================== *)

Lemma append_length s t :
  String.length (s +:+ t) = (String.length s + String.length t)%nat.
Proof.
  induction s as [|c s IH]; [reflexivity|].
  rewrite append_cons. cbn [String.length]. rewrite IH. reflexivity.
Qed.

Lemma append_inv_tail s1 s2 t : s1 +:+ t = s2 +:+ t -> s1 = s2.
Proof.
  revert s2. induction s1 as [|a s1 IH]; intros s2 H.
  - destruct s2 as [|b s2]; [reflexivity|].
    apply (f_equal String.length) in H.
    rewrite append_nil_l, append_cons in H. cbn [String.length] in H.
    rewrite append_length in H. lia.
  - destruct s2 as [|b s2].
    + apply (f_equal String.length) in H.
      rewrite append_nil_l, append_cons in H. cbn [String.length] in H.
      rewrite append_length in H. lia.
    + rewrite !append_cons in H. injection H as -> H. f_equal. apply IH. exact H.
Qed.

Lemma last_char_cons c s :
  s <> EmptyString -> PyStr.last_char (String c s) = PyStr.last_char s.
Proof. destruct s; [contradiction | reflexivity]. Qed.

Lemma append_not_nil s t : t <> EmptyString -> s +:+ t <> EmptyString.
Proof. destruct s; [rewrite append_nil_l; trivial | discriminate]. Qed.

Lemma last_char_app s t :
  t <> EmptyString -> PyStr.last_char (s +:+ t) = PyStr.last_char t.
Proof.
  intros Ht. induction s as [|c s IH]; [reflexivity|].
  rewrite append_cons, last_char_cons by (apply append_not_nil; exact Ht).
  exact IH.
Qed.

Lemma last_char_digits s :
  digits1 s -> exists c, PyStr.last_char s = Some c /\ PyFloat.is_digit c = true.
Proof.
  intros [Hne Hd]. induction s as [|c s IH]; [contradiction|].
  rewrite all_digits_cons in Hd. apply andb_true_iff in Hd as [Hc Hd].
  destruct (decide (s = EmptyString)) as [->|Hs].
  - exists c. split; [reflexivity | exact Hc].
  - destruct (IH Hs Hd) as (x & Hx & Hdx).
    exists x. split; [|exact Hdx]. rewrite last_char_cons by exact Hs. exact Hx.
Qed.

Lemma endswith_cons c s suffix :
  PyStr.endswith (String c s) suffix
  = String.eqb (String c s) suffix || PyStr.endswith s suffix.
Proof. reflexivity. Qed.

Lemma endswith_iff s suffix :
  PyStr.endswith s suffix = true <-> exists pre, s = pre +:+ suffix.
Proof.
  induction s as [|c s IH].
  - cbn [PyStr.endswith]. rewrite orb_false_r, String.eqb_eq. split.
    + intros <-. exists EmptyString. reflexivity.
    + intros [pre H]. destruct pre; [exact H | discriminate].
  - rewrite endswith_cons, orb_true_iff, String.eqb_eq, IH. split.
    + intros [<-|[pre ->]]; [exists EmptyString | exists (String c pre)]; reflexivity.
    + intros [pre H]. destruct pre as [|a pre].
      * left. exact H.
      * right. rewrite append_cons in H. injection H as _ H. exists pre. exact H.
Qed.

(** A name the pattern accepts ends with a digit or with a line feed. *)
Lemma variant_name_last_char name g :
  VARIANT_DIR_RE_match name = Some g ->
  exists c, PyStr.last_char name = Some c /\
            (PyFloat.is_digit c = true \/ c = "010"%char).
Proof.
  destruct g as [[p ub] b]. intros H.
  apply VARIANT_DIR_RE_match_iff in H as (_ & _ & Hb & Hname).
  destruct (last_char_digits b Hb) as (c & Hc & Hd).
  destruct Hname as [->| ->].
  - exists c. split; [|left; exact Hd].
    unfold variant_name_of. rewrite <- !append_assoc.
    rewrite last_char_app by (destruct Hb as [Hb _]; exact Hb). exact Hc.
  - exists "010"%char. split; [|right; reflexivity].
    rewrite last_char_app by discriminate. reflexivity.
Qed.

(** The output file of a variant is never taken for a trace file. *)
Lemma output_name_not_trace name g :
  VARIANT_DIR_RE_match name = Some g ->
  glob_kernel_trace (name +:+ ".csv") = false.
Proof.
  intros H. destruct (variant_name_last_char name g H) as (c & Hc & Hcase).
  unfold glob_kernel_trace. apply andb_false_iff. right.
  destruct (PyStr.endswith (name +:+ ".csv") "_kernel_trace.csv") eqn:E;
    [|reflexivity].
  apply endswith_iff in E as [pre E].
  change "_kernel_trace.csv" with ("_kernel_trace" +:+ ".csv") in E.
  rewrite <- append_assoc in E.
  apply append_inv_tail in E. subst name.
  rewrite last_char_app in Hc by discriminate.
  vm_compute in Hc. injection Hc as <-.
  destruct Hcase as [Hd|Hd]; [vm_compute in Hd|]; discriminate.
Qed.

(* ===================================================================== *)
(** * Trace discovery *)
(* ===================================================================== *)

#[global] Instance str_le_total : Total str_le.
Proof.
  intros a b. unfold str_le.
  destruct (String.leb_total a b) as [H|H]; rewrite H; [left|right]; exact I.
Qed.

(** The entries are visited in sorted order, each entry once. *)
Lemma sorted_Sorted l : Sorted str_le (sorted l) /\ sorted l ≡ₚ l.
Proof.
  split; [apply Sorted_merge_sort; apply _ | apply merge_sort_Permutation].
Qed.


(** Discovery on a root that cannot be listed: one error is printed and
    nothing is yielded. *)
Lemma iter_variant_dirs_unlistable fs root e :
  listdir fs root = inl e ->
  (iter_variant_dirs fs root).2 = [] /\
  (iter_variant_dirs fs root).1
  = [match e with
     | FileNotFoundError _ => ERROR_root_not_found root
     | _ => ERROR_failed_to_list root e
     end].
Proof.
  intros Hl. unfold iter_variant_dirs. rewrite Hl. destruct e; split; reflexivity.
Qed.

(** C9, at the failing input: a root with the directory [p1_ub2_b3] and a
    directory whose name is [p1_ub2_b3] followed by a line feed.  Discovery
    yields both, although the second name is no name of the naming
    contract. *)
Theorem iter_variant_dirs_trailing_newline :
  iter_variant_dirs Examples.fs_newline "/prof"
  = ([], [ ("/prof/p1_ub2_b3", 1, 2, 3);
           ("/prof/" +:+ Examples.newline_name, 1, 2, 3) ]) /\
  ~ (exists p ub b, digits1 p /\ digits1 ub /\ digits1 b /\
                    Examples.newline_name = variant_name_of p ub b).
Proof.
  split; [vm_compute; reflexivity|].
  intros (p & ub & b & _ & _ & Hb & Hname).
  destruct (last_char_digits b Hb) as (c & Hc & Hd).
  apply (f_equal PyStr.last_char) in Hname.
  unfold variant_name_of in Hname. rewrite <- !append_assoc in Hname.
  rewrite last_char_app in Hname by (destruct Hb as [Hb _]; exact Hb).
  rewrite Hc in Hname. vm_compute in Hname. injection Hname as <-.
  vm_compute in Hd. discriminate Hd.
Qed.

(* ===================================================================== *)
(** * Binary64 arithmetic: digits, shifts and rounding *)
(* ===================================================================== *)

(** ** Digits of a mantissa *)

Lemma digits2_pos_size p : digits2_pos p = Pos.size p.
Proof.
  induction p as [p IH|p IH|]; cbn [digits2_pos Pos.size]; rewrite ?IH; reflexivity.
Qed.

Lemma digits2_pos_log2 p : Z.pos (digits2_pos p) = Z.log2 (Z.pos p) + 1.
Proof.
  rewrite digits2_pos_size.
  destruct p as [p|p|]; cbn [Pos.size Z.log2]; rewrite ?Pos2Z.inj_succ; lia.
Qed.

(** A mantissa of [d] digits lies in [2^(d-1), 2^d). *)
Lemma digits2_pos_bounds p :
  2 ^ (Z.pos (digits2_pos p) - 1) <= Z.pos p < 2 ^ Z.pos (digits2_pos p).
Proof.
  rewrite digits2_pos_log2.
  pose proof (Z.log2_spec (Z.pos p) ltac:(lia)) as H.
  replace (Z.log2 (Z.pos p) + 1 - 1) with (Z.log2 (Z.pos p)) by lia.
  unfold Z.succ in H. exact H.
Qed.

Lemma digits2_pos_unique p k :
  2 ^ (k - 1) <= Z.pos p < 2 ^ k -> Z.pos (digits2_pos p) = k.
Proof.
  intros H. rewrite digits2_pos_log2.
  assert (0 <= k - 1).
  { destruct (Z.lt_ge_cases (k - 1) 0) as [Hk|Hk]; [|exact Hk].
    destruct H as [_ H]. destruct (Z.lt_ge_cases k 0) as [Hk0|Hk0].
    - rewrite Z.pow_neg_r in H by exact Hk0. lia.
    - assert (k = 0) as -> by lia. cbn in H. lia. }
  rewrite (Z.log2_unique (Z.pos p) (k - 1)); [lia | assumption |].
  replace (Z.succ (k - 1)) with k by lia. exact H.
Qed.

Lemma Zdigits2_nonneg m : 0 <= Zdigits2 m.
Proof. destruct m; cbn; lia. Qed.

(** A number below [2^k] has at most [k] digits. *)
Lemma Zdigits2_le m k : 0 <= m < 2 ^ k -> 0 <= k -> Zdigits2 m <= k.
Proof.
  intros [Hm Hlt] Hk. destruct m as [|p|p]; [cbn; lia| |lia].
  cbn [Zdigits2]. pose proof (digits2_pos_bounds p) as [Hlo _].
  destruct (Z.le_gt_cases (Z.pos (digits2_pos p)) k) as [|Hgt]; [assumption|].
  assert (2 ^ k <= 2 ^ (Z.pos (digits2_pos p) - 1))
    by (apply Z.pow_le_mono_r; lia).
  lia.
Qed.

(** ** Shifting a mantissa right *)

Lemma shr_1_m mrs : 0 <= shr_m mrs -> shr_m (shr_1 mrs) = shr_m mrs / 2.
Proof.
  destruct mrs as [m r s]. cbn [shr_m shr_1]. intros Hm.
  destruct m as [|[p|p|]|p]; cbn [shr_m].
  - reflexivity.
  - apply (Z.div_unique _ 2 _ 1); lia.
  - apply (Z.div_unique _ 2 _ 0); lia.
  - reflexivity.
  - lia.
Qed.

Lemma shr_1_nonneg mrs : 0 <= shr_m mrs -> 0 <= shr_m (shr_1 mrs).
Proof.
  intros H. rewrite shr_1_m by exact H. apply Z.div_pos; lia.
Qed.

Lemma pow2_xO k : 2 ^ Z.pos k~0 = 2 ^ Z.pos k * 2 ^ Z.pos k.
Proof. rewrite <- Z.pow_add_r by lia. f_equal. lia. Qed.

Lemma pow2_xI k : 2 ^ Z.pos k~1 = 2 * (2 ^ Z.pos k * 2 ^ Z.pos k).
Proof.
  rewrite <- Z.pow_add_r by lia. rewrite <- (Z.pow_succ_r 2) by lia. f_equal. lia.
Qed.

Lemma iter_pos_shr_1 k mrs :
  0 <= shr_m mrs ->
  shr_m (SpecFloat.iter_pos shr_1 k mrs) = shr_m mrs / 2 ^ Z.pos k.
Proof.
  revert mrs. induction k as [k IH|k IH|]; intros mrs Hm; cbn [SpecFloat.iter_pos].
  - assert (0 <= shr_m (shr_1 mrs)) as H1 by (apply shr_1_nonneg; exact Hm).
    assert (0 <= shr_m (SpecFloat.iter_pos shr_1 k (shr_1 mrs))) as H2.
    { rewrite IH by exact H1. apply Z.div_pos; lia. }
    rewrite IH by exact H2. rewrite IH by exact H1. rewrite shr_1_m by exact Hm.
    rewrite !Z.div_div by lia. rewrite pow2_xI. reflexivity.
  - assert (0 <= shr_m (SpecFloat.iter_pos shr_1 k mrs)) as H2.
    { rewrite IH by exact Hm. apply Z.div_pos; lia. }
    rewrite IH by exact H2. rewrite IH by exact Hm.
    rewrite !Z.div_div by lia. rewrite pow2_xO. reflexivity.
  - rewrite shr_1_m by exact Hm. reflexivity.
Qed.

Lemma shr_record_of_loc_m m l : shr_m (shr_record_of_loc m l) = m.
Proof. destruct l as [|[]]; reflexivity. Qed.

(** [shr_fexp] divides the mantissa by the power of two that brings the
    exponent up to the format's exponent, and leaves both alone when the
    exponent is already there or above. *)
Lemma shr_fexp_m m e l :
  0 <= m ->
  let e1 := Z.max e (fexp prec emax (Zdigits2 m + e)) in
  shr_m (shr_fexp prec emax m e l).1 = m / 2 ^ (e1 - e) /\
  (shr_fexp prec emax m e l).2 = e1.
Proof.
  intros Hm e1. unfold shr_fexp, shr.
  destruct (fexp prec emax (Zdigits2 m + e) - e) as [|k|k] eqn:E; cbn [fst snd].
  - replace e1 with e by lia. rewrite Z.sub_diag, Z.div_1_r.
    split; [apply shr_record_of_loc_m | reflexivity].
  - replace e1 with (e + Z.pos k) by lia.
    rewrite iter_pos_shr_1 by (rewrite shr_record_of_loc_m; exact Hm).
    rewrite shr_record_of_loc_m. split; [f_equal; f_equal; lia | reflexivity].
  - replace e1 with e by lia. rewrite Z.sub_diag, Z.div_1_r.
    split; [apply shr_record_of_loc_m | reflexivity].
Qed.

Lemma round_nearest_even_cases m l :
  round_nearest_even m l = m \/ round_nearest_even m l = m + 1.
Proof.
  destruct l as [|[]]; cbn [round_nearest_even]; auto.
  destruct (Z.even m); auto.
Qed.

(** The result of the rounding step, with the two shifts and the rounding
    of the mantissa spelled out. *)
Lemma binary_round_aux_cases s mx ex lx :
  0 <= mx ->
  exists m1 e1 m2 e2,
    e1 = Z.max ex (fexp prec emax (Zdigits2 mx + ex)) /\
    (m1 = mx / 2 ^ (e1 - ex) \/ m1 = mx / 2 ^ (e1 - ex) + 1) /\
    e2 = Z.max e1 (fexp prec emax (Zdigits2 m1 + e1)) /\
    m2 = m1 / 2 ^ (e2 - e1) /\
    binary_round_aux prec emax s mx ex lx
    = match m2 with
      | Z0 => S754_zero s
      | Z.pos m => if e2 <=? emax - prec then S754_finite s m e2 else S754_infinity s
      | Z.neg _ => S754_nan
      end.
Proof.
  intros Hmx. unfold binary_round_aux.
  pose proof (shr_fexp_m mx ex lx Hmx) as [Hm1 He1].
  destruct (shr_fexp prec emax mx ex lx) as [mrs1 e1]. cbn [fst snd] in Hm1, He1.
  set (m1 := round_nearest_even (shr_m mrs1) (loc_of_shr_record mrs1)).
  assert (0 <= shr_m mrs1) as Hnn1 by (rewrite Hm1; apply Z.div_pos; lia).
  assert (0 <= m1) as Hnn.
  { destruct (round_nearest_even_cases (shr_m mrs1) (loc_of_shr_record mrs1))
      as [H|H]; fold m1 in H; lia. }
  pose proof (shr_fexp_m m1 e1 loc_Exact Hnn) as [Hm2 He2].
  destruct (shr_fexp prec emax m1 e1 loc_Exact) as [mrs2 e2].
  cbn [fst snd] in Hm2, He2.
  exists m1, e1, (shr_m mrs2), e2.
  split; [exact He1|]. split.
  { destruct (round_nearest_even_cases (shr_m mrs1) (loc_of_shr_record mrs1))
      as [H|H]; fold m1 in H; rewrite H, Hm1, He1; auto. }
  split; [exact He2|]. split; [rewrite Hm2, He2; reflexivity|].
  reflexivity.
Qed.

(* ===================================================================== *)
(** * Binary64 arithmetic: comparison and signs *)
(* ===================================================================== *)

(** ** Comparison of binary64 values *)

Lemma compare_cont_Eq_antisym p q :
  Pos.compare_cont Eq q p = CompOpp (Pos.compare_cont Eq p q).
Proof. rewrite Pos.compare_cont_antisym. reflexivity. Qed.

Lemma SFcompare_antisym x y :
  SFcompare y x = option_map CompOpp (SFcompare x y).
Proof.
  destruct x as [sx|sx| |sx mx ex], y as [sy|sy| |sy my ey];
    try destruct sx; try destruct sy; try reflexivity;
    cbn [SFcompare option_map]; f_equal;
    rewrite (Z.compare_antisym ex ey);
    destruct (ex ?= ey); cbn [CompOpp]; try reflexivity;
    rewrite (compare_cont_Eq_antisym mx my); rewrite ?CompOpp_involutive;
    reflexivity.
Qed.

Lemma SFcompare_refl x : x <> S754_nan -> SFcompare x x = Some Eq.
Proof.
  destruct x as [s|s| |s m e]; intros H; try contradiction;
    try (destruct s; reflexivity).
  cbn [SFcompare]. rewrite Z.compare_refl.
  destruct s; f_equal; rewrite Pos.compare_cont_refl; reflexivity.
Qed.

(** [x != x] holds for the NaN only. *)
Lemma is_nan_spec x : PrimFloat.is_nan x = true <-> Prim2SF x = S754_nan.
Proof.
  unfold PrimFloat.is_nan. rewrite FloatAxioms.eqb_spec. unfold SFeqb.
  destruct (Prim2SF x) as [s|s| |s m e] eqn:E.
  - rewrite SFcompare_refl by discriminate. split; discriminate.
  - rewrite SFcompare_refl by discriminate. split; discriminate.
  - split; reflexivity.
  - rewrite SFcompare_refl by discriminate. split; discriminate.
Qed.

Lemma is_nan_false x : PrimFloat.is_nan x = false <-> Prim2SF x <> S754_nan.
Proof.
  rewrite <- is_nan_spec. destruct (PrimFloat.is_nan x); split; congruence.
Qed.

(** Two values that are no NaN compare one way or the other. *)
Lemma ltb_false_leb x y :
  PrimFloat.is_nan x = false -> PrimFloat.is_nan y = false ->
  PrimFloat.ltb x y = false -> PrimFloat.leb y x = true.
Proof.
  rewrite !is_nan_false, FloatAxioms.ltb_spec, FloatAxioms.leb_spec.
  unfold SFltb, SFleb.
  intros Hx Hy. rewrite (SFcompare_antisym (Prim2SF x) (Prim2SF y)).
  assert (SFcompare (Prim2SF x) (Prim2SF y) <> None) as Hc.
  { destruct (Prim2SF x) as [sx|sx| |sx mx ex], (Prim2SF y) as [sy|sy| |sy my ey];
      try contradiction; discriminate. }
  destruct (SFcompare (Prim2SF x) (Prim2SF y)) as [[]|];
    cbn [option_map CompOpp]; try reflexivity; try discriminate.
  contradiction.
Qed.

Lemma ltb_leb x y : PrimFloat.ltb x y = true -> PrimFloat.leb x y = true.
Proof.
  rewrite FloatAxioms.ltb_spec, FloatAxioms.leb_spec. unfold SFltb, SFleb.
  destruct (SFcompare (Prim2SF x) (Prim2SF y)) as [[]|]; congruence.
Qed.

Lemma ltb_not_nan x y :
  PrimFloat.ltb x y = true -> PrimFloat.is_nan x = false /\ PrimFloat.is_nan y = false.
Proof.
  rewrite FloatAxioms.ltb_spec, !is_nan_false. unfold SFltb.
  destruct (Prim2SF x), (Prim2SF y); cbn [SFcompare]; try discriminate;
    intros _; split; discriminate.
Qed.

Lemma leb_not_nan x y :
  PrimFloat.leb x y = true -> PrimFloat.is_nan x = false /\ PrimFloat.is_nan y = false.
Proof.
  rewrite FloatAxioms.leb_spec, !is_nan_false. unfold SFleb.
  destruct (Prim2SF x), (Prim2SF y); cbn [SFcompare]; try discriminate;
    intros _; split; discriminate.
Qed.

(** ** Canonical mantissas *)

Lemma bounded_inv m e :
  bounded prec emax m e = true ->
  fexp prec emax (Z.pos (digits2_pos m) + e) = e /\ e <= emax - prec.
Proof.
  unfold bounded, canonical_mantissa. intros H.
  apply andb_true_iff in H as [H1 H2].
  apply Z.eqb_eq in H1. apply Z.leb_le in H2. split; assumption.
Qed.

(** A canonical mantissa has at most 53 digits, and exactly 53 above the
    least exponent. *)
Lemma bounded_digits m e :
  bounded prec emax m e = true ->
  -1074 <= e /\ Z.pos m < 2 ^ 53 /\ (-1074 < e -> 2 ^ 52 <= Z.pos m).
Proof.
  intros H. apply bounded_inv in H as [H _].
  unfold fexp, SpecFloat.emin, prec, emax in H.
  pose proof (digits2_pos_bounds m) as [Hlo Hhi].
  assert (Z.pos (digits2_pos m) <= 53) as Hd by lia.
  split; [lia|]. split.
  - assert (2 ^ Z.pos (digits2_pos m) <= 2 ^ 53) by (apply Z.pow_le_mono_r; lia).
    lia.
  - intros He. assert (Z.pos (digits2_pos m) = 53) as Hd53 by lia.
    rewrite Hd53 in Hlo. exact Hlo.
Qed.

(** Two canonical positive values compare as their values do: here the
    values are given as integers, scaled by a power of two [2^-e0]. *)
Lemma SFleb_finite m1 e1 m2 e2 e0 :
  bounded prec emax m1 e1 = true -> bounded prec emax m2 e2 = true ->
  e0 <= e1 -> e0 <= e2 ->
  Z.pos m1 * 2 ^ (e1 - e0) <= Z.pos m2 * 2 ^ (e2 - e0) ->
  SFleb (S754_finite false m1 e1) (S754_finite false m2 e2) = true.
Proof.
  intros B1 B2 H01 H02 Hle.
  apply bounded_digits in B1 as (Hmin1 & Hhi1 & Hlo1).
  apply bounded_digits in B2 as (Hmin2 & Hhi2 & Hlo2).
  unfold SFleb, SFcompare. destruct (Z.compare_spec e1 e2) as [Heq|Hlt|Hgt].
  - subst e2.
    assert (0 < 2 ^ (e1 - e0)) by (apply Z.pow_pos_nonneg; lia).
    assert (Z.pos m1 <= Z.pos m2) as Hm by nia.
    destruct (Pos.compare_cont Eq m1 m2) eqn:E; try reflexivity.
    change (Pos.compare_cont Eq m1 m2) with (m1 ?= m2)%positive in E.
    apply Pos.compare_gt_iff in E. lia.
  - reflexivity.
  - exfalso.
    specialize (Hlo1 ltac:(lia)).
    assert (0 < 2 ^ (e2 - e0)) by (apply Z.pow_pos_nonneg; lia).
    assert (2 ^ (e1 - e0) = 2 ^ (e1 - e2) * 2 ^ (e2 - e0)) as Hsplit.
    { rewrite <- Z.pow_add_r by lia. f_equal. lia. }
    assert (2 ^ 1 <= 2 ^ (e1 - e2)) as Hp by (apply Z.pow_le_mono_r; lia).
    change (2 ^ 1) with 2 in Hp.
    rewrite Hsplit in Hle.
    assert (2 ^ 52 * 2 <= Z.pos m1 * 2 ^ (e1 - e2)) by nia.
    change (2 ^ 52 * 2) with (2 ^ 53) in *.
    nia.
Qed.

(** ** Signs *)

Lemma SF_nonneg_leb x :
  SF_nonneg x <-> SFleb (S754_zero false) x = true.
Proof.
  destruct x as [s|[]| |[] m e]; cbn; split; try reflexivity; try discriminate;
    try contradiction; auto.
Qed.

Lemma leb_0_nonneg x : PrimFloat.leb 0 x = true <-> SF_nonneg (Prim2SF x).
Proof.
  rewrite FloatAxioms.leb_spec, SF_nonneg_leb.
  change (Prim2SF 0) with (S754_zero false). reflexivity.
Qed.

Lemma binary_round_aux_nonneg mx ex lx :
  0 <= mx -> SF_nonneg (binary_round_aux prec emax false mx ex lx).
Proof.
  intros Hmx.
  destruct (binary_round_aux_cases false mx ex lx Hmx)
    as (m1 & e1 & m2 & e2 & He1 & Hm1 & He2 & Hm2 & ->).
  assert (0 <= mx / 2 ^ (e1 - ex)) by (apply Z.div_pos; lia).
  assert (0 <= m1) by lia.
  assert (0 <= m2) by (rewrite Hm2; apply Z.div_pos; lia).
  destruct m2 as [|p|p]; [exact I| |lia].
  destruct (e2 <=? emax - prec); reflexivity.
Qed.

Lemma SFmul_nonneg x y :
  SF_nonneg x -> SF_pos_finite y -> SF_nonneg (SFmul prec emax x y).
Proof.
  destruct x as [sx|sx| |sx mx ex], y as [sy|sy| |sy my ey];
    cbn [SF_nonneg SF_pos_finite SFmul]; try contradiction;
    intros Hx Hy; subst; try exact I; try reflexivity.
  cbn [xorb]. apply binary_round_aux_nonneg. lia.
Qed.

Lemma SFdiv_nonneg x y :
  SF_nonneg x -> SF_pos_finite y -> SF_nonneg (SFdiv prec emax x y).
Proof.
  destruct x as [sx|sx| |sx mx ex], y as [sy|sy| |sy my ey];
    cbn [SF_nonneg SF_pos_finite SFdiv]; try contradiction;
    intros Hx Hy; subst; try exact I; try reflexivity.
  cbn [xorb]. unfold SFdiv_core_binary.
  match goal with |- context [Z.div_eucl ?a ?b] =>
    pose proof (Z_div_mod a b ltac:(lia)) as Hdm;
    assert (0 <= a) as Ha;
    [| destruct (Z.div_eucl a b) as [q r] ] end.
  { destruct (_ - _ - _) as [|k|k]; [lia| |lia].
    rewrite Z.shiftl_mul_pow2 by lia.
    apply Z.mul_nonneg_nonneg; [lia|]. apply Z.pow_nonneg. lia. }
  apply binary_round_aux_nonneg. destruct Hdm as [Hq Hr]. nia.
Qed.

Lemma Prim2SF_1 : Prim2SF 1 = S754_finite false 4503599627370496 (-52).
Proof. vm_compute. reflexivity. Qed.

(** A canonical positive value below 1 is below [2^-e] in units of its last
    place. *)
Lemma below_one m e :
  bounded prec emax m e = true ->
  SFcompare (S754_finite false m e) (Prim2SF 1) = Some Lt ->
  e <= -52 /\ Z.pos m < 2 ^ (- e).
Proof.
  intros B H. apply bounded_digits in B as (_ & Hhi & _).
  rewrite Prim2SF_1 in H. cbn [SFcompare] in H.
  destruct (Z.compare_spec e (-52)) as [Heq|Hlt|Hgt]; [| |discriminate].
  - subst e. split; [lia|].
    assert (Hc : Pos.compare_cont Eq m 4503599627370496 = Lt) by congruence.
    pose proof (proj1 (Pos.compare_lt_iff m 4503599627370496) Hc) as Hc'.
    assert (2 ^ (- -52) = 4503599627370496) as -> by (vm_compute; reflexivity).
    exact Hc'.
  - clear H. split; [lia|].
    assert (2 ^ 53 <= 2 ^ (- e)) by (apply Z.pow_le_mono_r; lia). lia.
Qed.

Lemma fexp_mono a b : a <= b -> fexp prec emax a <= fexp prec emax b.
Proof. unfold fexp. lia. Qed.

(** Multiplying a positive value by a value below 1 does not increase it:
    the rounded product of [m * 2^e < 1] and [M * 2^E] is at most
    [M * 2^E]. *)
Lemma SFmul_below_one_le m e M E :
  bounded prec emax m e = true ->
  SFcompare (S754_finite false m e) (Prim2SF 1) = Some Lt ->
  bounded prec emax M E = true ->
  valid_binary (SFmul prec emax (S754_finite false m e) (S754_finite false M E)) = true ->
  SFleb (SFmul prec emax (S754_finite false m e) (S754_finite false M E))
        (S754_finite false M E) = true.
Proof.
  intros B Hlt BM. destruct (below_one m e B Hlt) as [He Hm]. clear Hlt.
  pose proof (bounded_inv M E BM) as [HcanM HEmax].
  pose proof (digits2_pos_bounds M) as [_ HMhi].
  set (dM := Z.pos (digits2_pos M)) in *.
  assert (0 < dM) as HdM by (unfold dM; lia).
  cbn [SFmul xorb].
  destruct (binary_round_aux_cases false (Z.pos (m * M)) (e + E) loc_Exact ltac:(lia))
    as (m1 & e1 & m2 & e2 & He1 & Hm1 & He2 & Hm2 & ->).
  intros Hvalid.
  assert (Z.pos (m * M) = Z.pos m * Z.pos M) as Hmx by reflexivity.
  set (mx := Z.pos (m * M)) in *. set (ex := e + E) in *.
  assert (0 < 2 ^ (- e)) as Hpe by (apply Z.pow_pos_nonneg; lia).
  (* the exponent after the first shift stays at or below E *)
  assert (mx < 2 ^ (dM - e)) as Hmxd.
  { replace (dM - e) with (dM + - e) by lia. rewrite Z.pow_add_r by lia.
    rewrite Hmx. nia. }
  assert (Zdigits2 mx + ex <= dM + E) as Hdig.
  { pose proof (Zdigits2_le mx (dM - e) ltac:(lia) ltac:(lia)). lia. }
  assert (ex <= e1 <= E) as He1b.
  { pose proof (fexp_mono _ _ Hdig) as Hf. fold dM in HcanM. lia. }
  (* the mantissa after the first shift, and after rounding *)
  set (j := e1 - ex) in *. set (t := E - e1).
  assert (0 <= j) by lia. assert (0 <= t) by lia.
  assert (0 < 2 ^ j) as Hpj by (apply Z.pow_pos_nonneg; lia).
  assert (0 < 2 ^ t) as Hpt by (apply Z.pow_pos_nonneg; lia).
  assert (2 ^ (- e) = 2 ^ j * 2 ^ t) as Hsplit.
  { rewrite <- Z.pow_add_r by lia. f_equal. lia. }
  assert (mx / 2 ^ j < Z.pos M * 2 ^ t) as Hq.
  { apply Z.div_lt_upper_bound; [exact Hpj|]. rewrite Hmx. nia. }
  assert (0 <= mx / 2 ^ j) by (apply Z.div_pos; lia).
  assert (0 <= m1 <= Z.pos M * 2 ^ t) as Hm1b by lia.
  assert (e1 <= e2) as He12 by lia.
  assert (0 < 2 ^ (e2 - e1)) as Hp2 by (apply Z.pow_pos_nonneg; lia).
  assert (m2 * 2 ^ (e2 - e1) <= m1) as Hm2b.
  { rewrite Hm2, Z.mul_comm. apply Z.mul_div_le. exact Hp2. }
  assert (0 <= m2) by (rewrite Hm2; apply Z.div_pos; lia).
  (* the final exponent stays at or below E, so there is no overflow *)
  assert (e2 <= E) as He2b.
  { assert (m1 < 2 ^ (dM + t)) as Hm1d.
    { rewrite Z.pow_add_r by lia. nia. }
    pose proof (Zdigits2_le m1 (dM + t) ltac:(lia) ltac:(lia)) as Hd1.
    assert (Zdigits2 m1 + e1 <= dM + E) as Hd1' by (unfold t in Hd1; lia).
    pose proof (fexp_mono _ _ Hd1') as Hf. fold dM in HcanM. lia. }
  destruct m2 as [|mm|mm]; [reflexivity| |lia].
  assert ((e2 <=? emax - prec) = true) as Hov by (apply Z.leb_le; lia).
  rewrite Hov in Hvalid |- *. cbn [valid_binary] in Hvalid.
  apply (SFleb_finite mm e2 M E e1 Hvalid BM); [lia | lia |].
  fold t. lia.
Qed.

(* ===================================================================== *)
(** * Binary64 arithmetic: canonical results and float(n) *)
(* ===================================================================== *)

(** ** Digits of quotients and successors *)

Lemma Zdigits2_bounds m :
  0 < m -> 2 ^ (Zdigits2 m - 1) <= m < 2 ^ Zdigits2 m.
Proof.
  destruct m as [|p|p]; try lia. intros _. apply digits2_pos_bounds.
Qed.

Lemma Zdigits2_unique m k :
  2 ^ (k - 1) <= m < 2 ^ k -> 0 < m -> Zdigits2 m = k.
Proof.
  destruct m as [|p|p]; try lia. intros H _. apply digits2_pos_unique. exact H.
Qed.

Lemma Zdigits2_pos m : 0 < m -> 0 < Zdigits2 m.
Proof. destruct m; cbn; lia. Qed.

(** Dropping [k] low bits drops [k] digits. *)
Lemma Zdigits2_div m k :
  0 < m -> 0 <= k < Zdigits2 m ->
  0 < m / 2 ^ k /\ Zdigits2 (m / 2 ^ k) = Zdigits2 m - k.
Proof.
  intros Hm Hk. pose proof (Zdigits2_bounds m Hm) as [Hlo Hhi].
  set (D := Zdigits2 m) in *.
  assert (0 < 2 ^ k) as Hpk by (apply Z.pow_pos_nonneg; lia).
  assert (2 ^ (D - 1) = 2 ^ (D - k - 1) * 2 ^ k) as H1.
  { rewrite <- Z.pow_add_r by lia. f_equal. lia. }
  assert (2 ^ D = 2 ^ (D - k) * 2 ^ k) as H2.
  { rewrite <- Z.pow_add_r by lia. f_equal. lia. }
  assert (0 < 2 ^ (D - k - 1)) as Hp1 by (apply Z.pow_pos_nonneg; lia).
  assert (2 ^ (D - k - 1) <= m / 2 ^ k) as Hq1.
  { apply Z.div_le_lower_bound; [exact Hpk|]. lia. }
  assert (m / 2 ^ k < 2 ^ (D - k)) as Hq2.
  { apply Z.div_lt_upper_bound; [exact Hpk|]. lia. }
  split; [lia|]. apply Zdigits2_unique; [|lia]. split; [exact Hq1 | exact Hq2].
Qed.

(** Dropping all the digits leaves zero. *)
Lemma Zdigits2_div_zero m k :
  0 <= m -> Zdigits2 m <= k -> m / 2 ^ k = 0.
Proof.
  intros Hm Hk. destruct (Z.eq_dec m 0) as [->|Hne].
  - apply Z.div_0_l. apply Z.pow_nonzero; [lia|]. pose proof (Zdigits2_nonneg 0). lia.
  - pose proof (Zdigits2_bounds m ltac:(lia)) as [_ Hhi].
    pose proof (Zdigits2_pos m ltac:(lia)).
    apply Z.div_small. split; [lia|].
    assert (2 ^ Zdigits2 m <= 2 ^ k) by (apply Z.pow_le_mono_r; lia). lia.
Qed.

(** Adding one keeps the number of digits, or gives the next power of two. *)
Lemma Zdigits2_succ m :
  0 < m ->
  Zdigits2 (m + 1) = Zdigits2 m \/
  (m + 1 = 2 ^ Zdigits2 m /\ Zdigits2 (m + 1) = Zdigits2 m + 1).
Proof.
  intros Hm. pose proof (Zdigits2_bounds m Hm) as [Hlo Hhi].
  pose proof (Zdigits2_pos m Hm) as HD. set (D := Zdigits2 m) in *.
  destruct (Z.eq_dec (m + 1) (2 ^ D)) as [Heq|Hne].
  - right. split; [exact Heq|]. apply Zdigits2_unique; [|lia].
    replace (D + 1 - 1) with D by lia. rewrite Z.pow_add_r by lia.
    change (2 ^ 1) with 2. lia.
  - left. apply Zdigits2_unique; [|lia]. lia.
Qed.

Lemma Zdigits2_pow2 k : 0 <= k -> Zdigits2 (2 ^ k) = k + 1.
Proof.
  intros Hk. assert (0 < 2 ^ k) by (apply Z.pow_pos_nonneg; lia).
  apply Zdigits2_unique; [|lia]. replace (k + 1 - 1) with k by lia.
  rewrite Z.pow_add_r by lia. change (2 ^ 1) with 2. lia.
Qed.

Lemma fexp_eq x : fexp prec emax x = Z.max (x - 53) (-1074).
Proof. reflexivity. Qed.

(** ** The rounding step returns a canonical value *)

(** A positive mantissa at its format exponent makes a valid value that is
    no zero. *)
Lemma build_valid s m e :
  0 < m -> fexp prec emax (Zdigits2 m + e) = e ->
  let r := match m with
           | Z0 => S754_zero s
           | Z.pos p => if e <=? emax - prec then S754_finite s p e else S754_infinity s
           | Z.neg _ => S754_nan
           end in
  valid_binary r = true /\
  ((exists p e', r = S754_finite s p e') \/ r = S754_infinity s) /\
  (r = S754_infinity s -> emax - prec < e).
Proof.
  intros Hm Hc. destruct m as [|p|p]; try lia. cbn zeta.
  destruct (e <=? emax - prec) eqn:Hov.
  - split; [|split; [left; eauto | discriminate]].
    cbn [valid_binary]. unfold bounded, canonical_mantissa.
    cbn [Zdigits2] in Hc. rewrite Hc, Z.eqb_refl, Hov. reflexivity.
  - apply Z.leb_gt in Hov.
    split; [reflexivity | split; [right; reflexivity | intros _; exact Hov]].
Qed.

Lemma pow2_div2 k : 0 < k -> 2 ^ k / 2 ^ 1 = 2 ^ (k - 1).
Proof.
  intros Hk. replace k with (k - 1 + 1) at 1 by lia.
  rewrite Z.pow_add_r by lia. apply Z.div_mul. discriminate.
Qed.

(** The rounding step on a mantissa at or below its format exponent. *)
Lemma binary_round_aux_valid s mx ex lx :
  0 <= mx -> ex <= fexp prec emax (Zdigits2 mx + ex) ->
  valid_binary (binary_round_aux prec emax s mx ex lx) = true /\
  (fexp prec emax (Zdigits2 mx + ex) - ex < Zdigits2 mx ->
   (exists p e', binary_round_aux prec emax s mx ex lx = S754_finite s p e') \/
   binary_round_aux prec emax s mx ex lx = S754_infinity s) /\
  (binary_round_aux prec emax s mx ex lx = S754_infinity s ->
   emax - prec <= fexp prec emax (Zdigits2 mx + ex)).
Proof.
  intros Hmx Hpre.
  destruct (binary_round_aux_cases s mx ex lx Hmx)
    as (m1 & e1 & m2 & e2 & He1 & Hm1 & He2 & Hm2 & ->).
  set (D := Zdigits2 mx) in *. set (x := D + ex) in *.
  assert (e1 = fexp prec emax x) as He1' by lia. clear He1.
  assert (0 <= e1 - ex) as Hk by lia.
  pose proof (fexp_eq x) as Hfx. pose proof (fexp_eq (x + 1)) as Hfx1.
  destruct (Z.lt_ge_cases (e1 - ex) D) as [Hlt|Hge].
  - (* some digits remain after the first shift *)
    assert (0 < mx) as Hpos.
    { destruct (Z.eq_dec mx 0) as [H0|H0]; [|lia].
      unfold D in Hlt. rewrite H0 in Hlt. cbn in Hlt. lia. }
    destruct (Zdigits2_div mx (e1 - ex) Hpos ltac:(fold D; lia)) as [Hq Hdq].
    fold D in Hdq. set (q := mx / 2 ^ (e1 - ex)) in *.
    assert (Zdigits2 q + e1 = x) as Hqx by (unfold x; lia).
    assert (forall m, 0 < m -> Zdigits2 m + e1 = x -> m1 = m ->
              e2 = e1 /\ m2 = m) as Hsame.
    { intros m Hm0 Hmx' ->. rewrite Hmx' in He2.
      assert (e2 = e1) as -> by lia. split; [reflexivity|].
      rewrite Hm2, Z.sub_diag. apply Z.div_1_r. }
    assert (valid_binary
              match m2 with
              | 0 => S754_zero s
              | Z.pos m => if e2 <=? emax - prec then S754_finite s m e2 else S754_infinity s
              | Z.neg _ => S754_nan
              end = true /\
            ((exists p e',
                match m2 with
                | 0 => S754_zero s
                | Z.pos m => if e2 <=? emax - prec then S754_finite s m e2 else S754_infinity s
                | Z.neg _ => S754_nan
                end = S754_finite s p e') \/
             match m2 with
             | 0 => S754_zero s
             | Z.pos m => if e2 <=? emax - prec then S754_finite s m e2 else S754_infinity s
             | Z.neg _ => S754_nan
             end = S754_infinity s) /\
            (match m2 with
             | 0 => S754_zero s
             | Z.pos m => if e2 <=? emax - prec then S754_finite s m e2 else S754_infinity s
             | Z.neg _ => S754_nan
             end = S754_infinity s -> emax - prec < e2 <= e1 + 1)) as Hgoal.
    { destruct Hm1 as [Hm1|Hm1].
      - destruct (Hsame q Hq Hqx Hm1) as [-> ->].
        destruct (build_valid s q e1 Hq ltac:(rewrite Hqx; lia)) as (B1 & B2 & B3).
        split; [exact B1|]. split; [exact B2|]. intros Hi. specialize (B3 Hi). lia.
      - destruct (Zdigits2_succ q Hq) as [Hd|[Hp Hd]].
        + destruct (Hsame (q + 1) ltac:(lia) ltac:(lia) Hm1) as [-> ->].
          destruct (build_valid s (q + 1) e1 ltac:(lia) ltac:(rewrite Hd, Hqx; lia))
            as (B1 & B2 & B3).
          split; [exact B1|]. split; [exact B2|]. intros Hi. specialize (B3 Hi). lia.
        + assert (Zdigits2 m1 + e1 = x + 1) as Hx1 by (rewrite Hm1; lia).
          rewrite Hx1 in He2.
          destruct (Z.eq_dec (fexp prec emax (x + 1)) e1) as [Hf|Hf].
          * assert (e2 = e1) as -> by lia.
            assert (m2 = m1) as -> by (rewrite Hm2, Z.sub_diag; apply Z.div_1_r).
            destruct (build_valid s m1 e1 ltac:(lia) ltac:(rewrite Hx1; exact Hf))
              as (B1 & B2 & B3).
            split; [exact B1|]. split; [exact B2|]. intros Hi. specialize (B3 Hi). lia.
          * assert (e2 = e1 + 1) as -> by lia.
            assert (0 < Zdigits2 q) as Hdq0 by (apply Zdigits2_pos; exact Hq).
            assert (m2 = 2 ^ (Zdigits2 q - 1)) as ->.
            { rewrite Hm2, Hm1, Hp. replace (e1 + 1 - e1) with 1 by lia.
              apply pow2_div2. exact Hdq0. }
            destruct (build_valid s (2 ^ (Zdigits2 q - 1)) (e1 + 1)) as (B1 & B2 & B3).
            { apply Z.pow_pos_nonneg; lia. }
            { rewrite Zdigits2_pow2 by lia.
              replace (Zdigits2 q - 1 + 1 + (e1 + 1)) with (x + 1) by lia. lia. }
            split; [exact B1|]. split; [exact B2|]. intros Hi. specialize (B3 Hi). lia. }
    destruct Hgoal as (G1 & G2 & G3).
    split; [exact G1|]. split; [intros _; exact G2|].
    intros Hi. specialize (G3 Hi). fold D. fold x. lia.
  - (* every digit is shifted out: the result is zero or the least value *)
    assert (mx / 2 ^ (e1 - ex) = 0) as Hq0
      by (apply Zdigits2_div_zero; [exact Hmx | fold D; lia]).
    rewrite Hq0 in Hm1.
    destruct Hm1 as [->| ->].
    + assert (m2 = 0) as -> by (rewrite Hm2; apply Z.div_0_l; apply Z.pow_nonzero; lia).
      split; [reflexivity|]. split; [fold D; lia | discriminate].
    + assert (e1 = -1074) as He1v by (unfold x in *; lia).
      change (Zdigits2 (0 + 1)) with 1 in He2.
      pose proof (fexp_eq (1 + e1)) as Hf1.
      assert (e2 = e1) as -> by lia.
      assert (m2 = 1) as -> by (rewrite Hm2, Z.sub_diag; reflexivity).
      rewrite He1v. split; [reflexivity|]. split; [fold D; lia | discriminate].
Qed.

(** ** [float(n)] for a positive integer *)

Lemma iter_xO_mul p d : Z.pos (Pos.iter xO p d) = Z.pos p * 2 ^ Z.pos d.
Proof.
  induction d as [|d IH] using Pos.peano_ind.
  - cbn [Pos.iter]. rewrite Pos2Z.inj_xO. change (2 ^ 1) with 2. lia.
  - rewrite Pos.iter_succ, Pos2Z.inj_xO, IH, Pos2Z.inj_succ.
    rewrite Z.pow_succ_r by lia. lia.
Qed.

Lemma Zdigits2_mul_pow2 m k :
  0 < m -> 0 <= k -> Zdigits2 (m * 2 ^ k) = Zdigits2 m + k.
Proof.
  intros Hm Hk. pose proof (Zdigits2_bounds m Hm) as [Hlo Hhi].
  pose proof (Zdigits2_pos m Hm).
  assert (0 < 2 ^ k) by (apply Z.pow_pos_nonneg; lia).
  apply Zdigits2_unique; [|nia].
  replace (Zdigits2 m + k - 1) with (Zdigits2 m - 1 + k) by lia.
  rewrite !Z.pow_add_r by lia. nia.
Qed.

(** Rounding a positive integer gives a canonical positive value or plus
    infinity, and infinity only for an integer of 1024 bits or more. *)
Lemma binary_round_int p :
  valid_binary (binary_round prec emax false p 0) = true /\
  ((exists m e, binary_round prec emax false p 0 = S754_finite false m e) \/
   binary_round prec emax false p 0 = S754_infinity false) /\
  (binary_round prec emax false p 0 = S754_infinity false ->
   1024 <= Z.pos (digits2_pos p)).
Proof.
  unfold binary_round, shl_align.
  set (dp := Z.pos (digits2_pos p)).
  assert (0 < dp) as Hdp by (unfold dp; lia).
  pose proof (fexp_eq (dp + 0)) as Hf.
  destruct (fexp prec emax (dp + 0) - 0) as [|k|k] eqn:Ek.
  - destruct (binary_round_aux_valid false (Z.pos p) 0 loc_Exact ltac:(lia))
      as (Hv & Hp & Hi).
    + cbn [Zdigits2]. fold dp. lia.
    + split; [exact Hv|]. split.
      * apply Hp. cbn [Zdigits2]. fold dp. lia.
      * intros H. specialize (Hi H). cbn [Zdigits2] in Hi. fold dp in Hi.
        change (emax - prec) with 971 in Hi. lia.
  - destruct (binary_round_aux_valid false (Z.pos p) 0 loc_Exact ltac:(lia))
      as (Hv & Hp & Hi).
    + cbn [Zdigits2]. fold dp. lia.
    + split; [exact Hv|]. split.
      * apply Hp. cbn [Zdigits2]. fold dp. lia.
      * intros H. specialize (Hi H). cbn [Zdigits2] in Hi. fold dp in Hi.
        change (emax - prec) with 971 in Hi. lia.
  - assert (Zdigits2 (Z.pos (Pos.iter xO p k)) = dp + Z.pos k) as Hd.
    { rewrite iter_xO_mul. apply (Zdigits2_mul_pow2 (Z.pos p)); lia. }
    pose proof (fexp_eq (dp + Z.pos k + fexp prec emax (dp + 0))) as Hf2.
    destruct (binary_round_aux_valid false (Z.pos (Pos.iter xO p k))
                (fexp prec emax (dp + 0)) loc_Exact ltac:(lia)) as (Hv & Hp & Hi).
    + rewrite Hd. lia.
    + split; [exact Hv|]. split.
      * apply Hp. rewrite Hd. lia.
      * intros H. specialize (Hi H). rewrite Hd in Hi.
        change (emax - prec) with 971 in Hi. lia.
Qed.

(** [float(n)] of a positive integer, where it does not overflow, is a
    positive finite value. *)
Lemma of_int_pos n cus :
  0 < n -> PyFloat.of_int n = inr cus -> SF_pos_finite (Prim2SF cus).
Proof.
  intros Hn. destruct n as [|p|p]; try lia. unfold PyFloat.of_int.
  cbn [binary_normalize].
  destruct (binary_round_int p) as (Hv & [(m & e & Hr)|Hr] & _); rewrite Hr in Hv |- *.
  - set (f := SF2Prim (S754_finite false m e)).
    intros H. change (inr f = inr cus :> result float) in H.
    injection H as <-. unfold f.
    rewrite Prim2SF_SF2Prim by exact Hv. reflexivity.
  - discriminate.
Qed.

(** [float(n)] is finite for a positive integer below [2^1023]. *)
Lemma of_int_finite n :
  0 < n < 2 ^ 1023 -> exists cus, PyFloat.of_int n = inr cus.
Proof.
  intros [Hn Hlt]. destruct n as [|p|p]; try lia. unfold PyFloat.of_int.
  cbn [binary_normalize].
  destruct (binary_round_int p) as (_ & [(m & e & Hr)|Hr] & Hi).
  - rewrite Hr. eexists. reflexivity.
  - exfalso. specialize (Hi Hr).
    pose proof (digits2_pos_bounds p) as [Hlo _].
    assert (2 ^ 1023 <= 2 ^ (Z.pos (digits2_pos p) - 1))
      by (apply Z.pow_le_mono_r; lia).
    lia.
Qed.

(** [float(n)] raises nothing but [OverflowError]. *)
Lemma of_int_inl n e : PyFloat.of_int n = inl e -> e = OverflowError.
Proof.
  unfold PyFloat.of_int.
  destruct (binary_normalize prec emax n 0 false); [discriminate| |discriminate|discriminate].
  intros [= <-]. reflexivity.
Qed.

(** ** Divisors that are never zero *)

Lemma eqb_0_false_pos x : SF_pos_finite (Prim2SF x) -> PrimFloat.eqb x 0 = false.
Proof.
  rewrite FloatAxioms.eqb_spec. change (Prim2SF 0) with (S754_zero false).
  destruct (Prim2SF x) as [s|s| |s m e]; cbn [SF_pos_finite]; try contradiction.
  intros ->. reflexivity.
Qed.

Lemma eqb_0_true x :
  PrimFloat.eqb x 0 = true -> exists s, Prim2SF x = S754_zero s.
Proof.
  rewrite FloatAxioms.eqb_spec. change (Prim2SF 0) with (S754_zero false).
  destruct (Prim2SF x) as [s|s| |s m e]; cbn; try discriminate.
  - intros _. eauto.
  - destruct s; discriminate.
  - destruct s; discriminate.
Qed.

(** [max(w, 1.0)] is never zero. *)
Lemma max_1_nonzero w : PrimFloat.eqb (PyFloat.max w 1) 0 = false.
Proof.
  unfold PyFloat.max. destruct (PrimFloat.ltb w 1) eqn:Hlt.
  - vm_compute. reflexivity.
  - destruct (PrimFloat.eqb w 0) eqn:E; [|reflexivity].
    apply eqb_0_true in E as [s Hs].
    rewrite FloatAxioms.ltb_spec, Hs, Prim2SF_1 in Hlt. discriminate Hlt.
Qed.

Lemma truediv_inr a b :
  PrimFloat.eqb b 0 = false -> PyFloat.truediv a b = inr (PrimFloat.div a b).
Proof. intros H. unfold PyFloat.truediv. rewrite H. reflexivity. Qed.

(* ===================================================================== *)
(** * The metric deriver *)
(* ===================================================================== *)

(** ** The metric deriver *)

(** The constant 100 as a canonical positive value. *)
Lemma Prim2SF_100 :
  exists M E, Prim2SF 100 = S754_finite false M E /\ bounded prec emax M E = true.
Proof.
  pose proof (Prim2SF_valid 100) as H.
  assert (exists M E, Prim2SF 100 = S754_finite false M E) as (M & E & HM)
    by (eexists; eexists; vm_compute; reflexivity).
  exists M, E. split; [exact HM|]. rewrite HM in H. exact H.
Qed.

(** The result of the rounding step carries the sign it was given. *)
Lemma binary_round_aux_sign s mx ex lx :
  0 <= mx ->
  match binary_round_aux prec emax s mx ex lx with
  | S754_zero s' | S754_infinity s' | S754_finite s' _ _ => s' = s
  | S754_nan => False
  end.
Proof.
  intros Hmx.
  destruct (binary_round_aux_cases s mx ex lx Hmx)
    as (m1 & e1 & m2 & e2 & He1 & Hm1 & He2 & Hm2 & ->).
  assert (0 <= mx / 2 ^ (e1 - ex)) by (apply Z.div_pos; lia).
  assert (0 <= m1) by lia.
  assert (0 <= m2) by (rewrite Hm2; apply Z.div_pos; lia).
  destruct m2 as [|p|p]; [reflexivity| |lia].
  destruct (e2 <=? emax - prec); reflexivity.
Qed.

Lemma compare_one_Eq m e :
  SFcompare (S754_finite false m e) (Prim2SF 1) = Some Eq ->
  S754_finite false m e = Prim2SF 1.
Proof.
  rewrite Prim2SF_1. cbn [SFcompare].
  destruct (Z.compare_spec e (-52)) as [Heq|Hlt|Hgt]; [|discriminate|discriminate].
  intros H. assert (Pos.compare_cont Eq m 4503599627370496 = Eq) as Hc by congruence.
  apply Pos.compare_eq in Hc. congruence.
Qed.

Lemma mul_1_100 : PrimFloat.leb (PrimFloat.mul 1 100) 100 = true.
Proof. vm_compute. reflexivity. Qed.

(** [min(q, 1.0) * 100] never exceeds 100: it is at most 100, or the NaN. *)
Lemma spec_cu_utilization_le tw cus :
  PrimFloat.is_nan (spec_cu_utilization tw cus) = false ->
  PrimFloat.leb (spec_cu_utilization tw cus) 100 = true.
Proof.
  unfold spec_cu_utilization. set (q := PrimFloat.div tw cus). clearbody q.
  unfold PyFloat.min. destruct (PrimFloat.ltb 1 q) eqn:Hlt; [intros _; exact mul_1_100|].
  intros Hnan. apply is_nan_false in Hnan.
  pose proof (Prim2SF_valid (PrimFloat.mul q 100)) as Hvalid.
  rewrite FloatAxioms.leb_spec. rewrite FloatAxioms.ltb_spec in Hlt.
  rewrite mul_spec in Hnan, Hvalid |- *. unfold SF64mul in *.
  pose proof (Prim2SF_valid q) as Hvq.
  destruct Prim2SF_100 as (M & E & H100 & BM). rewrite H100 in *.
  destruct (Prim2SF q) as [s|s| |s m e] eqn:Hq.
  - cbn [SFmul]. destruct (xorb s false); reflexivity.
  - cbn [SFmul]. destruct s; [reflexivity|].
    rewrite Prim2SF_1 in Hlt. discriminate Hlt.
  - cbn [SFmul] in Hnan. contradiction.
  - destruct s.
    + cbn [SFmul xorb] in *.
      pose proof (binary_round_aux_sign true (Z.pos (m * M)) (e + E) loc_Exact
                    ltac:(lia)) as Hs.
      destruct (binary_round_aux prec emax true (Z.pos (m * M)) (e + E) loc_Exact)
        as [s'|s'| |s' m' e']; try contradiction; subst s'; reflexivity.
    + cbn [valid_binary] in Hvq.
      unfold SFltb in Hlt.
      rewrite (SFcompare_antisym (S754_finite false m e) (Prim2SF 1)) in Hlt.
      destruct (SFcompare (S754_finite false m e) (Prim2SF 1)) as [[]|] eqn:Hc;
        cbn [option_map CompOpp] in Hlt; try discriminate Hlt.
      * apply compare_one_Eq in Hc. rewrite Hc, <- H100.
        rewrite <- FloatAxioms.mul_spec, <- FloatAxioms.leb_spec. exact mul_1_100.
      * apply SFmul_below_one_le; assumption.
      * rewrite Prim2SF_1 in Hc. discriminate Hc.
Qed.

(** With a non-negative workgroup count and a positive finite number of
    compute units the utilisation is non-negative. *)
Lemma spec_cu_utilization_nonneg tw cus :
  PrimFloat.leb 0 tw = true -> SF_pos_finite (Prim2SF cus) ->
  PrimFloat.leb 0 (spec_cu_utilization tw cus) = true.
Proof.
  intros Htw Hcus. apply leb_0_nonneg in Htw. apply leb_0_nonneg.
  unfold spec_cu_utilization. rewrite mul_spec. unfold SF64mul.
  apply SFmul_nonneg.
  - unfold PyFloat.min. destruct (PrimFloat.ltb 1 (PrimFloat.div tw cus)).
    + rewrite Prim2SF_1. reflexivity.
    + rewrite div_spec. apply SFdiv_nonneg; assumption.
  - destruct Prim2SF_100 as (M & E & H100 & _). rewrite H100. reflexivity.
Qed.

Lemma leb_not_nan_r x y : PrimFloat.leb x y = true -> PrimFloat.is_nan y = false.
Proof. intros H. apply leb_not_nan in H. apply H. Qed.

Lemma eqb_1000_0 : PrimFloat.eqb 1000 0 = false.
Proof. vm_compute. reflexivity. Qed.

(** [compute_metrics] computes the time and the workgroup count without
    raising; what is left is the utilisation. *)
Lemma compute_metrics_eq row n :
  compute_metrics row n
  = (u ← cu_utilization_of (spec_total_workgroups row) n;
     mret (spec_time_us row, spec_total_workgroups row, u)).
Proof.
  unfold compute_metrics.
  rewrite (truediv_inr _ 1000 eqb_1000_0).
  rewrite !(truediv_inr _ _ (max_1_nonzero _)).
  reflexivity.
Qed.

Lemma cu_utilization_of_nonpos tw n :
  n <= 0 -> cu_utilization_of tw n = inr 0%float.
Proof.
  intros Hn. unfold cu_utilization_of.
  rewrite (proj2 (Z.leb_le n 0) Hn). reflexivity.
Qed.

Lemma cu_utilization_of_pos tw n cus :
  0 < n -> PyFloat.of_int n = inr cus ->
  cu_utilization_of tw n = inr (spec_cu_utilization tw cus).
Proof.
  intros Hn Hc. unfold cu_utilization_of.
  rewrite (proj2 (Z.leb_gt n 0) Hn), Hc. cbn [mbind result_bind].
  rewrite (truediv_inr _ _ (eqb_0_false_pos _ (of_int_pos n cus Hn Hc))).
  reflexivity.
Qed.

Lemma cu_utilization_of_overflow tw n e :
  0 < n -> PyFloat.of_int n = inl e ->
  cu_utilization_of tw n = inl OverflowError.
Proof.
  intros Hn Hc. unfold cu_utilization_of.
  rewrite (proj2 (Z.leb_gt n 0) Hn), Hc.
  rewrite (of_int_inl n e Hc). reflexivity.
Qed.

(** What [compute_metrics] returns, by the sign of the number of compute
    units and the outcome of its conversion to a float. *)
Lemma compute_metrics_cases row n :
  (n <= 0 /\
   compute_metrics row n = inr (spec_time_us row, spec_total_workgroups row, 0%float)) \/
  (0 < n /\ exists cus,
     PyFloat.of_int n = inr cus /\ SF_pos_finite (Prim2SF cus) /\
     compute_metrics row n
     = inr (spec_time_us row, spec_total_workgroups row,
            spec_cu_utilization (spec_total_workgroups row) cus)) \/
  (2 ^ 1023 <= n /\ PyFloat.of_int n = inl OverflowError /\
   compute_metrics row n = inl OverflowError).
Proof.
  rewrite compute_metrics_eq.
  destruct (Z.le_gt_cases n 0) as [Hn|Hn].
  - left. split; [exact Hn|]. rewrite cu_utilization_of_nonpos by exact Hn. reflexivity.
  - right. destruct (PyFloat.of_int n) as [e|cus] eqn:Hc.
    + right. pose proof (of_int_inl n e Hc) as ->.
      split; [|split; [reflexivity|]].
      * destruct (Z.lt_ge_cases n (2 ^ 1023)) as [Hlt|Hge]; [|exact Hge].
        destruct (of_int_finite n (conj Hn Hlt)) as [cus Hc']. congruence.
      * rewrite (cu_utilization_of_overflow _ n OverflowError Hn Hc). reflexivity.
    + left. split; [exact Hn|]. exists cus. split; [reflexivity|].
      split; [exact (of_int_pos n cus Hn Hc)|].
      rewrite (cu_utilization_of_pos _ n cus Hn Hc). reflexivity.
Qed.

(** X1: for every row and every number of compute units below 2^1023,
    [compute_metrics] raises nothing, whatever the fields hold (no division
    by zero for any workgroup size), and returns the time
    [(End - Start) / 1000], the workgroup count with each workgroup size
    raised to at least 1, and the utilisation: 0 for a number of compute
    units that is not positive, [min(count / float(cus), 1.0) * 100]
    otherwise. *)
Theorem compute_metrics_returns (row : Row) (n : Z) :
  n < 2 ^ 1023 ->
  exists u,
    compute_metrics row n
    = inr (spec_time_us row, spec_total_workgroups row, u) /\
    (n <= 0 -> u = 0%float) /\
    (0 < n -> exists cus,
       PyFloat.of_int n = inr cus /\
       u = spec_cu_utilization (spec_total_workgroups row) cus).
Proof.
  intros Hn.
  destruct (compute_metrics_cases row n)
    as [[Hle H]|[(Hpos & cus & Hc & _ & H)|(Hge & _)]]; [| |lia].
  - exists 0%float. split; [exact H|]. split; [reflexivity | lia].
  - eexists. split; [exact H|]. split; [lia|].
    intros _. exists cus. split; [exact Hc | reflexivity].
Qed.

Lemma compute_metrics_returns_witness :
  exists u,
    compute_metrics Examples.row5 100
    = inr (spec_time_us Examples.row5, spec_total_workgroups Examples.row5, u) /\
    (100 <= 0 -> u = 0%float) /\
    (0 < 100 -> exists cus,
       PyFloat.of_int 100 = inr cus /\
       u = spec_cu_utilization (spec_total_workgroups Examples.row5) cus).
Proof.
  apply (compute_metrics_returns Examples.row5 100).
  vm_compute. reflexivity.
Defined.

(** X2: the only exception [compute_metrics] raises is the [OverflowError]
    of [float(num_cus)], and only for a number of compute units of 2^1023 or
    more. *)
Theorem compute_metrics_raises_only_overflow (row : Row) (n : Z) (e : exn) :
  compute_metrics row n = inl e ->
  e = OverflowError /\ 2 ^ 1023 <= n /\ PyFloat.of_int n = inl OverflowError.
Proof.
  intros He.
  destruct (compute_metrics_cases row n)
    as [[_ H]|[(_ & cus & _ & _ & H)|(Hge & Hc & H)]];
    rewrite H in He; try discriminate He.
  split; [congruence|]. split; [exact Hge | exact Hc].
Qed.

Lemma compute_metrics_raises_only_overflow_witness :
  OverflowError = OverflowError /\ 2 ^ 1023 <= 2 ^ 1024 /\
  PyFloat.of_int (2 ^ 1024) = inl OverflowError.
Proof.
  apply (compute_metrics_raises_only_overflow Examples.row5 (2 ^ 1024) OverflowError).
  vm_compute. reflexivity.
Defined.

(** X3: the utilisation [compute_metrics] returns never exceeds 100: it is
    at most 100 or it is the NaN, whatever the row and the number of compute
    units. *)
Theorem cu_utilization_at_most_100 (row : Row) (n : Z) (t tw u : float) :
  compute_metrics row n = inr (t, tw, u) ->
  PrimFloat.is_nan u = false ->
  PrimFloat.leb u 100 = true.
Proof.
  intros H Hnan.
  destruct (compute_metrics_cases row n)
    as [[_ H']|[(_ & cus & _ & _ & H')|(_ & _ & H')]];
    rewrite H' in H; try discriminate H.
  - assert (u = 0%float) as -> by congruence. vm_compute. reflexivity.
  - assert (u = spec_cu_utilization (spec_total_workgroups row) cus) as -> by congruence.
    apply spec_cu_utilization_le. exact Hnan.
Qed.

Lemma cu_utilization_at_most_100_witness :
  PrimFloat.leb 100 100 = true.
Proof.
  apply (cu_utilization_at_most_100 Examples.row5 100 4 256 100).
  - vm_compute. reflexivity.
  - vm_compute. reflexivity.
Defined.

(** X4: where the workgroup count [compute_metrics] returns is not negative
    (and no NaN), the utilisation lies in [0, 100] for a positive number of
    compute units; for a number of compute units that is not positive the
    utilisation is exactly 0. *)
Theorem cu_utilization_range (row : Row) (n : Z) (t tw u : float) :
  compute_metrics row n = inr (t, tw, u) ->
  (n <= 0 -> u = 0%float) /\
  (0 < n -> PrimFloat.leb 0 tw = true ->
   PrimFloat.leb 0 u = true /\ PrimFloat.leb u 100 = true).
Proof.
  intros H.
  destruct (compute_metrics_cases row n)
    as [[Hle H']|[(Hpos & cus & _ & Hcus & H')|(_ & _ & H')]];
    rewrite H' in H; try discriminate H.
  - split; [intros _; congruence | lia].
  - split; [lia|]. intros _ Htw.
    assert (tw = spec_total_workgroups row) as Etw by congruence.
    assert (u = spec_cu_utilization (spec_total_workgroups row) cus) as -> by congruence.
    rewrite Etw in Htw.
    pose proof (spec_cu_utilization_nonneg _ cus Htw Hcus) as Hlo.
    split; [exact Hlo|]. apply spec_cu_utilization_le.
    exact (leb_not_nan_r _ _ Hlo).
Qed.

Lemma cu_utilization_range_witness :
  (100 <= 0 -> 100%float = 0%float) /\
  (0 < 100 -> PrimFloat.leb 0 256 = true ->
   PrimFloat.leb 0 100 = true /\ PrimFloat.leb 100 100 = true).
Proof.
  apply (cu_utilization_range Examples.row5 100 4 256 100).
  vm_compute. reflexivity.
Defined.

(** X5: the divisor [max(size, 1.0)] of a workgroup size that is no NaN is
    at least 1: it is the size itself where the size is at least 1, and 1.0
    where the size is below 1 (zero, negative, or the 0.0 of a missing or
    unparsable field). *)
Theorem workgroup_divisor_floored (w : float) :
  PrimFloat.is_nan w = false ->
  floored_at_1 w (PyFloat.max w 1).
Proof.
  intros Hnan. unfold floored_at_1, PyFloat.max.
  destruct (PrimFloat.ltb w 1) eqn:Hlt.
  - split; [vm_compute; reflexivity|]. split; [|reflexivity].
    intros Hle. rewrite FloatAxioms.leb_spec in Hle.
    rewrite FloatAxioms.ltb_spec in Hlt. unfold SFleb in Hle. unfold SFltb in Hlt.
    rewrite (SFcompare_antisym (Prim2SF w) (Prim2SF 1)) in Hle.
    destruct (SFcompare (Prim2SF w) (Prim2SF 1)) as [[]|];
      cbn [option_map CompOpp] in Hle; discriminate.
  - split; [|split; [reflexivity | discriminate]].
    apply ltb_false_leb; [exact Hnan | vm_compute; reflexivity | exact Hlt].
Qed.

Lemma workgroup_divisor_floored_witness :
  floored_at_1 0 (PyFloat.max 0 1).
Proof.
  apply (workgroup_divisor_floored 0). vm_compute. reflexivity.
Defined.

(* ===================================================================== *)
(** * Half-window selector: inversion, empty window, missing column *)
(* ===================================================================== *)

(** What the generator yields, started or not: nothing, or the rows from
    the occurrence with the start index on. *)
Lemma half_loop_inv kernel_col marker S k rows :
  (half_loop S kernel_col marker {| occ_index := k; started := false |} rows).2 = []
  \/ exists pre r post,
       rows = pre ++ r :: post /\
       is_occurrence kernel_col marker r = true /\
       count_loop kernel_col marker k pre = S /\
       (half_loop S kernel_col marker {| occ_index := k; started := false |} rows).2
       = r :: post.
Proof.
  revert k. induction rows as [|row rows IH]; intros k.
  - left. reflexivity.
  - cbn [half_loop half_step].
    destruct (is_occurrence kernel_col marker row) eqn:E; cbn [occ_index started].
    + destruct (Z.eqb_spec k S) as [->|Hne]; cbn [started].
      * right. exists [], row, rows. rewrite half_loop_started.
        split; [reflexivity|]. split; [exact E|]. split; reflexivity.
      * destruct (IH (k + 1)) as [Hnil|(pre & r & post & -> & Hr & Hc & Hy)].
        -- left. destruct (half_loop _ _ _ _ rows) as [st ys]. exact Hnil.
        -- right. exists (row :: pre), r, post.
           split; [reflexivity|]. split; [exact Hr|]. split.
           ++ rewrite count_loop_cons, E. exact Hc.
           ++ destruct (half_loop _ _ _ _ (pre ++ r :: post)) as [st ys]. exact Hy.
    + destruct (IH k) as [Hnil|(pre & r & post & -> & Hr & Hc & Hy)].
      * left. destruct (half_loop _ _ _ _ rows) as [st ys]. exact Hnil.
      * right. exists (row :: pre), r, post.
        split; [reflexivity|]. split; [exact Hr|]. split.
        -- rewrite count_loop_cons, E. exact Hc.
        -- destruct (half_loop _ _ _ _ (pre ++ r :: post)) as [st ys]. exact Hy.
Qed.

(** The rows of the example trace from its fifth dispatch on are what the
    selector yields for the start index 1. *)
Lemma example_window :
  process_rows_from_half Examples.fs Examples.trace_path 1
    "Kernel_Name" "rms_norm_f32"
  = inr (Examples.row5 :: drop 5 (DictReader_rows Examples.trace)).
Proof.
  unfold process_rows_from_half, process_rows_from_half_run.
  assert (open_read Examples.fs Examples.trace_path = inr Examples.trace) as ->
    by (vm_compute; reflexivity).
  change (inr (half_loop 1 "Kernel_Name" "rms_norm_f32" half_init
                 (DictReader_rows Examples.trace)).2
          = inr (Examples.row5 :: drop 5 (DictReader_rows Examples.trace))
          :> result (list Row)).
  f_equal.
Qed.

(** X6: every row the selector yields comes from a decomposition of the file:
    what it yields is empty, or it is the tail of the reader's rows that
    begins at the row holding the occurrence with index [S]. *)
Theorem window_starts_at_marker
    (fs : gmap string node) (csv_path : string) (S : Z)
    (kernel_col marker : string) (r : Row) (post : list Row) :
  process_rows_from_half fs csv_path S kernel_col marker = inr (r :: post) ->
  exists recs pre,
    open_read fs csv_path = inr recs /\
    DictReader_rows recs = pre ++ r :: post /\
    is_occurrence kernel_col marker r = true /\
    count_loop kernel_col marker 0 pre = S /\
    count_loop kernel_col marker 0 (r :: post)
    = count_loop kernel_col marker 0 (DictReader_rows recs) - S.
Proof.
  unfold process_rows_from_half, process_rows_from_half_run.
  destruct (open_read fs csv_path) as [e|recs]; [discriminate|].
  intros H.
  assert ((half_loop S kernel_col marker half_init (DictReader_rows recs)).2
          = r :: post) as Hy.
  { change (inr (half_loop S kernel_col marker half_init (DictReader_rows recs)).2
            = inr (r :: post) :> result (list Row)) in H.
    injection H as H. exact H. }
  clear H. unfold half_init in Hy.
  destruct (half_loop_inv kernel_col marker S 0 (DictReader_rows recs))
    as [Hnil|(pre & r' & post' & Hrows & Hr & Hc & Hy')].
  - rewrite Hnil in Hy. discriminate Hy.
  - rewrite Hy' in Hy. injection Hy as -> ->.
    exists recs, pre. split; [reflexivity|]. split; [exact Hrows|].
    split; [exact Hr|]. split; [exact Hc|].
    rewrite Hrows, count_loop_app, Hc.
    rewrite (count_loop_acc kernel_col marker S). lia.
Qed.

Lemma window_starts_at_marker_witness :
  exists recs pre,
    open_read Examples.fs Examples.trace_path = inr recs /\
    DictReader_rows recs
    = pre ++ Examples.row5 :: drop 5 (DictReader_rows Examples.trace) /\
    is_occurrence "Kernel_Name" "rms_norm_f32" Examples.row5 = true /\
    count_loop "Kernel_Name" "rms_norm_f32" 0 pre = 1 /\
    count_loop "Kernel_Name" "rms_norm_f32" 0
      (Examples.row5 :: drop 5 (DictReader_rows Examples.trace))
    = count_loop "Kernel_Name" "rms_norm_f32" 0 (DictReader_rows recs) - 1.
Proof.
  apply (window_starts_at_marker Examples.fs Examples.trace_path 1
           "Kernel_Name" "rms_norm_f32" Examples.row5
           (drop 5 (DictReader_rows Examples.trace))).
  exact example_window.
Defined.

(** X7: the selector yields no row at all exactly when the start index is not
    the index of an occurrence of the file: when it is negative, or when it
    is the number of occurrences or more. *)
Theorem window_empty_iff
    (fs : gmap string node) (csv_path : string) (recs : list record)
    (S : Z) (kernel_col marker : string) :
  open_read fs csv_path = inr recs ->
  (process_rows_from_half fs csv_path S kernel_col marker = inr []
   <-> S < 0 \/ count_loop kernel_col marker 0 (DictReader_rows recs) <= S).
Proof.
  intros Hopen. split.
  - intros Hnil.
    destruct (Z_lt_le_dec S 0) as [?|Hlo]; [left; assumption|].
    destruct (Z_lt_le_dec S (count_loop kernel_col marker 0 (DictReader_rows recs)))
      as [Hhi|?]; [|right; assumption].
    destruct (window_of_count fs csv_path recs S kernel_col marker Hopen
                (conj Hlo Hhi)) as (pre & r & post & _ & _ & _ & Hw).
    rewrite Hw in Hnil. discriminate Hnil.
  - intros HS.
    unfold process_rows_from_half, process_rows_from_half_run. rewrite Hopen.
    change (inr (half_loop S kernel_col marker half_init (DictReader_rows recs)).2
            = inr [] :> result (list Row)).
    f_equal. apply half_loop_none.
    destruct HS as [HS|HS]; [left; exact HS|right; exact HS].
Qed.

Lemma window_empty_iff_witness :
  process_rows_from_half Examples.fs Examples.trace_path (-1)
    "Kernel_Name" "rms_norm_f32" = inr []
  <-> -1 < 0 \/
      count_loop "Kernel_Name" "rms_norm_f32" 0
        (DictReader_rows Examples.trace) <= -1.
Proof.
  apply (window_empty_iff Examples.fs Examples.trace_path Examples.trace (-1)
           "Kernel_Name" "rms_norm_f32").
  vm_compute. reflexivity.
Defined.

(** A key that the header does not name is bound in no row. *)
Lemma foldl_insert_some_lookup (key : string) (kvs : list (string * string))
    (d : Row) :
  key ∉ kvs.*1 ->
  foldl (fun d kv => <[kv.1 := Some kv.2]> d) d kvs !! key = d !! key.
Proof.
  revert d. induction kvs as [|[k v] kvs IH]; intros d Hnot.
  - reflexivity.
  - cbn [foldl]. rewrite IH.
    + apply lookup_insert_ne. intros <-. apply Hnot. left.
    + intros Hin. apply Hnot. right. exact Hin.
Qed.

Lemma foldl_insert_none_lookup (key : string) (ks : list string) (d : Row) :
  key ∉ ks ->
  foldl (fun d k => <[k := None]> d) d ks !! key = d !! key.
Proof.
  revert d. induction ks as [|k ks IH]; intros d Hnot.
  - reflexivity.
  - cbn [foldl]. rewrite IH.
    + apply lookup_insert_ne. intros <-. apply Hnot. left.
    + intros Hin. apply Hnot. right. exact Hin.
Qed.

Lemma dict_row_lookup_absent fieldnames rec key :
  key ∉ fieldnames -> dict_row fieldnames rec !! key = None.
Proof.
  intros Hnot. unfold dict_row.
  rewrite foldl_insert_none_lookup.
  - rewrite foldl_insert_some_lookup; [apply lookup_empty|].
    intros Hin. apply Hnot.
    apply list_elem_of_fmap in Hin as ([k v] & -> & Hin).
    apply list_elem_of_lookup in Hin as [i Hi].
    apply lookup_zip_with_Some in Hi as (x & y & Heq & Hx & _).
    injection Heq as -> ->. eapply list_elem_of_lookup_2. exact Hx.
  - intros Hin. apply Hnot.
    apply list_elem_of_lookup in Hin as [i Hi].
    rewrite lookup_drop in Hi. eapply list_elem_of_lookup_2. exact Hi.
Qed.

(** In a file whose header lacks the column, no row is an occurrence of a
    marker that is not empty. *)
Lemma header_lacks_no_occurrence kernel_col marker recs :
  header_lacks kernel_col (DictReader_fieldnames recs) = true ->
  marker <> EmptyString ->
  count_loop kernel_col marker 0 (DictReader_rows recs) = 0.
Proof.
  intros Hlack Hm. destruct recs as [|fieldnames rest]; [reflexivity|].
  assert (kernel_col ∉ fieldnames) as Hnot.
  { unfold DictReader_fieldnames in Hlack. cbn [head] in Hlack.
    unfold header_lacks in Hlack. destruct fieldnames as [|f fs'].
    - apply not_elem_of_nil.
    - apply negb_true_iff, bool_decide_eq_false in Hlack. exact Hlack. }
  unfold DictReader_rows.
  induction (filter (fun r : record => r <> []) rest) as [|rec l IH].
  - reflexivity.
  - rewrite fmap_cons, count_loop_cons.
    unfold is_occurrence at 1, row_get.
    rewrite (dict_row_lookup_absent fieldnames rec kernel_col Hnot).
    cbn [or_empty]. rewrite (contains_empty_hay marker Hm). exact IH.
Qed.

(** X8: for a file whose header lacks the column the two passes differ: the
    counter raises its [KeyError], the selector raises nothing and yields no
    row, whatever the start index. *)
Theorem missing_column_counter_raises_selector_silent
    (fs : gmap string node) (csv_path : string) (recs : list record)
    (S : Z) (kernel_col marker : string) :
  open_read fs csv_path = inr recs ->
  header_lacks kernel_col (DictReader_fieldnames recs) = true ->
  marker <> EmptyString ->
  count_occurrences fs csv_path kernel_col marker
  = inl (KeyError kernel_col csv_path (DictReader_fieldnames recs)) /\
  process_rows_from_half fs csv_path S kernel_col marker = inr [].
Proof.
  intros Hopen Hlack Hm. split.
  - unfold count_occurrences. rewrite Hopen.
    change (inr recs ≫= _) with
      (if header_lacks kernel_col (DictReader_fieldnames recs)
       then raise (KeyError kernel_col csv_path (DictReader_fieldnames recs))
       else mret (count_loop kernel_col marker 0 (DictReader_rows recs))
       : result Z).
    rewrite Hlack. reflexivity.
  - unfold process_rows_from_half, process_rows_from_half_run. rewrite Hopen.
    change (inr (half_loop S kernel_col marker half_init (DictReader_rows recs)).2
            = inr [] :> result (list Row)).
    f_equal. apply half_loop_none.
    rewrite (header_lacks_no_occurrence kernel_col marker recs Hlack Hm).
    lia.
Qed.

Lemma missing_column_counter_raises_selector_silent_witness :
  count_occurrences Examples.fs Examples.trace_no_column_path
    "Kernel_Name" "rms_norm_f32"
  = inl (KeyError "Kernel_Name" Examples.trace_no_column_path
           (DictReader_fieldnames Examples.trace_no_column)) /\
  process_rows_from_half Examples.fs Examples.trace_no_column_path 0
    "Kernel_Name" "rms_norm_f32" = inr [].
Proof.
  apply (missing_column_counter_raises_selector_silent Examples.fs
           Examples.trace_no_column_path Examples.trace_no_column 0
           "Kernel_Name" "rms_norm_f32").
  - vm_compute. reflexivity.
  - vm_compute. reflexivity.
  - discriminate.
Defined.

(* ===================================================================== *)
(** * Aggregate writer: the outcomes of one trace file *)
(* ===================================================================== *)

(** Below the overflow of [float(num_cus)] the metric deriver returns. *)
Lemma compute_metrics_inr row n :
  n < 2 ^ 1023 -> exists m, compute_metrics row n = inr m.
Proof.
  intros Hn.
  destruct (compute_metrics_cases row n)
    as [(_ & ->)|[(_ & cus & _ & _ & ->)|(Hbig & _)]].
  - eexists. reflexivity.
  - eexists. reflexivity.
  - exfalso. apply (Z.lt_irrefl n). eapply Z.lt_le_trans; eassumption.
Qed.

Lemma write_rows_cons cfg vdir p ub b csv_path row rest :
  write_rows cfg vdir p ub b csv_path (row :: rest)
  = match compute_metrics row (num_cus cfg) with
    | inl e => ([], Some e)
    | inr m =>
        let '(recs, e) := write_rows cfg vdir p ub b csv_path rest in
        (output_row vdir p ub b csv_path row m :: recs, e)
    end.
Proof. reflexivity. Qed.

Lemma write_rows_returns cfg vdir p ub b csv_path rows :
  num_cus cfg < 2 ^ 1023 ->
  exists recs,
    write_rows cfg vdir p ub b csv_path rows = (recs, None) /\
    Forall2 (written_for cfg vdir p ub b csv_path) recs rows.
Proof.
  intros Hn. induction rows as [|row rest (recs & IH & HF)].
  - exists []. split; [reflexivity|constructor].
  - destruct (compute_metrics_inr row (num_cus cfg) Hn) as [m Hm].
    exists (output_row vdir p ub b csv_path row m :: recs).
    rewrite write_rows_cons, Hm, IH. split; [reflexivity|].
    constructor; [|exact HF]. exists m. split; [exact Hm|reflexivity].
Qed.

Lemma main_file_unfold cfg fs vdir p ub b csv_path :
  main_file cfg fs vdir p ub b csv_path
  = match count_occurrences fs csv_path "Kernel_Name" (match_substring cfg) with
    | inl e => ([], [ERROR_failed_counting csv_path e])
    | inr total_occ =>
        if total_occ =? 0
        then ([], [WARNING_no_occurrences (match_substring cfg) csv_path])
        else
          match process_rows_from_half fs csv_path (total_occ / 2)
                  "Kernel_Name" (match_substring cfg) with
          | inl e => ([], [ERROR_processing csv_path e])
          | inr rows =>
              match write_rows cfg vdir p ub b csv_path rows with
              | (recs, None) => (recs, [])
              | (recs, Some e) => (recs, [ERROR_processing csv_path e])
              end
          end
    end.
Proof. reflexivity. Qed.

(** The window of a file with [N > 0] occurrences, started at [N / 2], is
    not empty. *)
Lemma half_window_nonempty fs csv_path kernel_col marker N :
  count_occurrences fs csv_path kernel_col marker = inr N ->
  N <> 0 ->
  0 < N /\
  exists r post,
    is_occurrence kernel_col marker r = true /\
    process_rows_from_half fs csv_path (N / 2) kernel_col marker
    = inr (r :: post).
Proof.
  intros Hc HN.
  destruct (count_occurrences_inr _ _ _ _ _ Hc) as (recs & Hopen & _ & ->).
  pose proof (count_loop_nonneg kernel_col marker (DictReader_rows recs)) as H0.
  set (n := count_loop kernel_col marker 0 (DictReader_rows recs)) in *.
  assert (0 < n) as Hpos by lia. split; [exact Hpos|].
  assert (0 <= n / 2 < n) as Hrange.
  { split; [apply Z.div_pos; lia|apply Z.div_lt; lia]. }
  destruct (window_of_count fs csv_path recs (n / 2) kernel_col marker Hopen Hrange)
    as (pre & r & post & _ & Hr & _ & Hw).
  exists r, post. split; assumption.
Qed.

(** X9: for a number of compute units below the overflow of its conversion,
    a trace file has exactly one of three outcomes. *)
Theorem main_file_outcomes
    (cfg : config) (fs : gmap string node) (vdir : string) (p ub b : Z)
    (csv_path : string) :
  num_cus cfg < 2 ^ 1023 ->
  (exists e,
     count_occurrences fs csv_path "Kernel_Name" (match_substring cfg) = inl e /\
     main_file cfg fs vdir p ub b csv_path
     = ([], [ERROR_failed_counting csv_path e])) \/
  (count_occurrences fs csv_path "Kernel_Name" (match_substring cfg) = inr 0 /\
   main_file cfg fs vdir p ub b csv_path
   = ([], [WARNING_no_occurrences (match_substring cfg) csv_path])) \/
  (exists N rows recs,
     count_occurrences fs csv_path "Kernel_Name" (match_substring cfg) = inr N /\
     0 < N /\
     process_rows_from_half fs csv_path (N / 2) "Kernel_Name" (match_substring cfg)
     = inr rows /\
     rows <> [] /\
     main_file cfg fs vdir p ub b csv_path = (recs, []) /\
     Forall2 (written_for cfg vdir p ub b csv_path) recs rows).
Proof.
  intros Hn. rewrite main_file_unfold.
  destruct (count_occurrences fs csv_path "Kernel_Name" (match_substring cfg))
    as [e|N] eqn:Hc.
  - left. exists e. split; reflexivity.
  - right. destruct (Z.eqb_spec N 0) as [->|HN].
    + left. split; reflexivity.
    + right.
      destruct (half_window_nonempty _ _ _ _ _ Hc HN) as (Hpos & r & post & _ & Hw).
      destruct (write_rows_returns cfg vdir p ub b csv_path (r :: post) Hn)
        as (recs & Hwr & HF).
      exists N, (r :: post), recs. rewrite Hw, Hwr.
      repeat split; try assumption. discriminate.
Qed.

Lemma main_file_outcomes_witness :
  (exists e,
     count_occurrences Examples.fs Examples.trace_path "Kernel_Name"
       (match_substring Examples.cfg) = inl e /\
     main_file Examples.cfg Examples.fs "/prof/p2048_ub512_b512" 2048 512 512
       Examples.trace_path
     = ([], [ERROR_failed_counting Examples.trace_path e])) \/
  (count_occurrences Examples.fs Examples.trace_path "Kernel_Name"
     (match_substring Examples.cfg) = inr 0 /\
   main_file Examples.cfg Examples.fs "/prof/p2048_ub512_b512" 2048 512 512
     Examples.trace_path
   = ([], [WARNING_no_occurrences (match_substring Examples.cfg)
             Examples.trace_path])) \/
  (exists N rows recs,
     count_occurrences Examples.fs Examples.trace_path "Kernel_Name"
       (match_substring Examples.cfg) = inr N /\
     0 < N /\
     process_rows_from_half Examples.fs Examples.trace_path (N / 2)
       "Kernel_Name" (match_substring Examples.cfg) = inr rows /\
     rows <> [] /\
     main_file Examples.cfg Examples.fs "/prof/p2048_ub512_b512" 2048 512 512
       Examples.trace_path = (recs, []) /\
     Forall2 (written_for Examples.cfg "/prof/p2048_ub512_b512" 2048 512 512
                Examples.trace_path) recs rows).
Proof.
  apply (main_file_outcomes Examples.cfg Examples.fs "/prof/p2048_ub512_b512"
           2048 512 512 Examples.trace_path).
  vm_compute. reflexivity.
Defined.

(** X10: a number of compute units whose conversion overflows loses every
    row: a file with occurrences contributes no record, only the
    diagnostic of the [OverflowError] its first row raises. *)
Theorem main_file_overflow
    (cfg : config) (fs : gmap string node) (vdir : string) (p ub b : Z)
    (csv_path : string) (N : Z) (e : exn) :
  0 < num_cus cfg ->
  PyFloat.of_int (num_cus cfg) = inl e ->
  count_occurrences fs csv_path "Kernel_Name" (match_substring cfg) = inr N ->
  N <> 0 ->
  main_file cfg fs vdir p ub b csv_path
  = ([], [ERROR_processing csv_path OverflowError]).
Proof.
  intros Hpos Hov Hc HN. rewrite main_file_unfold, Hc.
  rewrite (proj2 (Z.eqb_neq N 0) HN).
  destruct (half_window_nonempty _ _ _ _ _ Hc HN) as (_ & r & post & _ & Hw).
  rewrite Hw, write_rows_cons, compute_metrics_eq.
  rewrite (cu_utilization_of_overflow _ _ _ Hpos Hov). reflexivity.
Qed.

Lemma main_file_overflow_witness :
  main_file {| root := "/prof"; num_cus := 2 ^ 1024;
               match_substring := "rms_norm_f32" |}
    Examples.fs "/prof/p2048_ub512_b512" 2048 512 512 Examples.trace_path
  = ([], [ERROR_processing Examples.trace_path OverflowError]).
Proof.
  apply (main_file_overflow
           {| root := "/prof"; num_cus := 2 ^ 1024;
              match_substring := "rms_norm_f32" |}
           Examples.fs "/prof/p2048_ub512_b512" 2048 512 512
           Examples.trace_path 3 OverflowError).
  - vm_compute. reflexivity.
  - vm_compute. reflexivity.
  - vm_compute. reflexivity.
  - discriminate.
Defined.

(* ===================================================================== *)
(** * Paths and the invariants of a run *)
(* ===================================================================== *)

(** ** Base names *)

Lemma has_char_cons c d s :
  PyStr.has_char c (String d s) = Ascii.eqb c d || PyStr.has_char c s.
Proof. reflexivity. Qed.

Lemma has_char_app c s t :
  PyStr.has_char c (s +:+ t) = PyStr.has_char c s || PyStr.has_char c t.
Proof.
  induction s as [|d s IH].
  - rewrite append_nil_l. reflexivity.
  - rewrite append_cons, !has_char_cons, IH. apply orb_assoc.
Qed.

Lemma split_last_slash_cons c r :
  PyPath.split_last_slash (String c r)
  = match PyPath.split_last_slash r with
    | (EmptyString, t) =>
        if Ascii.eqb c "/" then (String c EmptyString, t)
        else (EmptyString, String c t)
    | (h, t) => (String c h, t)
    end.
Proof. reflexivity. Qed.

(** A name without a slash has an empty head. *)
Lemma split_last_slash_name f :
  PyStr.has_char "/" f = false ->
  PyPath.split_last_slash f = (EmptyString, f).
Proof.
  induction f as [|c f IH]; intros H.
  - reflexivity.
  - rewrite has_char_cons in H. apply orb_false_elim in H as [Hc Hf].
    rewrite split_last_slash_cons, (IH Hf), Ascii.eqb_sym, Hc. reflexivity.
Qed.

Lemma split_last_slash_app x f :
  PyStr.has_char "/" f = false ->
  PyPath.split_last_slash (x +:+ f)
  = ((PyPath.split_last_slash x).1, (PyPath.split_last_slash x).2 +:+ f).
Proof.
  intros Hf. induction x as [|c x IH].
  - rewrite append_nil_l, (split_last_slash_name f Hf). reflexivity.
  - rewrite append_cons, !split_last_slash_cons, IH.
    destruct (PyPath.split_last_slash x) as [h t]. cbn [fst snd].
    destruct h as [|a h].
    + destruct (Ascii.eqb c "/"); reflexivity.
    + reflexivity.
Qed.

Lemma split_last_slash_slash x :
  PyPath.split_last_slash (x +:+ "/") = (x +:+ "/", EmptyString).
Proof.
  induction x as [|c x IH].
  - reflexivity.
  - rewrite append_cons, split_last_slash_cons, IH.
    destruct x as [|a x]; reflexivity.
Qed.

(** [basename(join(d, f)) = f] for a name [f] without a slash. *)
Lemma basename_join d f :
  PyStr.has_char "/" f = false ->
  PyPath.basename (PyPath.join d f) = f.
Proof.
  intros Hf. unfold PyPath.basename, PyPath.join.
  assert (PyStr.startswith f "/" = false) as ->.
  { destruct f as [|c f]; [reflexivity|].
    rewrite has_char_cons in Hf. apply orb_false_elim in Hf as [Hc _].
    unfold PyStr.startswith. cbn [String.prefix].
    destruct (ascii_dec "/" c) as [<-|?]; [discriminate Hc|reflexivity]. }
  destruct (String.eqb_spec d EmptyString) as [->|Hd].
  - cbn [orb]. rewrite append_nil_l, (split_last_slash_name f Hf). reflexivity.
  - cbn [orb]. destruct (PyStr.endswith d "/") eqn:He.
    + apply endswith_iff in He as [y ->].
      rewrite (split_last_slash_app _ f Hf), split_last_slash_slash.
      cbn [snd]. apply append_nil_l.
    + rewrite <- append_assoc.
      rewrite (split_last_slash_app _ f Hf), split_last_slash_slash.
      cbn [snd]. apply append_nil_l.
Qed.

Lemma is_digit_not_slash c :
  PyFloat.is_digit c = true -> Ascii.eqb "/" c = false.
Proof.
  intros H. destruct (Ascii.eqb_spec "/" c) as [<-|?]; [|reflexivity].
  vm_compute in H. discriminate H.
Qed.

Lemma all_digits_no_slash s :
  all_digits s = true -> PyStr.has_char "/" s = false.
Proof.
  induction s as [|c s IH]; intros H.
  - reflexivity.
  - rewrite all_digits_cons in H. apply andb_true_iff in H as [Hc Hs].
    rewrite has_char_cons, (is_digit_not_slash c Hc), (IH Hs). reflexivity.
Qed.

(** A name the pattern accepts holds no slash. *)
Lemma variant_name_no_slash name g :
  VARIANT_DIR_RE_match name = Some g -> PyStr.has_char "/" name = false.
Proof.
  destruct g as [[p ub] b]. intros H.
  apply VARIANT_DIR_RE_match_iff in H as ((_ & Hp) & (_ & Hub) & (_ & Hb) & Hname).
  assert (PyStr.has_char "/" (variant_name_of p ub b) = false) as Hv.
  { unfold variant_name_of. rewrite !has_char_app.
    rewrite (all_digits_no_slash p Hp), (all_digits_no_slash ub Hub),
      (all_digits_no_slash b Hb). reflexivity. }
  destruct Hname as [->| ->]; [exact Hv|].
  rewrite has_char_app, Hv. reflexivity.
Qed.

(** ** The steps of [main] *)

Lemma open_write_inv fs path fs1 :
  open_write fs path = inr fs1 ->
  isdir fs path = false /\
  exists children,
    fs !! PyPath.dirname path = Some (DirN children) /\
    fs1 = <[path := FileN []]>
            (<[PyPath.dirname path :=
                 DirN (if bool_decide (PyPath.basename path ∈ children)
                       then children
                       else children ++ [PyPath.basename path])]> fs).
Proof.
  unfold open_write, isdir, raise, mret, result_ret.
  destruct (fs !! path) as [[recs|ch]|];
    destruct (fs !! PyPath.dirname path) as [[recs'|ch']|];
    intros H; try discriminate H;
    (split; [reflexivity|]); exists ch'; (split; [reflexivity|]);
    injection H as <-; reflexivity.
Qed.

Lemma main_group_cases cfg vdir p ub b vname w subdir files :
  (exists e,
     open_write (w_fs w) (PyPath.join subdir (vname +:+ ".csv")) = inl e /\
     main_group cfg vdir p ub b vname w (subdir, files)
     = {| w_fs := w_fs w;
          w_stderr := w_stderr w ++
            [ERROR_cannot_write (PyPath.join subdir (vname +:+ ".csv")) e];
          w_written := w_written w |}) \/
  (exists fs1,
     open_write (w_fs w) (PyPath.join subdir (vname +:+ ".csv")) = inr fs1 /\
     main_group cfg vdir p ub b vname w (subdir, files)
     = {| w_fs := <[PyPath.join subdir (vname +:+ ".csv")
                    := FileN (group_records cfg fs1 vdir p ub b files).1]> fs1;
          w_stderr := w_stderr w ++ (group_records cfg fs1 vdir p ub b files).2;
          w_written := w_written w ++
            [(PyPath.join subdir (vname +:+ ".csv"),
              (group_records cfg fs1 vdir p ub b files).1)] |}).
Proof.
  unfold main_group.
  destruct (open_write (w_fs w) (PyPath.join subdir (vname +:+ ".csv")))
    as [e|fs1].
  - left. exists e. split; reflexivity.
  - right. exists fs1. split; [reflexivity|].
    destruct (group_records cfg fs1 vdir p ub b files) as [recs diags].
    reflexivity.
Qed.

Lemma variant_of_entry_Some fs root name v :
  variant_of_entry fs root name = Some v ->
  exists p ub b,
    VARIANT_DIR_RE_match name = Some (p, ub, b) /\
    isdir fs (PyPath.join root name) = true /\
    v = (PyPath.join root name, int_of_digits p, int_of_digits ub,
         int_of_digits b).
Proof.
  unfold variant_of_entry.
  destruct (isdir fs (PyPath.join root name)); [|discriminate].
  cbn [negb]. destruct (VARIANT_DIR_RE_match name) as [[[p ub] b]|];
    [|discriminate].
  intros H. exists p, ub, b. split; [reflexivity|]. split; [reflexivity|].
  change (Some (PyPath.join root name, int_of_digits p, int_of_digits ub,
                int_of_digits b) = Some v) in H.
  injection H as <-. reflexivity.
Qed.

(** ** Invariants of a run *)

Section Invariant.

Variable cfg : config.
Variable I : world -> Prop.

(** Printing a diagnostic keeps the invariant. *)
Hypothesis I_stderr : forall w d,
  I w ->
  I {| w_fs := w_fs w; w_stderr := w_stderr w ++ d; w_written := w_written w |}.

(** Writing the output file of one group of a variant directory keeps
    it. *)
Hypothesis I_group : forall w name g p ub b subdir files fs1,
  VARIANT_DIR_RE_match name = Some g ->
  I w ->
  open_write (w_fs w)
    (PyPath.join subdir (PyPath.basename (PyPath.join (root cfg) name) +:+ ".csv"))
  = inr fs1 ->
  I {| w_fs :=
         <[PyPath.join subdir
             (PyPath.basename (PyPath.join (root cfg) name) +:+ ".csv")
           := FileN (group_records cfg fs1 (PyPath.join (root cfg) name)
                       p ub b files).1]> fs1;
       w_stderr := w_stderr w ++
         (group_records cfg fs1 (PyPath.join (root cfg) name) p ub b files).2;
       w_written := w_written w ++
         [(PyPath.join subdir
             (PyPath.basename (PyPath.join (root cfg) name) +:+ ".csv"),
           (group_records cfg fs1 (PyPath.join (root cfg) name)
              p ub b files).1)] |}.

Lemma main_group_invariant w name g p ub b grp :
  VARIANT_DIR_RE_match name = Some g ->
  I w ->
  I (main_group cfg (PyPath.join (root cfg) name) p ub b
       (PyPath.basename (PyPath.join (root cfg) name)) w grp).
Proof.
  intros Hm Hw. destruct grp as [subdir files].
  destruct (main_group_cases cfg (PyPath.join (root cfg) name) p ub b
              (PyPath.basename (PyPath.join (root cfg) name)) w subdir files)
    as [(e & _ & ->)|(fs1 & Hopen & ->)].
  - apply I_stderr. exact Hw.
  - eapply I_group; eassumption.
Qed.

Lemma main_groups_invariant name g p ub b groups w :
  VARIANT_DIR_RE_match name = Some g ->
  I w ->
  I (foldl (main_group cfg (PyPath.join (root cfg) name) p ub b
              (PyPath.basename (PyPath.join (root cfg) name))) w groups).
Proof.
  intros Hm. revert w. induction groups as [|grp groups IH]; intros w Hw.
  - exact Hw.
  - cbn [foldl]. apply IH. eapply main_group_invariant; eassumption.
Qed.

Lemma main_variant_invariant w name g p ub b :
  VARIANT_DIR_RE_match name = Some g ->
  I w ->
  I (main_variant cfg w (PyPath.join (root cfg) name, p, ub, b)).
Proof.
  intros Hm Hw. unfold main_variant.
  destruct (find_csvs (w_fs w) (PyPath.join (root cfg) name)) as [|c cs].
  - apply I_stderr. exact Hw.
  - eapply main_groups_invariant; eassumption.
Qed.

Lemma main_invariant w : I w -> I (main cfg w).
Proof.
  intros Hw. unfold main.
  destruct (listdir (w_fs w) (root cfg)) as [e|entries].
  - destruct e; apply I_stderr; exact Hw.
  - revert w Hw. induction (sorted entries) as [|name names IH]; intros w Hw.
    + exact Hw.
    + cbn [foldl]. apply IH.
      destruct (variant_of_entry (w_fs w) (root cfg) name) as [v|] eqn:Hv;
        [|exact Hw].
      apply variant_of_entry_Some in Hv as (p & ub & b & Hm & _ & ->).
      eapply main_variant_invariant; eassumption.
Qed.

End Invariant.

(* ===================================================================== *)
(** * What a run writes and what it leaves alone *)
(* ===================================================================== *)

(** ** The records of an output file *)

Lemma output_row_length vdir p ub b csv_path row m :
  length (output_row vdir p ub b csv_path row m) = length header.
Proof. destruct m as [[t w] u]. reflexivity. Qed.

Lemma write_rows_length cfg vdir p ub b csv_path rows :
  Forall (fun r => length r = length header)
    (write_rows cfg vdir p ub b csv_path rows).1.
Proof.
  induction rows as [|row rest IH].
  - constructor.
  - rewrite write_rows_cons.
    destruct (compute_metrics row (num_cus cfg)) as [e|m]; [constructor|].
    destruct (write_rows cfg vdir p ub b csv_path rest) as [recs e].
    constructor; [apply output_row_length|exact IH].
Qed.

Lemma main_file_length cfg fs vdir p ub b csv_path :
  Forall (fun r => length r = length header)
    (main_file cfg fs vdir p ub b csv_path).1.
Proof.
  rewrite main_file_unfold.
  destruct (count_occurrences _ _ _ _) as [e|N]; [constructor|].
  destruct (N =? 0); [constructor|].
  destruct (process_rows_from_half _ _ _ _ _) as [e|rows]; [constructor|].
  pose proof (write_rows_length cfg vdir p ub b csv_path rows) as H.
  destruct (write_rows cfg vdir p ub b csv_path rows) as [recs [e|]]; exact H.
Qed.

Lemma group_records_fold_length cfg fs vdir p ub b files acc :
  Forall (fun r => length r = length header) acc.1 ->
  Forall (fun r => length r = length header)
    (foldl (fun acc csv_path =>
              let '(recs, diags) := main_file cfg fs vdir p ub b csv_path in
              (acc.1 ++ recs, acc.2 ++ diags)) acc files).1.
Proof.
  revert acc. induction files as [|f files IH]; intros acc Hacc.
  - exact Hacc.
  - cbn [foldl]. apply IH.
    pose proof (main_file_length cfg fs vdir p ub b f) as Hf.
    destruct (main_file cfg fs vdir p ub b f) as [recs diags].
    cbn [fst]. apply Forall_app. split; assumption.
Qed.

(** The records of an output file: the header, then records as wide as
    the header. *)
Lemma group_records_table cfg fs vdir p ub b files :
  exists rest,
    (group_records cfg fs vdir p ub b files).1 = header :: rest /\
    Forall (fun r => length r = length header) rest.
Proof.
  destruct (group_records_header cfg fs vdir p ub b files) as [rest Hrest].
  exists rest. split; [exact Hrest|].
  pose proof (group_records_fold_length cfg fs vdir p ub b files ([header], [])) as H.
  unfold group_records in Hrest. rewrite Hrest in H.
  assert (Forall (fun r : record => length r = length header) (header :: rest)) as H'.
  { apply H. constructor; [reflexivity|constructor]. }
  apply Forall_cons in H' as [_ H']. exact H'.
Qed.

(** X11: every file a run writes is a table: the header, then only records
    with as many fields as the header. *)
Theorem run_writes_tables (cfg : config) (fs : gmap string node) :
  Forall (fun o : string * list record =>
            exists rest,
              o.2 = header :: rest /\
              Forall (fun r => length r = length header) rest)
    (w_written (run cfg fs)).
Proof.
  unfold run.
  apply (main_invariant cfg
           (fun w => Forall (fun o : string * list record =>
                               exists rest,
                                 o.2 = header :: rest /\
                                 Forall (fun r => length r = length header) rest)
                       (w_written w))).
  - intros w d Hw. exact Hw.
  - intros w name g p ub b subdir files fs1 _ Hw _. cbn [w_written].
    apply Forall_app. split; [exact Hw|].
    constructor; [|constructor]. cbn [snd]. apply group_records_table.
  - constructor.
Qed.

(** ** The names of the output files *)

Lemma output_basename root subdir name g :
  VARIANT_DIR_RE_match name = Some g ->
  PyPath.basename
    (PyPath.join subdir (PyPath.basename (PyPath.join root name) +:+ ".csv"))
  = name +:+ ".csv".
Proof.
  intros Hm. pose proof (variant_name_no_slash name g Hm) as Hs.
  rewrite (basename_join root name Hs).
  apply basename_join. rewrite has_char_app, Hs. reflexivity.
Qed.

(** X12: every file a run writes is named after a variant directory,
    [<name>.csv] for a name the pattern accepts, and no such name matches
    [*_kernel_trace.csv]. *)
Theorem run_output_names (cfg : config) (fs : gmap string node) :
  Forall (fun o : string * list record =>
            exists subdir name g,
              VARIANT_DIR_RE_match name = Some g /\
              o.1 = PyPath.join subdir (name +:+ ".csv") /\
              PyPath.basename o.1 = name +:+ ".csv" /\
              glob_kernel_trace (PyPath.basename o.1) = false)
    (w_written (run cfg fs)).
Proof.
  unfold run.
  apply (main_invariant cfg
           (fun w => Forall (fun o : string * list record =>
                               exists subdir name g,
                                 VARIANT_DIR_RE_match name = Some g /\
                                 o.1 = PyPath.join subdir (name +:+ ".csv") /\
                                 PyPath.basename o.1 = name +:+ ".csv" /\
                                 glob_kernel_trace (PyPath.basename o.1) = false)
                       (w_written w))).
  - intros w d Hw. exact Hw.
  - intros w name g p ub b subdir files fs1 Hm Hw _. cbn [w_written].
    apply Forall_app. split; [exact Hw|].
    constructor; [|constructor]. cbn [fst].
    exists subdir, name, g. split; [exact Hm|].
    rewrite (output_basename (root cfg) subdir name g Hm).
    rewrite (basename_join (root cfg) name (variant_name_no_slash name g Hm)).
    split; [reflexivity|]. split; [reflexivity|].
    exact (output_name_not_trace name g Hm).
  - constructor.
Qed.

(** ** What a run leaves alone *)

(** X13: a run never changes a trace file: a file whose name matches
    [*_kernel_trace.csv] holds after the run the records it held before. *)
Theorem run_keeps_trace_files
    (cfg : config) (fs : gmap string node) (q : string) (recs : list record) :
  fs !! q = Some (FileN recs) ->
  glob_kernel_trace (PyPath.basename q) = true ->
  w_fs (run cfg fs) !! q = Some (FileN recs).
Proof.
  intros Hq Hglob. unfold run.
  apply (main_invariant cfg (fun w => w_fs w !! q = Some (FileN recs))).
  - intros w d Hw. exact Hw.
  - intros w name g p ub b subdir files fs1 Hm Hw Hopen. cbn [w_fs].
    apply open_write_inv in Hopen as (_ & children & Hparent & ->).
    set (out := PyPath.join subdir
                  (PyPath.basename (PyPath.join (root cfg) name) +:+ ".csv")) in *.
    assert (out <> q) as Hne.
    { intros <-. unfold out in Hglob.
      rewrite (output_basename (root cfg) subdir name g Hm) in Hglob.
      rewrite (output_name_not_trace name g Hm) in Hglob. discriminate Hglob. }
    assert (PyPath.dirname out <> q) as Hne'.
    { intros Heq. rewrite Heq, Hw in Hparent. discriminate Hparent. }
    rewrite !lookup_insert_ne by assumption. exact Hw.
  - exact Hq.
Qed.

Lemma run_keeps_trace_files_witness :
  w_fs (run Examples.cfg Examples.fs) !! Examples.trace_path
  = Some (FileN Examples.trace).
Proof.
  apply (run_keeps_trace_files Examples.cfg Examples.fs Examples.trace_path
           Examples.trace).
  - vm_compute. reflexivity.
  - vm_compute. reflexivity.
Defined.



(** X15: a run touches only the files it writes and the directories that
    hold them: at every other path the file system is what it was. *)
Theorem run_frame (cfg : config) (fs : gmap string node) (q : string) :
  q ∉ (w_written (run cfg fs)).*1 ->
  q ∉ PyPath.dirname <$> (w_written (run cfg fs)).*1 ->
  w_fs (run cfg fs) !! q = fs !! q.
Proof.
  revert q. unfold run.
  apply (main_invariant cfg
           (fun w => forall q,
              q ∉ (w_written w).*1 ->
              q ∉ PyPath.dirname <$> (w_written w).*1 ->
              w_fs w !! q = fs !! q)).
  - intros w d Hw. exact Hw.
  - intros w name g p ub b subdir files fs1 _ Hw Hopen q. cbn [w_fs w_written].
    apply open_write_inv in Hopen as (_ & children & _ & ->).
    set (out := PyPath.join subdir
                  (PyPath.basename (PyPath.join (root cfg) name) +:+ ".csv")) in *.
    rewrite !fmap_app. cbn [fmap list_fmap fst].
    intros H1 H2.
    apply not_elem_of_app in H1 as [H1 H1'].
    apply not_elem_of_app in H2 as [H2 H2'].
    apply not_elem_of_cons in H1' as [H1' _].
    apply not_elem_of_cons in H2' as [H2' _].
    rewrite !lookup_insert_ne by congruence.
    apply Hw; assumption.
  - intros q _ _. reflexivity.
Qed.

(** The run on the example file system writes one file. *)
Lemma example_run_written :
  (w_written (run Examples.cfg Examples.fs)).*1 = [Examples.out_path].
Proof. vm_compute. reflexivity. Qed.

Lemma run_frame_witness :
  w_fs (run Examples.cfg Examples.fs) !! "/prof/notes.txt"
  = Examples.fs !! "/prof/notes.txt".
Proof.
  apply (run_frame Examples.cfg Examples.fs "/prof/notes.txt").
  - rewrite example_run_written. apply not_elem_of_cons.
    split; [|apply not_elem_of_nil].
    apply String.eqb_neq. vm_compute. reflexivity.
  - rewrite example_run_written.
    assert (PyPath.dirname <$> [Examples.out_path]
            = ["/prof/p2048_ub512_b512/bel-phx4"]) as ->
      by (vm_compute; reflexivity).
    apply not_elem_of_cons. split; [|apply not_elem_of_nil].
    apply String.eqb_neq. vm_compute. reflexivity.
Defined.

(* ===================================================================== *)
(** * Grouping the traces by directory *)
(* ===================================================================== *)

(** ** Grouping by directory *)

Lemma first_occurrences_elem x l : x ∈ first_occurrences l <-> x ∈ l.
Proof.
  induction l as [|y l IH].
  - reflexivity.
  - cbn [first_occurrences]. rewrite !elem_of_cons, list_elem_of_filter, IH.
    destruct (decide (x = y)) as [->|Hne]; [tauto|]. tauto.
Qed.

Lemma first_occurrences_NoDup l : NoDup (first_occurrences l).
Proof.
  induction l as [|y l IH].
  - constructor.
  - cbn [first_occurrences]. constructor.
    + rewrite list_elem_of_filter. tauto.
    + apply NoDup_filter. exact IH.
Qed.

Lemma first_occurrences_snoc l x :
  first_occurrences (l ++ [x])
  = if bool_decide (x ∈ l) then first_occurrences l
    else first_occurrences l ++ [x].
Proof.
  induction l as [|y l IH].
  - reflexivity.
  - cbn [app first_occurrences]. rewrite IH.
    destruct (decide (x = y)) as [->|Hne].
    + rewrite (bool_decide_eq_true_2 (y ∈ y :: l)) by left.
      destruct (bool_decide (y ∈ l)); [reflexivity|].
      rewrite filter_app, filter_cons, decide_False by tauto.
      rewrite filter_nil, app_nil_r. reflexivity.
    + destruct (bool_decide_reflect (x ∈ l)) as [Hin|Hnin].
      * rewrite bool_decide_eq_true_2 by (right; exact Hin). reflexivity.
      * rewrite bool_decide_eq_false_2
          by (rewrite elem_of_cons; tauto).
        rewrite filter_app, filter_cons, decide_True by exact Hne.
        reflexivity.
Qed.

Lemma paths_in_snoc k done p :
  paths_in k (done ++ [p])
  = paths_in k done ++ (if decide (PyPath.dirname p = k) then [p] else []).
Proof.
  unfold paths_in. rewrite filter_app, filter_cons, filter_nil. reflexivity.
Qed.

(** One [setdefault(...).append(...)] on the groups of the paths seen so
    far. *)
Lemma setdefault_append_groups ks done p :
  NoDup ks ->
  setdefault_append ((fun k => (k, paths_in k done)) <$> ks) (PyPath.dirname p) p
  = ((fun k => (k, paths_in k (done ++ [p]))) <$> ks)
    ++ (if bool_decide (PyPath.dirname p ∈ ks) then []
        else [(PyPath.dirname p, [p])]).
Proof.
  induction ks as [|k ks IH]; intros Hnd.
  - reflexivity.
  - apply NoDup_cons in Hnd as [Hk Hnd].
    rewrite !fmap_cons. cbn [setdefault_append].
    destruct (String.eqb_spec k (PyPath.dirname p)) as [Heq|Hne].
    + rewrite bool_decide_eq_true_2 by (rewrite <- Heq; left).
      rewrite app_nil_r, paths_in_snoc, decide_True by congruence.
      f_equal. apply list_fmap_ext. intros i k' Hk'.
      rewrite paths_in_snoc, decide_False, app_nil_r; [reflexivity|].
      intros Heq'. apply Hk. rewrite Heq, Heq'.
      eapply list_elem_of_lookup_2. exact Hk'.
    + rewrite (IH Hnd), paths_in_snoc, decide_False, app_nil_r by congruence.
      destruct (bool_decide_reflect (PyPath.dirname p ∈ ks)) as [Hin|Hnin].
      * rewrite bool_decide_eq_true_2 by (right; exact Hin). reflexivity.
      * rewrite bool_decide_eq_false_2; [reflexivity|].
        rewrite elem_of_cons. intros [Heq|Hin]; [congruence|tauto].
Qed.

Lemma paths_in_none k done :
  k ∉ PyPath.dirname <$> done -> paths_in k done = [].
Proof.
  intros Hk. unfold paths_in. induction done as [|p done IH].
  - reflexivity.
  - rewrite fmap_cons, not_elem_of_cons in Hk. destruct Hk as [Hne Hk].
    rewrite filter_cons, decide_False by congruence. apply IH. exact Hk.
Qed.

Lemma group_step done p :
  setdefault_append
    ((fun k => (k, paths_in k done))
       <$> first_occurrences (PyPath.dirname <$> done))
    (PyPath.dirname p) p
  = (fun k => (k, paths_in k (done ++ [p])))
      <$> first_occurrences (PyPath.dirname <$> (done ++ [p])).
Proof.
  rewrite setdefault_append_groups by apply first_occurrences_NoDup.
  rewrite (fmap_app PyPath.dirname done [p]).
  change (PyPath.dirname <$> [p]) with [PyPath.dirname p].
  rewrite first_occurrences_snoc.
  destruct (bool_decide_reflect (PyPath.dirname p ∈ PyPath.dirname <$> done))
    as [Hin|Hnin].
  - rewrite bool_decide_eq_true_2 by (apply first_occurrences_elem; exact Hin).
    apply app_nil_r.
  - rewrite bool_decide_eq_false_2
      by (rewrite first_occurrences_elem; exact Hnin).
    rewrite fmap_app. f_equal. cbn [fmap list_fmap]. f_equal. f_equal.
    rewrite paths_in_snoc, decide_True by reflexivity.
    rewrite (paths_in_none _ _ Hnin). reflexivity.
Qed.

Lemma group_fold done rest :
  foldl (fun groups path => setdefault_append groups (PyPath.dirname path) path)
    ((fun k => (k, paths_in k done))
       <$> first_occurrences (PyPath.dirname <$> done)) rest
  = (fun k => (k, paths_in k (done ++ rest)))
      <$> first_occurrences (PyPath.dirname <$> (done ++ rest)).
Proof.
  revert done. induction rest as [|p rest IH]; intros done.
  - rewrite app_nil_r. reflexivity.
  - cbn [foldl]. rewrite group_step, IH, <- app_assoc. reflexivity.
Qed.

(** The loop of [group_csvs_by_subdir], as a whole. *)
Lemma group_csvs_by_subdir_eq csv_paths :
  group_csvs_by_subdir csv_paths
  = (fun k => (k, paths_in k csv_paths))
      <$> first_occurrences (PyPath.dirname <$> csv_paths).
Proof. unfold group_csvs_by_subdir. apply (group_fold [] csv_paths). Qed.

Lemma paths_in_nonempty p csv_paths :
  p ∈ csv_paths -> paths_in (PyPath.dirname p) csv_paths <> [].
Proof.
  intros Hp Hnil.
  assert (p ∈ paths_in (PyPath.dirname p) csv_paths) as Hin
    by (apply list_elem_of_filter; split; [reflexivity|exact Hp]).
  rewrite Hnil in Hin. apply elem_of_nil in Hin. exact Hin.
Qed.

(** X16: the groups are the directories of the paths, in the order in which
    they first occur, each with the paths that lie in it, in the order of
    the list; so the directories are distinct, no group is empty and every
    path is in the group of its directory. *)
Theorem group_csvs_by_subdir_groups (csv_paths : list string) :
  group_csvs_by_subdir csv_paths
  = (fun k => (k, paths_in k csv_paths))
      <$> first_occurrences (PyPath.dirname <$> csv_paths) /\
  NoDup (group_csvs_by_subdir csv_paths).*1 /\
  Forall (fun g : string * list string => g.2 <> []) (group_csvs_by_subdir csv_paths) /\
  Forall (fun path =>
            exists files,
              (PyPath.dirname path, files) ∈ group_csvs_by_subdir csv_paths /\
              path ∈ files) csv_paths.
Proof.
  split; [apply group_csvs_by_subdir_eq|].
  rewrite group_csvs_by_subdir_eq. split; [|split].
  - rewrite <- list_fmap_compose.
    rewrite (list_fmap_ext _ id (first_occurrences (PyPath.dirname <$> csv_paths)))
      by (intros; reflexivity).
    rewrite list_fmap_id. apply first_occurrences_NoDup.
  - apply Forall_fmap, Forall_forall. intros k Hk.
    change (paths_in k csv_paths <> []).
    apply first_occurrences_elem, list_elem_of_fmap in Hk as (p & -> & Hp).
    apply paths_in_nonempty. exact Hp.
  - apply Forall_forall. intros p Hp.
    exists (paths_in (PyPath.dirname p) csv_paths). split.
    + apply list_elem_of_fmap. exists (PyPath.dirname p). split; [reflexivity|].
      apply first_occurrences_elem, list_elem_of_fmap. exists p. split; [reflexivity|exact Hp].
    + apply list_elem_of_filter. split; [reflexivity|exact Hp].
Qed.

(* ===================================================================== *)
(** * Sorted lists and directory names *)
(* ===================================================================== *)

(** ** The order of [sorted] is transitive *)

Lemma str_compare_trans a b c :
  String.compare a b <> Gt -> String.compare b c <> Gt ->
  String.compare a c <> Gt.
Proof.
  revert b c. induction a as [|x a IH]; intros b c Hab Hbc.
  - destruct c; discriminate.
  - destruct b as [|y b]; [cbn [String.compare] in Hab; congruence|].
    destruct c as [|z c]; [cbn [String.compare] in Hbc; congruence|].
    cbn [String.compare] in *. unfold Ascii.compare in *.
    destruct (N.compare_spec (N_of_ascii x) (N_of_ascii y)) as [Hxy|Hxy|Hxy];
      [| |congruence];
      destruct (N.compare_spec (N_of_ascii y) (N_of_ascii z)) as [Hyz|Hyz|Hyz];
      try congruence.
    + rewrite Hxy, Hyz, N.compare_refl. eapply IH; eassumption.
    + rewrite Hxy, (proj2 (N.compare_lt_iff _ _) Hyz). discriminate.
    + rewrite <- Hyz, (proj2 (N.compare_lt_iff _ _) Hxy). discriminate.
    + rewrite (proj2 (N.compare_lt_iff _ _) (N.lt_trans _ _ _ Hxy Hyz)).
      discriminate.
Qed.

Lemma str_le_compare a b : str_le a b <-> String.compare a b <> Gt.
Proof.
  unfold str_le, String.leb. destruct (String.compare a b); cbn; split;
    try congruence; try tauto; intros _; discriminate.
Qed.

#[global] Instance str_le_trans : Transitive str_le.
Proof.
  intros a b c Hab Hbc. apply str_le_compare.
  eapply str_compare_trans; apply str_le_compare; eassumption.
Qed.



(** ** Directory names *)







Lemma join_app d f : exists x, PyPath.join d f = x +:+ f.
Proof.
  unfold PyPath.join. destruct (PyStr.startswith f "/").
  - exists EmptyString. rewrite append_nil_l. reflexivity.
  - destruct (String.eqb d EmptyString || PyStr.endswith d "/").
    + exists d. reflexivity.
    + exists (d +:+ "/"). rewrite append_assoc. reflexivity.
Qed.


(* ===================================================================== *)
(** * What find_csvs finds and how it is grouped *)
(* ===================================================================== *)

(** ** What the glob finds *)

Lemma glob_kernel_traces_elem fs variant_dir path :
  path ∈ glob_kernel_traces fs variant_dir
  <-> exists sub name,
        sub ∈ scandir fs variant_dir /\ glob_star sub = true /\
        name ∈ scandir fs (PyPath.join variant_dir sub) /\
        glob_kernel_trace name = true /\
        path = PyPath.join (PyPath.join variant_dir sub) name.
Proof.
  unfold glob_kernel_traces. rewrite list_elem_of_bind. split.
  - intros (sub & Hp & Hsub).
    apply list_elem_of_filter in Hsub as [Hstar Hsub].
    apply list_elem_of_fmap in Hp as (name & -> & Hname).
    apply list_elem_of_filter in Hname as [Hglob Hname].
    exists sub, name. apply Is_true_true in Hstar, Hglob. tauto.
  - intros (sub & name & Hsub & Hstar & Hname & Hglob & ->).
    exists sub. split.
    + apply list_elem_of_fmap. exists name. split; [reflexivity|].
      apply list_elem_of_filter. split; [apply Is_true_true; exact Hglob|exact Hname].
    + apply list_elem_of_filter. split; [apply Is_true_true; exact Hstar|exact Hsub].
Qed.

(** X17: [find_csvs] returns, in sorted order and as often as the listings
    name them, the paths [<variant_dir>/<sub>/<name>] of the names that end
    with [_kernel_trace.csv] one level below the variant directory, names
    that start with a dot left out at both levels. *)
Theorem find_csvs_found (fs : gmap string node) (variant_dir : string) :
  glob_magic variant_dir = false ->
  Sorted str_le (find_csvs fs variant_dir) /\
  find_csvs fs variant_dir ≡ₚ glob_kernel_traces fs variant_dir /\
  forall path,
    path ∈ find_csvs fs variant_dir
    <-> exists sub name,
          sub ∈ scandir fs variant_dir /\
          PyStr.startswith sub "." = false /\
          name ∈ scandir fs (PyPath.join variant_dir sub) /\
          PyStr.startswith name "." = false /\
          PyStr.endswith name "_kernel_trace.csv" = true /\
          path = PyPath.join (PyPath.join variant_dir sub) name.
Proof.
  intros _. unfold find_csvs.
  destruct (sorted_Sorted (glob_kernel_traces fs variant_dir)) as [Hs Hp].
  split; [exact Hs|]. split; [exact Hp|].
  intros path. rewrite Hp, glob_kernel_traces_elem.
  split; intros (sub & name & H).
  - exists sub, name. unfold glob_star, glob_kernel_trace in H.
    destruct H as (Hsub & Hstar & Hname & Hglob & ->).
    apply negb_true_iff in Hstar.
    apply andb_true_iff in Hglob as [Hdot Hend].
    apply negb_true_iff in Hdot. tauto.
  - exists sub, name. unfold glob_star, glob_kernel_trace.
    destruct H as (Hsub & Hstar & Hname & Hdot & Hend & ->).
    rewrite Hstar, Hdot, Hend. cbn [negb andb]. tauto.
Qed.

Lemma find_csvs_found_witness :
  Sorted str_le (find_csvs Examples.fs "/prof/p2048_ub512_b512") /\
  find_csvs Examples.fs "/prof/p2048_ub512_b512"
    ≡ₚ glob_kernel_traces Examples.fs "/prof/p2048_ub512_b512" /\
  forall path,
    path ∈ find_csvs Examples.fs "/prof/p2048_ub512_b512"
    <-> exists sub name,
          sub ∈ scandir Examples.fs "/prof/p2048_ub512_b512" /\
          PyStr.startswith sub "." = false /\
          name ∈ scandir Examples.fs (PyPath.join "/prof/p2048_ub512_b512" sub) /\
          PyStr.startswith name "." = false /\
          PyStr.endswith name "_kernel_trace.csv" = true /\
          path = PyPath.join (PyPath.join "/prof/p2048_ub512_b512" sub) name.
Proof.
  apply (find_csvs_found Examples.fs "/prof/p2048_ub512_b512").
  vm_compute. reflexivity.
Defined.





(* ===================================================================== *)
(** * Discovery, and the generator inside the loop of main *)
(* ===================================================================== *)

(** ** Discovery *)







(** ** The generator and the loop of [main] *)

Lemma isdir_insert_file fs path recs q :
  isdir fs path = false ->
  isdir (<[path := FileN recs]> fs) q = isdir fs q.
Proof.
  intros Hp. unfold isdir in *. destruct (decide (q = path)) as [->|Hne].
  - rewrite lookup_insert_eq. symmetry. exact Hp.
  - rewrite lookup_insert_ne by congruence. reflexivity.
Qed.

Lemma isdir_insert_dir fs path children children' q :
  fs !! path = Some (DirN children) ->
  isdir (<[path := DirN children']> fs) q = isdir fs q.
Proof.
  intros Hp. unfold isdir. destruct (decide (q = path)) as [->|Hne].
  - rewrite lookup_insert_eq, Hp. reflexivity.
  - rewrite lookup_insert_ne by congruence. reflexivity.
Qed.

(** Handling one variant directory creates and removes no directory. *)
Lemma main_variant_isdir cfg w name g p ub b q :
  VARIANT_DIR_RE_match name = Some g ->
  isdir (w_fs (main_variant cfg w (PyPath.join (root cfg) name, p, ub, b))) q
  = isdir (w_fs w) q.
Proof.
  intros Hm. revert q.
  eapply (main_variant_invariant cfg
            (fun w' => forall q, isdir (w_fs w') q = isdir (w_fs w) q)).
  - intros w' d Hw'. exact Hw'.
  - intros w' name' g' p' ub' b' subdir files fs1 _ Hw' Hopen q. cbn [w_fs].
    apply open_write_inv in Hopen as (Hnodir & children & Hparent & ->).
    rewrite isdir_insert_file.
    + rewrite isdir_insert_file.
      * rewrite (isdir_insert_dir _ _ children) by exact Hparent. apply Hw'.
      * rewrite (isdir_insert_dir _ _ children) by exact Hparent. exact Hnodir.
    + rewrite isdir_insert_file.
      * rewrite (isdir_insert_dir _ _ children) by exact Hparent. exact Hnodir.
      * rewrite (isdir_insert_dir _ _ children) by exact Hparent. exact Hnodir.
  - exact Hm.
  - intros q. reflexivity.
Qed.

Lemma variant_of_entry_isdir fs fs' root name :
  isdir fs' (PyPath.join root name) = isdir fs (PyPath.join root name) ->
  variant_of_entry fs' root name = variant_of_entry fs root name.
Proof. intros H. unfold variant_of_entry. rewrite H. reflexivity. Qed.

Lemma main_loop_yielded cfg fs names w :
  (forall q, isdir (w_fs w) q = isdir fs q) ->
  foldl (fun w name =>
           match variant_of_entry (w_fs w) (root cfg) name with
           | Some v => main_variant cfg w v
           | None => w
           end) w names
  = foldl (main_variant cfg) w (omap (variant_of_entry fs (root cfg)) names).
Proof.
  revert w. induction names as [|name names IH]; intros w Hw.
  - reflexivity.
  - cbn [foldl omap list_omap].
    rewrite (variant_of_entry_isdir fs (w_fs w) (root cfg) name (Hw _)).
    destruct (variant_of_entry fs (root cfg) name) as [v|] eqn:Hv.
    + cbn [foldl]. apply IH. intros q.
      apply variant_of_entry_Some in Hv as (p & ub & b & Hm & _ & ->).
      rewrite (main_variant_isdir cfg w name _ _ _ _ q Hm). apply Hw.
    + apply IH. exact Hw.
Qed.

(** X21: the loop of [main] handles exactly the tuples that
    [iter_variant_dirs] yields for the file system the run starts from, in
    their order: the writes of the loop body, made between two steps of the
    generator, never change what the generator yields next. *)
Theorem main_visits_yielded (cfg : config) (w : world) :
  main cfg w
  = foldl (main_variant cfg)
      {| w_fs := w_fs w;
         w_stderr := w_stderr w ++ (iter_variant_dirs (w_fs w) (root cfg)).1;
         w_written := w_written w |}
      (iter_variant_dirs (w_fs w) (root cfg)).2.
Proof.
  unfold main, iter_variant_dirs.
  destruct (listdir (w_fs w) (root cfg)) as [e|entries].
  - destruct e; reflexivity.
  - cbn [fst snd]. rewrite app_nil_r.
    rewrite (main_loop_yielded cfg (w_fs w)) by reflexivity.
    destruct w as [fs0 err wr]. reflexivity.
Qed.

(* ===================================================================== *)
(** * Rows without the metric columns *)
(* ===================================================================== *)

(** ** Rows without the metric columns *)

(** A field that is absent, or that the reader filled with [None], reads
    as [0.0]. *)
Lemma field_value_missing row key :
  row_get row key = None -> field_value row key = 0%float.
Proof.
  unfold row_get, field_value, row_get_default.
  destruct (row !! key) as [[s|]|]; intros H.
  - discriminate H.
  - reflexivity.
  - vm_compute. reflexivity.
Qed.

Lemma div_zero_pos cus :
  SF_pos_finite (Prim2SF cus) -> PrimFloat.div 0 cus = 0%float.
Proof.
  intros Hc. rewrite <- (SF2Prim_Prim2SF (PrimFloat.div 0 cus)).
  rewrite FloatAxioms.div_spec.
  destruct (Prim2SF cus) as [s|s| |s m e]; try contradiction.
  cbn in Hc. subst s. reflexivity.
Qed.

(** X22: a row that lacks the two timestamps, the three workgroup sizes and
    the three grid sizes (the columns are absent, or the record is too
    short to reach them) is no error: its metrics are three zeros. *)
Theorem compute_metrics_missing_columns (row : Row) (n : Z) :
  n < 2 ^ 1023 ->
  Forall (fun key => row_get row key = None)
    [ "Start_Timestamp"; "End_Timestamp";
      "Workgroup_Size_X"; "Workgroup_Size_Y"; "Workgroup_Size_Z";
      "Grid_Size_X"; "Grid_Size_Y"; "Grid_Size_Z" ] ->
  compute_metrics row n = inr (0%float, 0%float, 0%float).
Proof.
  intros Hn Hkeys.
  repeat match goal with
         | H : Forall _ (_ :: _) |- _ =>
             apply Forall_cons in H as [?%field_value_missing H]
         end.
  assert (spec_time_us row = 0%float) as Ht.
  { unfold spec_time_us.
    repeat match goal with H : field_value _ _ = _ |- _ => rewrite H; clear H end.
    vm_compute. reflexivity. }
  assert (spec_total_workgroups row = 0%float) as Hw.
  { unfold spec_total_workgroups.
    repeat match goal with H : field_value _ _ = _ |- _ => rewrite H; clear H end.
    vm_compute. reflexivity. }
  clear Hkeys.
  destruct (compute_metrics_cases row n)
    as [(_ & ->)|[(Hpos & cus & _ & Hc & ->)|(Hbig & _)]].
  - rewrite Ht, Hw. reflexivity.
  - rewrite Ht, Hw. unfold spec_cu_utilization.
    rewrite (div_zero_pos cus Hc). reflexivity.
  - exfalso. apply (Z.lt_irrefl n). eapply Z.lt_le_trans; eassumption.
Qed.

Lemma compute_metrics_missing_columns_witness :
  compute_metrics (dict_row ["Dispatch_Id"; "Kernel_Name"] ["1"; "copy"]) 100
  = inr (0%float, 0%float, 0%float).
Proof.
  apply (compute_metrics_missing_columns
           (dict_row ["Dispatch_Id"; "Kernel_Name"] ["1"; "copy"]) 100).
  - vm_compute. reflexivity.
  - repeat constructor.
Defined.

(* ===================================================================== *)
(** * The profiling driver and the names it gives to its directories *)
(* ===================================================================== *)

(** ** Decimal text of an integer *)

Lemma digits_value_cons acc c r :
  PyFloat.digits_value acc (String c r)
  = PyFloat.digits_value (10 * acc + PyFloat.digit_val c) r.
Proof. reflexivity. Qed.

Lemma string_of_uint_digits d :
  all_digits (NilEmpty.string_of_uint d) = true.
Proof.
  induction d; cbn [NilEmpty.string_of_uint];
    [reflexivity|rewrite all_digits_cons, IHd; reflexivity..].
Qed.

Lemma digits_value_uint_acc d acc :
  PyFloat.digits_value (Z.pos acc) (NilEmpty.string_of_uint d)
  = Z.pos (Pos.of_uint_acc d acc).
Proof.
  revert acc.
  induction d; intros acc;
    cbn [NilEmpty.string_of_uint Pos.of_uint_acc];
    [reflexivity|rewrite digits_value_cons..].
  all: match goal with
       | |- context [PyFloat.digit_val ?c] =>
           let v := eval vm_compute in (PyFloat.digit_val c) in
           change (PyFloat.digit_val c) with v
       end.
  all: rewrite <- IHd; f_equal; lia.
Qed.

Lemma digits_value_uint d :
  PyFloat.digits_value 0 (NilEmpty.string_of_uint d) = Z.of_N (Pos.of_uint d).
Proof.
  induction d; cbn [NilEmpty.string_of_uint Pos.of_uint];
    [reflexivity|rewrite digits_value_cons..].
  all: match goal with
       | |- context [PyFloat.digit_val ?c] =>
           let v := eval vm_compute in (PyFloat.digit_val c) in
           change (PyFloat.digit_val c) with v
       end.
  - exact IHd.
  - apply (digits_value_uint_acc d 1).
  - apply (digits_value_uint_acc d 2).
  - apply (digits_value_uint_acc d 3).
  - apply (digits_value_uint_acc d 4).
  - apply (digits_value_uint_acc d 5).
  - apply (digits_value_uint_acc d 6).
  - apply (digits_value_uint_acc d 7).
  - apply (digits_value_uint_acc d 8).
  - apply (digits_value_uint_acc d 9).
Qed.

Lemma string_of_uint_nonnil d :
  d <> Decimal.Nil -> NilEmpty.string_of_uint d <> EmptyString.
Proof. destruct d; [congruence|discriminate..]. Qed.

(** [int(str(n)) = n] for an integer that is not negative, and [str(n)]
    is one or more digits. *)
Lemma str_of_int_digits n :
  0 <= n ->
  digits1 (PyFormat.str_of_int n) /\ int_of_digits (PyFormat.str_of_int n) = n.
Proof.
  intros Hn. destruct n as [|p|p]; [| |lia].
  - split; [split; [discriminate|reflexivity]|reflexivity].
  - unfold PyFormat.str_of_int, int_of_digits.
    cbn [Z.to_int NilZero.string_of_int].
    pose proof (Unsigned.to_uint_nonnil p) as Hnn.
    assert (NilZero.string_of_uint (Pos.to_uint p)
            = NilEmpty.string_of_uint (Pos.to_uint p)) as ->.
    { unfold NilZero.string_of_uint. destruct (Pos.to_uint p); [congruence|reflexivity..]. }
    split; [split|].
    + apply string_of_uint_nonnil. exact Hnn.
    + apply string_of_uint_digits.
    + rewrite digits_value_uint, DecimalPos.Unsigned.of_to. reflexivity.
Qed.

(** ** The directory of a run *)

Lemma basename_slash_name y name :
  PyStr.has_char "/" name = false ->
  PyPath.basename (y +:+ "/" +:+ name) = name.
Proof.
  intros Hn. unfold PyPath.basename.
  rewrite <- append_assoc, (split_last_slash_app _ name Hn), split_last_slash_slash.
  cbn [snd]. apply append_nil_l.
Qed.

Lemma variant_name_of_no_slash p ub b :
  digits1 p -> digits1 ub -> digits1 b ->
  PyStr.has_char "/" (variant_name_of p ub b) = false.
Proof.
  intros [_ Hp] [_ Hub] [_ Hb]. unfold variant_name_of. rewrite !has_char_app.
  rewrite (all_digits_no_slash p Hp), (all_digits_no_slash ub Hub),
    (all_digits_no_slash b Hb). reflexivity.
Qed.

Lemma out_dir_basename RUN_TS p ub b :
  0 <= p -> 0 <= ub -> 0 <= b ->
  PyPath.basename (RunProfVariants.out_dir RUN_TS p ub b)
  = variant_name_of (PyFormat.str_of_int p) (PyFormat.str_of_int ub)
      (PyFormat.str_of_int b).
Proof.
  intros Hp Hub Hb.
  destruct (str_of_int_digits p Hp) as [Dp _].
  destruct (str_of_int_digits ub Hub) as [Dub _].
  destruct (str_of_int_digits b Hb) as [Db _].
  pose proof (variant_name_of_no_slash _ _ _ Dp Dub Db) as Hs.
  unfold RunProfVariants.out_dir.
  change (RUN_TS +:+ "/p" +:+ PyFormat.str_of_int p +:+ "_ub" +:+
          PyFormat.str_of_int ub +:+ "_b" +:+ PyFormat.str_of_int b)
    with (RUN_TS +:+ "/" +:+
          variant_name_of (PyFormat.str_of_int p) (PyFormat.str_of_int ub)
            (PyFormat.str_of_int b)).
  set (name := variant_name_of _ _ _) in *.
  destruct (join_app RunProfVariants.BASE_DIR (RUN_TS +:+ "/" +:+ name)) as [x ->].
  rewrite <- (append_assoc x RUN_TS). apply basename_slash_name. exact Hs.
Qed.

(** X23: the directory a run of the driver makes for sizes that are not
    negative is one the analysis discovers: its name is accepted by
    [VARIANT_DIR_RE] and read back as the three sizes of the run. *)
Theorem run_combo_dir_discovered
    (fs : gmap string node) (root RUN_TS : string) (p ub b : Z) :
  0 <= p -> 0 <= ub -> 0 <= b ->
  isdir fs (PyPath.join root
              (PyPath.basename (RunProfVariants.run_combo RUN_TS p ub b).1))
  = true ->
  variant_of_entry fs root
    (PyPath.basename (RunProfVariants.run_combo RUN_TS p ub b).1)
  = Some (PyPath.join root
            (PyPath.basename (RunProfVariants.run_combo RUN_TS p ub b).1),
          p, ub, b).
Proof.
  intros Hp Hub Hb. unfold RunProfVariants.run_combo. cbn [fst].
  rewrite (out_dir_basename RUN_TS p ub b Hp Hub Hb).
  destruct (str_of_int_digits p Hp) as [Dp Ep].
  destruct (str_of_int_digits ub Hub) as [Dub Eub].
  destruct (str_of_int_digits b Hb) as [Db Eb].
  intros Hdir. unfold variant_of_entry. rewrite Hdir. cbn [negb].
  assert (VARIANT_DIR_RE_match
            (variant_name_of (PyFormat.str_of_int p) (PyFormat.str_of_int ub)
               (PyFormat.str_of_int b))
          = Some (PyFormat.str_of_int p, PyFormat.str_of_int ub,
                  PyFormat.str_of_int b)) as ->.
  { apply VARIANT_DIR_RE_match_iff. repeat split; try apply Dp; try apply Dub;
      try apply Db. left. reflexivity. }
  cbn [mbind option_bind]. rewrite Ep, Eub, Eb. reflexivity.
Qed.

Lemma run_combo_dir_discovered_witness :
  variant_of_entry
    (<["/prof/p2048_ub2048_b2048" := DirN []]> Examples.fs) "/prof"
    (PyPath.basename (RunProfVariants.run_combo "20260101_000000_graph"
                        2048 2048 2048).1)
  = Some (PyPath.join "/prof"
            (PyPath.basename (RunProfVariants.run_combo "20260101_000000_graph"
                                2048 2048 2048).1),
          2048, 2048, 2048).
Proof.
  apply (run_combo_dir_discovered
           (<["/prof/p2048_ub2048_b2048" := DirN []]> Examples.fs) "/prof"
           "20260101_000000_graph" 2048 2048 2048).
  - discriminate.
  - discriminate.
  - discriminate.
  - vm_compute. reflexivity.
Defined.

(** ** The runs of the driver *)

Lemma skipped_false_iff p ub b :
  RunProfVariants.skipped p ub b = false <-> p = ub /\ ub = b.
Proof.
  unfold RunProfVariants.skipped.
  rewrite !orb_false_iff, !negb_false_iff, !Z.ltb_ge, !Z.eqb_eq. lia.
Qed.

(** X24: the driver runs only triples of three equal sizes, one for each
    value of [P_VALUES] that is also in [UB_B_VALUES], in the order of
    [P_VALUES]; it runs nothing when one of its three checks fails. *)
Theorem main_runs_equal_sizes
    (bin_exists model_exists rocprofv3_found : bool) (RUN_TS : string) :
  (bin_exists && model_exists && rocprofv3_found = false ->
   RunProfVariants.main bin_exists model_exists rocprofv3_found RUN_TS = []) /\
  (bin_exists && model_exists && rocprofv3_found = true ->
   RunProfVariants.main bin_exists model_exists rocprofv3_found RUN_TS
   = (fun p => RunProfVariants.run_combo RUN_TS p p p)
       <$> filter (fun p => p ∈ RunProfVariants.UB_B_VALUES)
             RunProfVariants.P_VALUES) /\
  forall p ub b,
    RunProfVariants.skipped p ub b = false <-> p = ub /\ ub = b.
Proof.
  split; [|split].
  - destruct bin_exists, model_exists, rocprofv3_found; try reflexivity.
    intros H. discriminate H.
  - destruct bin_exists, model_exists, rocprofv3_found; try (intros H; discriminate H).
    intros _. reflexivity.
  - apply skipped_false_iff.
Qed.

(* ===================================================================== *)
(** * The files a run leaves *)
(* ===================================================================== *)

(** ** The files a run leaves *)

(** X25: after a run every output path holds the records of the last write
    the run made to it. *)
Theorem run_files_hold_last_write
    (cfg : config) (fs : gmap string node)
    (i : nat) (out : string) (recs : list record) :
  w_written (run cfg fs) !! i = Some (out, recs) ->
  out ∉ (drop (S i) (w_written (run cfg fs))).*1 ->
  w_fs (run cfg fs) !! out = Some (FileN recs).
Proof.
  revert i out recs. unfold run.
  apply (main_invariant cfg
           (fun w => forall i out recs,
              w_written w !! i = Some (out, recs) ->
              out ∉ (drop (S i) (w_written w)).*1 ->
              w_fs w !! out = Some (FileN recs))).
  - intros w d Hw. exact Hw.
  - intros w name g p ub b subdir files fs1 _ Hw Hopen i out recs.
    cbn [w_fs w_written].
    apply open_write_inv in Hopen as (_ & children & Hparent & ->).
    set (o := PyPath.join subdir
                (PyPath.basename (PyPath.join (root cfg) name) +:+ ".csv")) in *.
    set (R := (group_records cfg _ (PyPath.join (root cfg) name) p ub b files).1).
    intros Hi Hlater.
    destruct (decide (i < length (w_written w))%nat) as [Hlt|Hge].
    + rewrite lookup_app_l in Hi by exact Hlt.
      rewrite drop_app_le in Hlater by lia.
      rewrite fmap_app in Hlater. apply not_elem_of_app in Hlater as [Hl1 Hl2].
      cbn [fmap list_fmap fst] in Hl2. apply not_elem_of_cons in Hl2 as [Hne _].
      specialize (Hw i out recs Hi Hl1).
      assert (PyPath.dirname o <> out) as Hne'.
      { intros Heq. rewrite Heq, Hw in Hparent. discriminate Hparent. }
      rewrite !lookup_insert_ne by congruence. exact Hw.
    + rewrite lookup_app_r in Hi by lia.
      destruct (i - length (w_written w))%nat as [|k] eqn:Hk; [|discriminate Hi].
      cbn [lookup list_lookup] in Hi. injection Hi as <- <-.
      apply lookup_insert_eq.
  - intros i out recs Hi. discriminate Hi.
Qed.

Lemma example_run_file :
  exists recs,
    w_written (run Examples.cfg Examples.fs) = [(Examples.out_path, recs)].
Proof.
  pose proof example_run_written as E.
  destruct (w_written (run Examples.cfg Examples.fs)) as [|[o r] l];
    [discriminate E|].
  rewrite fmap_cons in E. injection E as -> El.
  apply fmap_nil_inv in El. subst l. exists r. reflexivity.
Qed.

Lemma run_files_hold_last_write_witness :
  exists recs,
    w_written (run Examples.cfg Examples.fs) !! 0%nat
    = Some (Examples.out_path, recs) /\
    w_fs (run Examples.cfg Examples.fs) !! Examples.out_path
    = Some (FileN recs).
Proof.
  destruct example_run_file as [recs H]. exists recs.
  split; [rewrite H; reflexivity|].
  apply (run_files_hold_last_write Examples.cfg Examples.fs 0
           Examples.out_path recs).
  - rewrite H. reflexivity.
  - rewrite H. apply not_elem_of_nil.
Defined.
